(** * RAG question-answering service: pipeline, logger and startup

    A shallow embedding of the Python backend (app/api/routes.py,
    app/services/*.py, app/models/*.py, app/main.py).

    Conventions of the embedding.
    - A Python float is represented by the rational number it denotes
      ([Q]); [int(x)] truncates towards zero and the [.2f] format rounds
      that exact value to the nearest hundredth, ties to even.  Where a
      float is computed from others by the log store or by [round], the
      result is rounded to the nearest binary64 number ([binary64]).
    - An exception is represented by its [str(e)] text.
    - The third-party services (OpenAI embeddings and chat completions,
      the Qdrant similarity search and the failures of each request to
      Qdrant, the SQLite engine's availability, the wall clock, the
      bundled FAQ file) are oracles gathered in [Env].
    - The mutable state (the interactions table, the Qdrant collections,
      how often the clock and the database were used, and a ghost trace
      of the calls made) is the record [World], threaded by the monad
      [M], whose [try_except] is Python's [try: ... except Exception]. *)

From Stdlib Require Import ZArith QArith Qround Qabs Qpower String Ascii List Bool Lia Lqa DecimalString Sorted.
From stdpp Require Import gmap strings list fin_maps.

Local Open Scope Z_scope.
Local Open Scope string_scope.
Local Open Scope list_scope.

(* ===================================================================== *)
(** ** Data model (app/models/schemas.py)                                 *)
(* ===================================================================== *)

Definition Vector : Type := list Q.

Record FAQ := {
  FAQ_id : string;
  FAQ_question : string;
  FAQ_answer : string;
  FAQ_category : string;
  FAQ_keywords : list string
}.

Record RetrievedFAQ := {
  faq_id : string;
  question : string;
  answer : string;
  category : string;
  similarity_score : Q
}.

Record QueryRequest := {
  query : string;
  include_sources : bool
}.

Record QueryResponse := {
  resp_answer : string;
  resp_sources : list RetrievedFAQ;
  resp_response_time_ms : Z;
  resp_timestamp : Q
}.

Record HealthResponse := {
  status : string;
  qdrant_connected : bool;
  openai_configured : bool;
  faqs_loaded : Z
}.

(** One row of the [interactions] table (app/models/database.py).  The two
    TEXT columns that hold [json.dumps] of a list are kept as the list
    they serialise. *)
Record InteractionRow := {
  row_id : Z;
  row_timestamp : Z;
  user_query : string;
  retrieved_faq_ids : list string;
  ai_response : string;
  response_time_ms : Z;
  relevance_scores : list Q;
  error_occurred : bool
}.

(** app/config.py *)
Record Settings := {
  openai_api_key : string;
  embedding_model : string;
  embedding_dimension : Z;
  llm_model : string;
  llm_temperature : Q;
  max_tokens : Z;
  qdrant_collection_name : string;
  top_k_results : Z;
  similarity_threshold : Q
}.

(* ===================================================================== *)
(** ** Exceptions and results                                             *)
(* ===================================================================== *)

Inductive Exception := Exc (description : string).

Definition str (e : Exception) : string := let (d) := e in d.

Record HTTPException := {
  status_code : Z;
  detail : string
}.

Inductive result (E A : Type) : Type :=
| Ok (a : A)
| Raise (e : E).
Arguments Ok {E A} a.
Arguments Raise {E A} e.

Definition IndexError : Exception := Exc "list index out of range".
Definition TypeError_len_None : Exception := Exc "object of type 'NoneType' has no len()".
Definition TypeError_not_subscriptable : Exception :=
  Exc "'NoneType' object is not subscriptable".
Definition KeyError (key : string) : Exception := Exc ("'" +:+ key +:+ "'").

(* ===================================================================== *)
(** ** The vector store and the third-party requests                      *)
(* ===================================================================== *)

Record Payload := {
  payload_faq_id : string;
  payload_question : string;
  payload_answer : string;
  payload_category : string;
  payload_keywords : list string
}.

Record PointStruct := {
  point_id : Z;
  point_vector : Vector;
  point_payload : Payload
}.

(** A value of the JSON payload the store returns with a hit. *)
Inductive PayloadValue :=
| PayloadStr (s : string)
| PayloadList (items : list string)
| PayloadOther.

(** A hit of [client.search]: its payload (a dict, or [None] when the
    point has none) and its score. *)
Record ScoredPoint := {
  scored_payload : option (gmap string PayloadValue);
  score : Q
}.

(** The payload dict of a point stored by [index_faqs], as the store
    returns it. *)
Definition payload_dict (p : Payload) : gmap string PayloadValue :=
  <["faq_id" := PayloadStr (payload_faq_id p)]>
    (<["question" := PayloadStr (payload_question p)]>
       (<["answer" := PayloadStr (payload_answer p)]>
          (<["category" := PayloadStr (payload_category p)]>
             (<["keywords" := PayloadList (payload_keywords p)]> ∅)))).

Record Collection := {
  vector_size : Z;
  points : gmap Z PointStruct
}.

Definition points_count (c : Collection) : Z := Z.of_nat (size (points c)).

Inductive EmbeddingInput :=
| InputText (text : string)
| InputTexts (texts : list string).

Record ChatRequest := {
  chat_model : string;
  chat_system : string;
  chat_user : string;
  chat_temperature : Q;
  chat_max_tokens : Z
}.

Record SearchParams := {
  sp_collection_name : string;
  sp_query_vector : Vector;
  sp_limit : Z;
  sp_score_threshold : Q;
  sp_query_filter : option string
}.

(** A call of the Qdrant client. *)
Inductive QdrantRequest :=
| GetCollections
| CreateCollection (name : string)
| GetCollection (name : string)
| Upsert (name : string) (pts : list PointStruct)
| Search (params : SearchParams).

(** Ghost trace: the calls a run makes, oldest first. *)
Inductive Event :=
| EvEmbeddingsCreate (input : EmbeddingInput)
| EvChatCompletion (req : ChatRequest)
| EvQdrantSearch (params : SearchParams)
| EvQdrantCreateCollection (name : string)
| EvQdrantUpsert (name : string) (pts : list PointStruct)
| EvGenerateAnswer (user_query : string) (retrieved_faqs : list RetrievedFAQ)
| EvLogInteraction (error_occurred : bool).

(** The collaborators the backend does not implement. *)
Record Env := {
  (** [get_settings()]: the validated settings, or the validation error. *)
  get_settings : result Exception Settings;
  (** [client.embeddings.create]: the [embedding] of each item of
      [response.data]. *)
  embeddings_create : string -> EmbeddingInput -> result Exception (list Vector);
  (** [client.chat.completions.create]: the [message.content] of each
      choice ([None] when the model returned no text). *)
  chat_completions_create : ChatRequest -> result Exception (list (option string));
  (** [Some e] when that call of the Qdrant client raises [e] (store
      unreachable, time-out, request rejected, answer not understood,
      ...); each call fails or not on its own. *)
  qdrant_fault : QdrantRequest -> option Exception;
  (** which points of a batch the store kept although it made the upsert
      raise (none of them for a store that rejects a batch as a whole). *)
  upsert_kept : string -> list PointStruct -> PointStruct -> bool;
  (** [client.get_collection] and [client.upsert] on a collection that
      does not exist. *)
  qdrant_not_found : Exception;
  (** [client.search] when the call goes through. *)
  qdrant_search : SearchParams -> result Exception (list ScoredPoint);
  (** pydantic's rejection of the fields of a [RetrievedFAQ] (a field that
      is not a string, a [similarity_score] outside [0, 1]). *)
  validation_error : ScoredPoint -> Exception;
  (** [Some e] when the n-th INSERT attempted on the log store raises [e]
      (store unavailable, table missing, disk full, ...). *)
  db_fault : nat -> option Exception;
  (** the n-th reading of the wall clock, in seconds. *)
  wall_clock : nat -> Q;
  (** reading and validating data/legal_faqs.json. *)
  legal_faqs_json : result Exception (list FAQ)
}.

Record World := {
  interactions : list InteractionRow;
  qdrant : gmap string Collection;
  clock_reads : nat;
  db_writes : nat;
  trace : list Event
}.

(* ===================================================================== *)
(** ** The state-and-exception monad                                      *)
(* ===================================================================== *)

Definition M (E A : Type) : Type := World -> result E A * World.

Definition ret {E A} (a : A) : M E A := fun w => (Ok a, w).

Definition raise {E A} (e : E) : M E A := fun w => (Raise e, w).

Definition bind {E A B} (m : M E A) (k : A -> M E B) : M E B :=
  fun w =>
    match m w with
    | (Ok a, w') => k a w'
    | (Raise e, w') => (Raise e, w')
    end.

(** [try: body except Exception as e: handler e] *)
Definition try_except {E E' A} (body : M E A) (handler : E -> M E' A) : M E' A :=
  fun w =>
    match body w with
    | (Ok a, w') => (Ok a, w')
    | (Raise e, w') => handler e w'
    end.

Definition lift {E A} (r : result E A) : M E A := fun w => (r, w).

Declare Scope py_scope.
Delimit Scope py_scope with py.
Notation "x <~ m ;; k" := (bind m (fun x => k))
  (at level 100, m at next level, right associativity) : py_scope.
Notation "m ;;; k" := (bind m (fun _ => k))
  (at level 100, right associativity) : py_scope.
Local Open Scope py_scope.

Definition set_interactions (rows : list InteractionRow) (w : World) : World :=
  {| interactions := rows; qdrant := qdrant w; clock_reads := clock_reads w;
     db_writes := db_writes w; trace := trace w |}.

Definition set_qdrant (q : gmap string Collection) (w : World) : World :=
  {| interactions := interactions w; qdrant := q; clock_reads := clock_reads w;
     db_writes := db_writes w; trace := trace w |}.

Definition emit {E} (ev : Event) : M E unit :=
  fun w =>
    (Ok tt,
     {| interactions := interactions w; qdrant := qdrant w;
        clock_reads := clock_reads w; db_writes := db_writes w;
        trace := trace w ++ [ev] |}).

(* ===================================================================== *)
(** ** Python and SQL primitives                                          *)
(* ===================================================================== *)

Definition NL : string := String (ascii_of_nat 10) EmptyString.

(** [int(x)] on a float: truncation towards zero. *)
Definition py_int (x : Q) : Z := Z.quot (Qnum x) (Zpos (Qden x)).

(** Nearest integer, ties to even. *)
Definition round_half_even (x : Q) : Z :=
  let f := Qfloor x in
  match Qcompare (x - inject_Z f) (1 # 2) with
  | Lt => f
  | Gt => f + 1
  | Eq => if Z.even f then f else f + 1
  end.

(** The exponent of the unit in the last place of the binary64 number
    nearest to [x]: the [e] with [2^52 <= |x| / 2^e < 2^53] (the exponent
    range of the format is left unbounded: no overflow, no subnormals). *)
Definition binary64_exponent (x : Q) : Z :=
  let e0 := Z.log2 (Z.abs (Qnum x)) - Z.log2 (Zpos (Qden x)) - 52 in
  if Qle_bool (2 ^ 52) (Qabs x / 2 ^ e0) then e0 else e0 - 1.

(** The value of the float nearest to [x], ties to even: what an IEEE 754
    operation whose exact result is [x] returns. *)
Definition binary64 (x : Q) : Q :=
  if Qeq_bool x 0 then 0%Q
  else (inject_Z (round_half_even (x / 2 ^ binary64_exponent x))
        * 2 ^ binary64_exponent x)%Q.

(** [round(x, 2)]: the float nearest to the hundredth nearest to [x]. *)
Definition py_round2 (x : Q) : Q := binary64 (round_half_even (x * 100) # 100).

Definition str_of_nat (n : nat) : string := NilEmpty.string_of_uint (Nat.to_uint n).

Definition two_digits (n : nat) : string :=
  if (n <? 10)%nat then "0" +:+ str_of_nat n else str_of_nat n.

(** [f"{x:.2f}"] *)
Definition format_2f (x : Q) : string :=
  let c := Z.to_nat (round_half_even (Qabs x * 100)) in
  (if Qlt_le_dec x 0 then "-" else EmptyString)
    +:+ str_of_nat (c / 100) +:+ "." +:+ two_digits (c mod 100).

(** [time.time()] and the other readings of the wall clock. *)
Definition time_time {E} (env : Env) : M E Q :=
  fun w =>
    (Ok (wall_clock env (clock_reads w)),
     {| interactions := interactions w; qdrant := qdrant w;
        clock_reads := S (clock_reads w); db_writes := db_writes w;
        trace := trace w |}).

Section Backend.

Context (env : Env).

(* ===================================================================== *)
(** ** EmbeddingService (app/services/embeddings.py)                      *)
(* ===================================================================== *)

Record EmbeddingService := { emb_model : string }.

(** [embeddings.create]; [data[0]] of an empty answer is an IndexError.
    The [except] clause logs and re-raises. *)
Definition generate_embedding (self : EmbeddingService) (text : string)
  : M Exception Vector :=
  try_except
    (emit (EvEmbeddingsCreate (InputText text)) ;;;
     data <~ lift (embeddings_create env (emb_model self) (InputText text)) ;;
     match data with
     | embedding :: _ => ret embedding
     | [] => raise IndexError
     end)
    (fun e => raise e).

Definition generate_embeddings_batch (self : EmbeddingService) (texts : list string)
  : M Exception (list Vector) :=
  try_except
    (emit (EvEmbeddingsCreate (InputTexts texts)) ;;;
     data <~ lift (embeddings_create env (emb_model self) (InputTexts texts)) ;;
     ret data)
    (fun e => raise e).

(* ===================================================================== *)
(** ** The Qdrant client                                                  *)
(* ===================================================================== *)

(** A call that leaves the store as it was when it fails.  The trace
    records the calls that went through to the store. *)
Definition qdrant_call {A} (request : QdrantRequest) (m : M Exception A)
  : M Exception A :=
  match qdrant_fault env request with
  | Some e => raise e
  | None => m
  end.

(** [client.get_collections().collections], by name. *)
Definition client_get_collections : M Exception (list string) :=
  qdrant_call GetCollections (fun w => (Ok (elements (dom (qdrant w))), w)).

Definition client_create_collection (name : string) (size : Z) : M Exception unit :=
  qdrant_call (CreateCollection name)
    (emit (EvQdrantCreateCollection name) ;;;
     fun w => (Ok tt, set_qdrant (<[name := {| vector_size := size; points := ∅ |}]> (qdrant w)) w)).

Definition client_get_collection (name : string) : M Exception Collection :=
  qdrant_call (GetCollection name)
    (fun w =>
       match qdrant w !! name with
       | Some c => (Ok c, w)
       | None => (Raise (qdrant_not_found env), w)
       end).

Definition upsert_points (pts : list PointStruct) (m : gmap Z PointStruct)
  : gmap Z PointStruct :=
  fold_left (fun acc p => <[point_id p := p]> acc) pts m.

(** The store after the points [pts] went into the collection [name]. *)
Definition store_points (name : string) (pts : list PointStruct) (w : World) : World :=
  match qdrant w !! name with
  | Some c =>
      set_qdrant
        (<[name := {| vector_size := vector_size c;
                      points := upsert_points pts (points c) |}]> (qdrant w)) w
  | None => w
  end.

(** [client.upsert]: an upsert that raises may have stored part of its
    batch. *)
Definition client_upsert (name : string) (pts : list PointStruct) : M Exception unit :=
  match qdrant_fault env (Upsert name pts) with
  | Some e =>
      fun w => (Raise e, store_points name (List.filter (upsert_kept env name pts) pts) w)
  | None =>
      emit (EvQdrantUpsert name pts) ;;;
      fun w =>
        match qdrant w !! name with
        | None => (Raise (qdrant_not_found env), w)
        | Some c => (Ok tt, store_points name pts w)
        end
  end.

Definition client_search (params : SearchParams) : M Exception (list ScoredPoint) :=
  qdrant_call (Search params)
    (emit (EvQdrantSearch params) ;;; lift (qdrant_search env params)).

(* ===================================================================== *)
(** ** FAQRetriever (app/services/retrieval.py)                           *)
(* ===================================================================== *)

Record FAQRetriever := {
  collection_name : string;
  retriever_dimension : Z
}.

Definition initialize_collection (self : FAQRetriever) : M Exception unit :=
  collections <~ client_get_collections ;;
  let collection_exists :=
    existsb (fun c => String.eqb c (collection_name self)) collections in
  if negb collection_exists
  then client_create_collection (collection_name self) (retriever_dimension self)
  else ret tt.

(** [enumerate(zip(faqs, embeddings))] turned into points. *)
Fixpoint build_points (idx : Z) (faqs : list FAQ) (embeddings : list Vector)
  : list PointStruct :=
  match faqs, embeddings with
  | faq :: faqs', embedding :: embeddings' =>
      {| point_id := idx;
         point_vector := embedding;
         point_payload :=
           {| payload_faq_id := FAQ_id faq;
              payload_question := FAQ_question faq;
              payload_answer := FAQ_answer faq;
              payload_category := FAQ_category faq;
              payload_keywords := FAQ_keywords faq |} |}
        :: build_points (idx + 1) faqs' embeddings'
  | _, _ => []
  end.

Definition index_faqs (self : FAQRetriever) (faqs : list FAQ) (embeddings : list Vector)
  : M Exception unit :=
  if negb (List.length faqs =? List.length embeddings)%nat
  then raise (Exc "Number of FAQs must match number of embeddings")
  else client_upsert (collection_name self) (build_points 0 faqs embeddings).

(** [result.payload[key]] *)
Definition payload_item (result : ScoredPoint) (key : string)
  : M Exception PayloadValue :=
  match scored_payload result with
  | None => raise TypeError_not_subscriptable
  | Some payload =>
      match payload !! key with
      | Some value => ret value
      | None => raise (KeyError key)
      end
  end.

(** The [RetrievedFAQ] constructor: its arguments are read from the
    payload in the order written, then pydantic validates them (four
    strings, a score with [ge=0.0, le=1.0]). *)
Definition make_RetrievedFAQ (result : ScoredPoint) : M Exception RetrievedFAQ :=
  faq_id_value <~ payload_item result "faq_id" ;;
  question_value <~ payload_item result "question" ;;
  answer_value <~ payload_item result "answer" ;;
  category_value <~ payload_item result "category" ;;
  match faq_id_value, question_value, answer_value, category_value with
  | PayloadStr faq_id, PayloadStr question, PayloadStr answer, PayloadStr category =>
      if Qle_bool 0 (score result) && Qle_bool (score result) 1
      then ret {| faq_id := faq_id;
                  question := question;
                  answer := answer;
                  category := category;
                  similarity_score := score result |}
      else raise (validation_error env result)
  | _, _, _, _ => raise (validation_error env result)
  end.

Fixpoint collect_retrieved (results : list ScoredPoint) : M Exception (list RetrievedFAQ) :=
  match results with
  | [] => ret []
  | result :: rest =>
      faq <~ make_RetrievedFAQ result ;;
      faqs <~ collect_retrieved rest ;;
      ret (faq :: faqs)
  end.

(** [if category_filter:] is false for [None] and for the empty string. *)
Definition truthy_filter (category_filter : option string) : option string :=
  match category_filter with
  | Some EmptyString => None
  | other => other
  end.

Definition search (self : FAQRetriever) (query_embedding : Vector) (top_k : Z)
    (score_threshold : Q) (category_filter : option string)
  : M Exception (list RetrievedFAQ) :=
  let search_params :=
    {| sp_collection_name := collection_name self;
       sp_query_vector := query_embedding;
       sp_limit := top_k;
       sp_score_threshold := score_threshold;
       sp_query_filter := truthy_filter category_filter |} in
  results <~ client_search search_params ;;
  collect_retrieved results.

(** Never raises: any failure of the client reads as zero. *)
Definition get_faq_count (self : FAQRetriever) : M Exception Z :=
  try_except
    (collection_info <~ client_get_collection (collection_name self) ;;
     ret (points_count collection_info))
    (fun _ => ret 0).

(* ===================================================================== *)
(** ** AnswerGenerator (app/services/generation.py)                       *)
(* ===================================================================== *)

Record AnswerGenerator := {
  gen_model : string;
  gen_temperature : Q;
  gen_max_tokens : Z
}.

Definition SYSTEM_PROMPT : string :=
"You are a helpful legal information assistant. Your role is to provide clear, accurate answers based on the FAQ context provided.

Guidelines:
- Base your answer primarily on the provided FAQ context
- If the context doesn't fully answer the question, acknowledge what information is available
- Always include a disclaimer that this is general legal information, not legal advice
- Be concise but thorough
- Use plain language that non-lawyers can understand
- Suggest consulting with a qualified attorney for specific situations".

Definition NO_FAQS_CONTEXT : string := "No relevant FAQs were found in the database.".

Fixpoint context_parts (idx : nat) (retrieved_faqs : list RetrievedFAQ) : list string :=
  match retrieved_faqs with
  | [] => []
  | faq :: rest =>
      (NL +:+ "FAQ " +:+ str_of_nat idx +:+ " (Category: " +:+ category faq
          +:+ ", Relevance: " +:+ format_2f (similarity_score faq) +:+ "):")
        :: ("Question: " +:+ question faq)
        :: ("Answer: " +:+ answer faq)
        :: context_parts (S idx) rest
  end.

Definition _build_context (retrieved_faqs : list RetrievedFAQ) : string :=
  match retrieved_faqs with
  | [] => NO_FAQS_CONTEXT
  | _ =>
      String.concat NL
        (("Here are the relevant FAQs from our database:" +:+ NL)
           :: context_parts 1 retrieved_faqs)
  end.

Definition _build_user_prompt (user_query context : string) : string :=
  context +:+ NL +:+ NL +:+ "User Question: " +:+ user_query +:+ NL +:+ NL
    +:+ "Please provide a helpful answer based on the FAQ context above. If the context doesn't fully address the question, acknowledge the limitations and recommend consulting with an attorney.".

Definition GENERIC_APOLOGY : string :=
  "I apologize, but I'm unable to provide an answer at this time. Please try again later or consult with a legal professional.".

Definition FALLBACK_HEADER : string := "Based on our FAQ database:".

Definition FALLBACK_DISCLAIMER : string :=
  "Note: This is general legal information from our FAQ database. For advice specific to your situation, please consult with a qualified attorney.".

Definition FALLBACK_UNAVAILABLE : string :=
  "(AI generation temporarily unavailable - showing direct FAQ match)".

Definition _get_fallback_response (retrieved_faqs : list RetrievedFAQ) : string :=
  match retrieved_faqs with
  | [] => GENERIC_APOLOGY
  | best_faq :: _ =>
      FALLBACK_HEADER +:+ NL +:+ NL +:+ answer best_faq +:+ NL +:+ NL
        +:+ FALLBACK_DISCLAIMER +:+ NL +:+ NL +:+ FALLBACK_UNAVAILABLE
  end.

(** [choices[0].message.content], then [len(answer)] for the log line:
    no choice is an IndexError, no content a TypeError. *)
Definition first_choice_content (choices : list (option string)) : M Exception string :=
  match choices with
  | [] => raise IndexError
  | None :: _ => raise TypeError_len_None
  | Some answer :: _ => ret answer
  end.

Definition generate_answer (self : AnswerGenerator) (user_query : string)
    (retrieved_faqs : list RetrievedFAQ) : M Exception string :=
  emit (EvGenerateAnswer user_query retrieved_faqs) ;;;
  try_except
    (let context := _build_context retrieved_faqs in
     let user_prompt := _build_user_prompt user_query context in
     let req := {| chat_model := gen_model self;
                   chat_system := SYSTEM_PROMPT;
                   chat_user := user_prompt;
                   chat_temperature := gen_temperature self;
                   chat_max_tokens := gen_max_tokens self |} in
     emit (EvChatCompletion req) ;;;
     choices <~ lift (chat_completions_create env req) ;;
     first_choice_content choices)
    (fun _ => ret (_get_fallback_response retrieved_faqs)).

(* ===================================================================== *)
(** ** Database (app/models/database.py)                                  *)
(* ===================================================================== *)

(** AUTOINCREMENT: one more than the largest id in use. *)
Definition next_rowid (rows : list InteractionRow) : Z :=
  1 + fold_right (fun r acc => Z.max (row_id r) acc) 0 rows.

(** One INSERT, committed or failed as a whole. *)
Definition log_interaction (user_query : string) (retrieved_faq_ids : list string)
    (ai_response : string) (response_time_ms : Z) (relevance_scores : list Q)
    (error_occurred : bool) : M Exception Z :=
  emit (EvLogInteraction error_occurred) ;;;
  fun w =>
    let attempt := db_writes w in
    let w1 := {| interactions := interactions w; qdrant := qdrant w;
                 clock_reads := clock_reads w; db_writes := S attempt;
                 trace := trace w |} in
    match db_fault env attempt with
    | Some e => (Raise e, w1)
    | None =>
        (now <~ time_time env ;;
         let lastrowid := next_rowid (interactions w) in
         let row := {| row_id := lastrowid;
                       row_timestamp := Qfloor now;
                       user_query := user_query;
                       retrieved_faq_ids := retrieved_faq_ids;
                       ai_response := ai_response;
                       response_time_ms := response_time_ms;
                       relevance_scores := relevance_scores;
                       error_occurred := error_occurred |} in
         fun w' => (Ok lastrowid, set_interactions (interactions w' ++ [row]) w')) w1
    end.

(** SQL aggregates over the table: AVG and SUM are NULL on no rows. *)
Definition sql_count (rows : list InteractionRow) : Z := Z.of_nat (List.length rows).

Definition sum_Z (xs : list Z) : Z := fold_right Z.add 0 xs.

(** AVG over an INTEGER column: the sum is taken in integers, then the
    sum and the count are converted to doubles and divided (SQLite 3.44
    and later; earlier versions add the values as doubles, which is the
    same sum as long as the partial sums stay below 2^53). *)
Definition sql_avg (xs : list Z) : option Q :=
  match xs with
  | [] => None
  | _ =>
      Some (binary64 (binary64 (inject_Z (sum_Z xs))
                      / binary64 (inject_Z (Z.of_nat (List.length xs)))))%Q
  end.

Definition sql_sum (xs : list Z) : option Z :=
  match xs with
  | [] => None
  | _ => Some (sum_Z xs)
  end.

(** [x or 0] *)
Definition or_0 (x : option Z) : Z :=
  match x with
  | None => 0
  | Some v => if (v =? 0)%Z then 0 else v
  end.

Definition or_0_Q (x : option Q) : Q :=
  match x with
  | None => 0
  | Some v => if Qeq_bool v 0 then 0 else v
  end.

Record Stats := {
  total_queries : Z;
  avg_response_time_ms : Q;
  total_errors : Z
}.

Definition get_stats (rows : list InteractionRow) : Stats :=
  let row0 := sql_count rows in
  let row1 := sql_avg (map response_time_ms rows) in
  let row2 := sql_sum (map (fun r => if error_occurred r then 1 else 0) rows) in
  {| total_queries := or_0 (Some row0);
     avg_response_time_ms := py_round2 (or_0_Q row1);
     total_errors := or_0 row2 |}.

End Backend.

(* ===================================================================== *)
(** ** Route handlers (app/api/routes.py)                                 *)
(* ===================================================================== *)

Section Routes.

Context (env : Env).

(** The service instances [set_services] installs. *)
Record Services := {
  embedding_service : EmbeddingService;
  faq_retriever : FAQRetriever;
  answer_generator : AnswerGenerator
}.

Context (services : Services).

Definition NOT_FOUND_ANSWER : string :=
  "I couldn't find any relevant information in our FAQ database for your question. "
    +:+ "This might be outside the scope of our current knowledge base. "
    +:+ "Please consider rephrasing your question or consulting with a legal professional directly.".

Definition GENERIC_FAILURE : HTTPException :=
  {| status_code := 500;
     detail := "An error occurred while processing your question. Please try again." |}.

Definition elapsed_ms (start_time now : Q) : Z := py_int ((now - start_time) * 1000).

(** The body of the [try] block of [ask_question]. *)
Definition ask_question_body (request : QueryRequest) (start_time : Q)
  : M Exception QueryResponse :=
  query_embedding <~ generate_embedding env (embedding_service services) (query request) ;;
  settings <~ lift (get_settings env) ;;
  retrieved_faqs <~ search env (faq_retriever services) query_embedding
                      (top_k_results settings) (similarity_threshold settings) None ;;
  answer_sources <~
    match retrieved_faqs with
    | [] => ret (NOT_FOUND_ANSWER, [])
    | _ =>
        answer <~ generate_answer env (answer_generator services) (query request)
                    retrieved_faqs ;;
        ret (answer, if include_sources request then retrieved_faqs else [])
    end ;;
  let answer := fst answer_sources in
  let sources := snd answer_sources in
  now <~ time_time env ;;
  let response_time_ms := elapsed_ms start_time now in
  log_interaction env (query request) (map faq_id retrieved_faqs) answer
    response_time_ms (map similarity_score retrieved_faqs) false ;;;
  timestamp <~ time_time env ;;
  ret {| resp_answer := answer;
         resp_sources := sources;
         resp_response_time_ms := response_time_ms;
         resp_timestamp := timestamp |}.

(** The [except Exception as e] clause of [ask_question]. *)
Definition ask_question_handler (request : QueryRequest) (start_time : Q) (e : Exception)
  : M HTTPException QueryResponse :=
  now <~ time_time env ;;
  let response_time_ms := elapsed_ms start_time now in
  try_except
    (log_interaction env (query request) [] ("Error: " +:+ str e)
       response_time_ms [] true ;;;
     ret tt)
    (fun log_error => ret tt) ;;;
  raise GENERIC_FAILURE.

Definition ask_question (request : QueryRequest) : M HTTPException QueryResponse :=
  start_time <~ time_time env ;;
  try_except (ask_question_body request start_time)
             (ask_question_handler request start_time).

(** [bool(settings.openai_api_key)] *)
Definition nonempty (s : string) : bool :=
  match s with
  | EmptyString => false
  | _ => true
  end.

Definition health_check : M Exception HealthResponse :=
  try_except
    (faq_count <~ get_faq_count env (faq_retriever services) ;;
     let qdrant_connected := (0 <=? faq_count)%Z in
     settings <~ lift (get_settings env) ;;
     let openai_configured := nonempty (openai_api_key settings) in
     let status := if qdrant_connected && openai_configured then "healthy" else "degraded" in
     ret {| status := status;
            qdrant_connected := qdrant_connected;
            openai_configured := openai_configured;
            faqs_loaded := faq_count |})
    (fun e =>
       ret {| status := "unhealthy";
              qdrant_connected := false;
              openai_configured := false;
              faqs_loaded := 0 |}).

End Routes.

(* ===================================================================== *)
(** ** Application start-up (app/main.py)                                 *)
(* ===================================================================== *)

Section Startup.

Context (env : Env).

(** [CREATE TABLE IF NOT EXISTS]: leaves the rows alone. *)
Definition Database_initialize : M Exception unit := ret tt.

Definition startup_event : M Exception Services :=
  settings <~ lift (get_settings env) ;;
  try_except
    (Database_initialize ;;;
     let embedding_service := {| emb_model := embedding_model settings |} in
     let faq_retriever := {| collection_name := qdrant_collection_name settings;
                             retriever_dimension := embedding_dimension settings |} in
     initialize_collection env faq_retriever ;;;
     let answer_generator := {| gen_model := llm_model settings;
                                gen_temperature := llm_temperature settings;
                                gen_max_tokens := max_tokens settings |} in
     faq_count <~ get_faq_count env faq_retriever ;;
     (if (faq_count =? 0)%Z
      then
        faqs <~ lift (legal_faqs_json env) ;;
        let questions := map FAQ_question faqs in
        embeddings <~ generate_embeddings_batch env embedding_service questions ;;
        index_faqs env faq_retriever faqs embeddings
      else ret tt) ;;;
     ret {| embedding_service := embedding_service;
            faq_retriever := faq_retriever;
            answer_generator := answer_generator |})
    (fun e => raise e).

End Startup.

(* ===================================================================== *)
(** ** Outcomes of the collaborators, and a sample deployment             *)
(* ===================================================================== *)

(** [returns m r]: the action [m] ends with [r] from every state. *)
Definition returns {E A} (m : M E A) (r : result E A) : Prop :=
  forall w, fst (m w) = r.

(** The events a run from [w] added to the trace. *)
Definition new_events (w w' : World) : list Event :=
  drop (List.length (trace w)) (trace w').

(** The rows a run from [w] added to the interactions table. *)
Definition new_rows (w w' : World) : list InteractionRow :=
  drop (List.length (interactions w)) (interactions w').

(** The INSERT attempts a run from [w] made. *)
Definition attempts (w w' : World) : list nat :=
  seq (db_writes w) (db_writes w' - db_writes w).

Definition add_events (evs : list Event) (w : World) : World :=
  {| interactions := interactions w; qdrant := qdrant w;
     clock_reads := clock_reads w; db_writes := db_writes w;
     trace := trace w ++ evs |}.

Definition embedding_outcome (env : Env) (self : EmbeddingService) (text : string)
  : result Exception Vector :=
  match embeddings_create env (emb_model self) (InputText text) with
  | Ok (embedding :: _) => Ok embedding
  | Ok [] => Raise IndexError
  | Raise e => Raise e
  end.

(** [result.payload[key]], as a value. *)
Definition payload_lookup (r : ScoredPoint) (key : string)
  : result Exception PayloadValue :=
  match scored_payload r with
  | None => Raise TypeError_not_subscriptable
  | Some payload =>
      match payload !! key with
      | Some value => Ok value
      | None => Raise (KeyError key)
      end
  end.

(** What the [RetrievedFAQ] constructor makes of one hit. *)
Definition hit_outcome (env : Env) (r : ScoredPoint) : result Exception RetrievedFAQ :=
  match payload_lookup r "faq_id" with
  | Raise e => Raise e
  | Ok faq_id_value =>
  match payload_lookup r "question" with
  | Raise e => Raise e
  | Ok question_value =>
  match payload_lookup r "answer" with
  | Raise e => Raise e
  | Ok answer_value =>
  match payload_lookup r "category" with
  | Raise e => Raise e
  | Ok category_value =>
      match faq_id_value, question_value, answer_value, category_value with
      | PayloadStr i, PayloadStr q, PayloadStr a, PayloadStr c =>
          if Qle_bool 0 (score r) && Qle_bool (score r) 1
          then Ok {| faq_id := i; question := q; answer := a; category := c;
                     similarity_score := score r |}
          else Raise (validation_error env r)
      | _, _, _, _ => Raise (validation_error env r)
      end
  end end end end.

Fixpoint retrieved_of (env : Env) (results : list ScoredPoint)
  : result Exception (list RetrievedFAQ) :=
  match results with
  | [] => Ok []
  | r :: rest =>
      match hit_outcome env r with
      | Raise e => Raise e
      | Ok faq =>
          match retrieved_of env rest with
          | Ok faqs => Ok (faq :: faqs)
          | Raise e => Raise e
          end
      end
  end.

Definition chat_request (self : AnswerGenerator) (user_query : string)
    (retrieved_faqs : list RetrievedFAQ) : ChatRequest :=
  {| chat_model := gen_model self;
     chat_system := SYSTEM_PROMPT;
     chat_user := _build_user_prompt user_query (_build_context retrieved_faqs);
     chat_temperature := gen_temperature self;
     chat_max_tokens := gen_max_tokens self |}.

(** The generative-model call of [generate_answer], with the reading of
    its first choice: what the [try] block of the composer ends with. *)
Definition generation_outcome (env : Env) (self : AnswerGenerator) (user_query : string)
    (retrieved_faqs : list RetrievedFAQ) : result Exception string :=
  match chat_completions_create env (chat_request self user_query retrieved_faqs) with
  | Ok [] => Raise IndexError
  | Ok (None :: _) => Raise TypeError_len_None
  | Ok (Some a :: _) => Ok a
  | Raise e => Raise e
  end.

(** What [generate_answer] hands back: the generated text, or the
    fallback when the [try] block raised. *)
Definition composed_answer (env : Env) (self : AnswerGenerator) (user_query : string)
    (retrieved_faqs : list RetrievedFAQ) : string :=
  match generation_outcome env self user_query retrieved_faqs with
  | Ok a => a
  | Raise _ => _get_fallback_response retrieved_faqs
  end.

Definition search_params_of (self : FAQRetriever) (query_embedding : Vector)
    (top_k : Z) (score_threshold : Q) (category_filter : option string) : SearchParams :=
  {| sp_collection_name := collection_name self;
     sp_query_vector := query_embedding;
     sp_limit := top_k;
     sp_score_threshold := score_threshold;
     sp_query_filter := truthy_filter category_filter |}.

Definition search_outcome (env : Env) (self : FAQRetriever) (query_embedding : Vector)
    (top_k : Z) (score_threshold : Q) (category_filter : option string)
  : result Exception (list RetrievedFAQ) :=
  let params :=
    search_params_of self query_embedding top_k score_threshold category_filter in
  match qdrant_fault env (Search params) with
  | Some e => Raise e
  | None =>
      match qdrant_search env params with
      | Ok results => retrieved_of env results
      | Raise e => Raise e
      end
  end.

(** The row an accepted INSERT appends. *)
Definition inserted_row (env : Env) (w : World) (user_query : string) (ids : list string)
    (ai_response : string) (rt : Z) (scores : list Q) (err : bool) : InteractionRow :=
  {| row_id := next_rowid (interactions w);
     row_timestamp := Qfloor (wall_clock env (clock_reads w));
     user_query := user_query;
     retrieved_faq_ids := ids;
     ai_response := ai_response;
     response_time_ms := rt;
     relevance_scores := scores;
     error_occurred := err |}.

Section PipelineSummary.

Context (env : Env) (services : Services) (request : QueryRequest).

(** Steps 1 and 2 of [ask_question]: embed the query, read the settings,
    search. *)
Definition retrieval_outcome : result Exception (list RetrievedFAQ) :=
  match embedding_outcome env (embedding_service services) (query request) with
  | Raise e => Raise e
  | Ok query_embedding =>
      match get_settings env with
      | Raise e => Raise e
      | Ok settings =>
          search_outcome env (faq_retriever services) query_embedding
            (top_k_results settings) (similarity_threshold settings) None
      end
  end.

Definition retrieval_events : list Event :=
  EvEmbeddingsCreate (InputText (query request))
    :: match embedding_outcome env (embedding_service services) (query request),
             get_settings env with
       | Ok query_embedding, Ok settings =>
           let params :=
             search_params_of (faq_retriever services) query_embedding
               (top_k_results settings) (similarity_threshold settings) None in
           match qdrant_fault env (Search params) with
           | None => [EvQdrantSearch params]
           | Some _ => []
           end
       | _, _ => []
       end.

Definition generation_events (retrieved_faqs : list RetrievedFAQ) : list Event :=
  match retrieved_faqs with
  | [] => []
  | _ =>
      [EvGenerateAnswer (query request) retrieved_faqs;
       EvChatCompletion (chat_request (answer_generator services) (query request)
                           retrieved_faqs)]
  end.

Definition final_answer (retrieved_faqs : list RetrievedFAQ) : string :=
  match retrieved_faqs with
  | [] => NOT_FOUND_ANSWER
  | _ => composed_answer env (answer_generator services) (query request) retrieved_faqs
  end.

Definition final_sources (retrieved_faqs : list RetrievedFAQ) : list RetrievedFAQ :=
  match retrieved_faqs with
  | [] => []
  | _ => if include_sources request then retrieved_faqs else []
  end.

(** The request was received at clock reading [c]. *)
Definition success_response (c : nat) (retrieved_faqs : list RetrievedFAQ) : QueryResponse :=
  {| resp_answer := final_answer retrieved_faqs;
     resp_sources := final_sources retrieved_faqs;
     resp_response_time_ms := elapsed_ms (wall_clock env c) (wall_clock env (1 + c));
     resp_timestamp := wall_clock env (3 + c) |}.

Definition success_row (w : World) (retrieved_faqs : list RetrievedFAQ) : InteractionRow :=
  {| row_id := next_rowid (interactions w);
     row_timestamp := Qfloor (wall_clock env (2 + clock_reads w));
     user_query := query request;
     retrieved_faq_ids := map faq_id retrieved_faqs;
     ai_response := final_answer retrieved_faqs;
     response_time_ms :=
       elapsed_ms (wall_clock env (clock_reads w)) (wall_clock env (1 + clock_reads w));
     relevance_scores := map similarity_score retrieved_faqs;
     error_occurred := false |}.

(** The row of the [except] clause, when [e] was caught after [k] further
    clock readings. *)
Definition error_row (w : World) (k : nat) (e : Exception) : InteractionRow :=
  {| row_id := next_rowid (interactions w);
     row_timestamp := Qfloor (wall_clock env (1 + k + clock_reads w));
     user_query := query request;
     retrieved_faq_ids := [];
     ai_response := "Error: " +:+ str e;
     response_time_ms :=
       elapsed_ms (wall_clock env (clock_reads w)) (wall_clock env (k + clock_reads w));
     relevance_scores := [];
     error_occurred := true |}.

(** The [except] clause ran for [e], after the events [evs], with INSERT
    attempt number [attempt]. *)
Definition error_path (w : World) (r : result HTTPException QueryResponse * World)
    (e : Exception) (evs : list Event) (attempt k : nat) : Prop :=
  fst r = Raise GENERIC_FAILURE
  /\ db_writes (snd r) = S attempt
  /\ trace (snd r) = trace w ++ evs ++ [EvLogInteraction true]
  /\ match db_fault env attempt with
     | None => interactions (snd r) = interactions w ++ [error_row w k e]
     | Some _ => interactions (snd r) = interactions w
     end.

(** Every run of [ask_question], by the outcome of the retrieval and of
    the INSERTs. *)
Definition ask_question_summary (w : World)
    (r : result HTTPException QueryResponse * World) : Prop :=
  qdrant (snd r) = qdrant w
  /\ match retrieval_outcome with
     | Raise e => error_path w r e retrieval_events (db_writes w) 1
     | Ok retrieved_faqs =>
         match db_fault env (db_writes w) with
         | Some e =>
             error_path w r e
               (retrieval_events ++ generation_events retrieved_faqs
                  ++ [EvLogInteraction false])
               (S (db_writes w)) 2
         | None =>
             fst r = Ok (success_response (clock_reads w) retrieved_faqs)
             /\ db_writes (snd r) = S (db_writes w)
             /\ trace (snd r) =
                  trace w ++ retrieval_events ++ generation_events retrieved_faqs
                    ++ [EvLogInteraction false]
             /\ interactions (snd r) = interactions w ++ [success_row w retrieved_faqs]
         end
     end.

End PipelineSummary.

(* ===================================================================== *)
(** ** Vocabulary of the claims                                          *)
(* ===================================================================== *)

(** The property C1 asks of a request, as the specification words it. *)
Definition exactly_one_log_entry (env : Env) (services : Services)
    (request : QueryRequest) (w : World) : Prop :=
  List.length (new_rows w (snd (ask_question env services request w))) = 1%nat.

(** The mainline log write of a request received in [w] is accepted. *)
Definition log_write_accepted (env : Env) (w : World) : Prop :=
  db_fault env (db_writes w) = None.

(** The outcome the specification words in C2 for a search without
    results: the not-found answer, no sources, and one log entry with
    the error flag unset and no retrieved id and no score. *)
Definition no_results_as_specified (env : Env) (services : Services)
    (request : QueryRequest) (w : World) : Prop :=
  exists resp row,
    fst (ask_question env services request w) = Ok resp
    /\ resp_answer resp = NOT_FOUND_ANSWER
    /\ resp_sources resp = []
    /\ new_rows w (snd (ask_question env services request w)) = [row]
    /\ error_occurred row = false
    /\ retrieved_faq_ids row = []
    /\ relevance_scores row = [].

(** The embedding call, or the search that follows it, raises [e]. *)
Definition retrieval_raises (env : Env) (services : Services) (request : QueryRequest)
    (e : Exception) : Prop :=
  returns (generate_embedding env (embedding_service services) (query request)) (Raise e)
  \/ exists v s,
       returns (generate_embedding env (embedding_service services) (query request)) (Ok v)
       /\ get_settings env = Ok s
       /\ returns (search env (faq_retriever services) v (top_k_results s)
                     (similarity_threshold s) None) (Raise e).

(** The error entry as the specification words it in C5: the stored
    answer is the error's string description itself. *)
Definition error_entry_as_specified (row : InteractionRow) (e : Exception) : Prop :=
  ai_response row = str e
  /\ retrieved_faq_ids row = []
  /\ relevance_scores row = []
  /\ error_occurred row = true.

(** The exception the [try] block of a request received in [w] ends
    with. *)
Definition caught (env : Env) (services : Services) (request : QueryRequest)
    (w : World) (e : Exception) : Prop :=
  fst (ask_question_body env services request (wall_clock env (clock_reads w))
         (snd (time_time (E := Exception) env w))) = Raise e.

(** The list is ordered by descending similarity score, as the search
    returns it. *)
Definition descending (faqs : list RetrievedFAQ) : Prop :=
  StronglySorted (fun a b => (similarity_score b <= similarity_score a)%Q) faqs.

(** The probe of the health check, [client.get_collection] on the FAQ
    collection, gets through to the store. *)
Definition store_reachable (env : Env) (services : Services) : bool :=
  match qdrant_fault env (GetCollection (collection_name (faq_retriever services))) with
  | None => true
  | Some _ => false
  end.

Definition generator_configured (env : Env) : bool :=
  match get_settings env with
  | Ok s => nonempty (openai_api_key s)
  | Raise _ => false
  end.

(** Something inside the [try] block of [health_check] raises. *)
Definition health_check_throws (env : Env) : Prop :=
  exists e, get_settings env = Raise e.

(** The status rule as the specification words it in C6. *)
Definition degraded_as_specified (env : Env) (services : Services)
    (h : HealthResponse) : Prop :=
  status h = "degraded"
  <-> xorb (store_reachable env services) (generator_configured env) = true.

(** The arithmetic mean of [response_time_ms] over the rows. *)
Definition mean_response_time (rows : list InteractionRow) : Q :=
  (inject_Z (sum_Z (map response_time_ms rows)) / inject_Z (Z.of_nat (List.length rows)))%Q.

Definition is_indexing_call (ev : Event) : bool :=
  match ev with
  | EvEmbeddingsCreate _ | EvQdrantUpsert _ _ | EvQdrantCreateCollection _ => true
  | _ => false
  end.

(** The service instances [startup_event] builds from the settings. *)
Definition services_of (s : Settings) : Services :=
  {| embedding_service := {| emb_model := embedding_model s |};
     faq_retriever := {| collection_name := qdrant_collection_name s;
                         retriever_dimension := embedding_dimension s |};
     answer_generator := {| gen_model := llm_model s;
                            gen_temperature := llm_temperature s;
                            gen_max_tokens := max_tokens s |} |}.

(* ===================================================================== *)
(** ** Vocabulary of the further properties                               *)
(* ===================================================================== *)

Definition is_embedding_call (ev : Event) : bool :=
  match ev with EvEmbeddingsCreate _ => true | _ => false end.

Definition is_search_call (ev : Event) : bool :=
  match ev with EvQdrantSearch _ => true | _ => false end.

Definition is_chat_call (ev : Event) : bool :=
  match ev with EvChatCompletion _ => true | _ => false end.

Definition is_store_write (ev : Event) : bool :=
  match ev with EvQdrantUpsert _ _ | EvQdrantCreateCollection _ => true | _ => false end.

Definition is_log_call (ev : Event) : bool :=
  match ev with EvLogInteraction _ => true | _ => false end.

Definition is_upsert_call (ev : Event) : bool :=
  match ev with EvQdrantUpsert _ _ => true | _ => false end.

(** The string the payload of a hit holds under [key], if it holds one. *)
Definition string_field (r : ScoredPoint) (key : string) : option string :=
  match scored_payload r with
  | Some payload =>
      match payload !! key with
      | Some (PayloadStr s) => Some s
      | _ => None
      end
  | None => None
  end.

(** The item [faq] carries the four fields and the score of the hit [r]. *)
Definition hit_yields (r : ScoredPoint) (faq : RetrievedFAQ) : Prop :=
  string_field r "faq_id" = Some (faq_id faq)
  /\ string_field r "question" = Some (question faq)
  /\ string_field r "answer" = Some (answer faq)
  /\ string_field r "category" = Some (category faq)
  /\ similarity_score faq = score r.

(** A hit that can be made a [RetrievedFAQ]: its payload holds a string
    under each of the four keys and its score lies in [0, 1]. *)
Definition valid_hit (r : ScoredPoint) : Prop :=
  (forall key, In key ["faq_id"; "question"; "answer"; "category"] ->
     string_field r key <> None)
  /\ (0 <= score r <= 1)%Q.

(** The exceptions that reading a hit can raise. *)
Definition hit_error (env : Env) (results : list ScoredPoint) (e : Exception) : Prop :=
  e = TypeError_not_subscriptable
  \/ (exists key, In key ["faq_id"; "question"; "answer"; "category"] /\ e = KeyError key)
  \/ (exists r, In r results /\ e = validation_error env r).

(** [sub] occurs in [s]. *)
Definition contains (s sub : string) : Prop :=
  exists pre post, s = pre +:+ sub +:+ post.

(** How many of the events satisfy [p]. *)
Definition count_events (p : Event -> bool) (evs : list Event) : nat :=
  List.length (List.filter p evs).

(** The row ids grow strictly along the table. *)
Definition ids_increasing (rows : list InteractionRow) : Prop :=
  StronglySorted (fun a b => row_id a < row_id b) rows.

(** The point [index_faqs] builds for the FAQ at position [idx]. *)
Definition point_of (idx : Z) (faq : FAQ) (embedding : Vector) : PointStruct :=
  {| point_id := idx;
     point_vector := embedding;
     point_payload :=
       {| payload_faq_id := FAQ_id faq;
          payload_question := FAQ_question faq;
          payload_answer := FAQ_answer faq;
          payload_category := FAQ_category faq;
          payload_keywords := FAQ_keywords faq |} |}.

(** The collection [initialize_collection] creates. *)
Definition fresh_collection (self : FAQRetriever) : Collection :=
  {| vector_size := retriever_dimension self; points := ∅ |}.

(** The text the composer falls back to for a non-empty list. *)
Definition fallback_text (best_faq : RetrievedFAQ) : string :=
  FALLBACK_HEADER +:+ NL +:+ NL +:+ answer best_faq +:+ NL +:+ NL
    +:+ FALLBACK_DISCLAIMER +:+ NL +:+ NL +:+ FALLBACK_UNAVAILABLE.

Module Sample.

Definition settings : Settings :=
  {| openai_api_key := "sk-test";
     embedding_model := "text-embedding-3-small";
     embedding_dimension := 3;
     llm_model := "gpt-4-turbo-preview";
     llm_temperature := 7 # 10;
     max_tokens := 500;
     qdrant_collection_name := "legal_faqs";
     top_k_results := 2;
     similarity_threshold := 6 # 10 |}.

Definition car_accident : Payload :=
  {| payload_faq_id := "faq_001";
     payload_question := "What should I do after a car accident?";
     payload_answer := "Call the police and exchange insurance details.";
     payload_category := "Personal Injury";
     payload_keywords := ["accident"; "car"] |}.

Definition faqs : list FAQ :=
  [ {| FAQ_id := "faq_001";
       FAQ_question := "What should I do after a car accident?";
       FAQ_answer := "Call the police and exchange insurance details.";
       FAQ_category := "Personal Injury";
       FAQ_keywords := ["accident"; "car"] |};
    {| FAQ_id := "faq_002";
       FAQ_question := "How long do I have to file a claim?";
       FAQ_answer := "Usually two years.";
       FAQ_category := "Personal Injury";
       FAQ_keywords := ["deadline"] |} ].

Definition vec (a b c : Z) : Vector := [inject_Z a; inject_Z b; inject_Z c].

(** A deployment whose collaborators all answer: the store finds the
    car-accident FAQ at similarity 0.85 when [hit] is set and nothing
    otherwise; [llm] is what the generative model does; [db] is the fault
    schedule of the log store. *)
Definition env (hit : bool) (llm : result Exception (list (option string)))
    (db : nat -> option Exception) : Env :=
  {| get_settings := Ok settings;
     embeddings_create := fun _ input =>
       match input with
       | InputText _ => Ok [vec 1 0 0]
       | InputTexts texts => Ok (map (fun _ => vec 0 1 0) texts)
       end;
     chat_completions_create := fun _ => llm;
     qdrant_fault := fun _ => None;
     upsert_kept := fun _ _ _ => false;
     qdrant_not_found := Exc "Not found: Collection `legal_faqs` doesn't exist!";
     qdrant_search := fun _ =>
       if hit then Ok [ {| scored_payload := Some (payload_dict car_accident); score := 85 # 100 |} ]
       else Ok [];
     validation_error := fun _ => Exc "1 validation error for RetrievedFAQ";
     db_fault := db;
     wall_clock := fun n => inject_Z (1700000000 + Z.of_nat n);
     legal_faqs_json := Ok faqs |}.

(** The same deployment with the embedding provider failing. *)
Definition env_embedding_down (db : nat -> option Exception) : Env :=
  {| get_settings := Ok settings;
     embeddings_create := fun _ _ => Raise (Exc "Connection error.");
     chat_completions_create := fun _ => Ok [Some "generated"];
     qdrant_fault := fun _ => None;
     upsert_kept := fun _ _ _ => false;
     qdrant_not_found := Exc "Not found: Collection `legal_faqs` doesn't exist!";
     qdrant_search := fun _ => Ok [];
     validation_error := fun _ => Exc "1 validation error for RetrievedFAQ";
     db_fault := db;
     wall_clock := fun n => inject_Z (1700000000 + Z.of_nat n);
     legal_faqs_json := Ok faqs |}.

(** The deployment with API key [key] and the vector store reachable or
    not. *)
Definition env_health (key : string) (down : option Exception) : Env :=
  {| get_settings :=
       Ok {| openai_api_key := key;
             embedding_model := embedding_model settings;
             embedding_dimension := embedding_dimension settings;
             llm_model := llm_model settings;
             llm_temperature := llm_temperature settings;
             max_tokens := max_tokens settings;
             qdrant_collection_name := qdrant_collection_name settings;
             top_k_results := top_k_results settings;
             similarity_threshold := similarity_threshold settings |};
     embeddings_create := fun _ _ => Ok [vec 1 0 0];
     chat_completions_create := fun _ => Ok [Some "generated"];
     qdrant_fault := fun _ => down;
     upsert_kept := fun _ _ _ => false;
     qdrant_not_found := Exc "Not found: Collection `legal_faqs` doesn't exist!";
     qdrant_search := fun _ => Ok [];
     validation_error := fun _ => Exc "1 validation error for RetrievedFAQ";
     db_fault := fun _ => None;
     wall_clock := fun n => inject_Z (1700000000 + Z.of_nat n);
     legal_faqs_json := Ok faqs |}.

Definition connection_refused : Exception := Exc "[Errno 111] Connection refused".

(** The deployment whose store fails every upsert, keeping the points of
    the batch whose id is one of 0, ..., [kept - 1]. *)
Definition env_upsert_fails (kept : Z) : Env :=
  {| get_settings := Ok settings;
     embeddings_create := fun _ input =>
       match input with
       | InputText _ => Ok [vec 1 0 0]
       | InputTexts texts => Ok (map (fun _ => vec 0 1 0) texts)
       end;
     chat_completions_create := fun _ => Ok [Some "generated"];
     qdrant_fault := fun request =>
       match request with
       | Upsert _ _ => Some (Exc "Wrong input: Vector dimension error")
       | _ => None
       end;
     upsert_kept := fun _ _ p => (0 <=? point_id p)%Z && (point_id p <? kept)%Z;
     qdrant_not_found := Exc "Not found: Collection `legal_faqs` doesn't exist!";
     qdrant_search := fun _ => Ok [];
     validation_error := fun _ => Exc "1 validation error for RetrievedFAQ";
     db_fault := fun _ => None;
     wall_clock := fun n => inject_Z (1700000000 + Z.of_nat n);
     legal_faqs_json := Ok faqs |}.


Definition services : Services :=
  {| embedding_service := {| emb_model := "text-embedding-3-small" |};
     faq_retriever := {| collection_name := "legal_faqs"; retriever_dimension := 3 |};
     answer_generator := {| gen_model := "gpt-4-turbo-preview";
                            gen_temperature := 7 # 10;
                            gen_max_tokens := 500 |} |}.

Definition request (sources : bool) : QueryRequest :=
  {| query := "What should I do after a car accident?"; include_sources := sources |}.

Definition db_ok : nat -> option Exception := fun _ => None.
Definition db_down : nat -> option Exception := fun _ => Some (Exc "unable to open database file").

Definition empty_world : World :=
  {| interactions := []; qdrant := ∅; clock_reads := 0; db_writes := 0; trace := [] |}.

(** A state whose collection already holds the two sample FAQs. *)
Definition indexed_world : World :=
  {| interactions := [];
     qdrant :=
       {[ "legal_faqs" :=
            {| vector_size := 3;
               points := upsert_points (build_points 0 faqs [vec 0 1 0; vec 0 1 0]) ∅ |} ]};
     clock_reads := 0; db_writes := 0; trace := [] |}.

Definition row (n : Z) (ms : Z) (err : bool) : InteractionRow :=
  {| row_id := n; row_timestamp := 1700000000 + n;
     user_query := "What should I do after a car accident?";
     retrieved_faq_ids := []; ai_response := "text"; response_time_ms := ms;
     relevance_scores := []; error_occurred := err |}.

(** Three logged requests, one of them failed. *)
Definition rows : list InteractionRow := [row 1 100 false; row 2 101 true; row 3 103 false].

(** A state whose log holds the three rows, after three accepted
    writes. *)
Definition logged_world : World :=
  {| interactions := rows; qdrant := ∅; clock_reads := 9; db_writes := 3; trace := [] |}.

(** The item the sample store finds. *)
Definition car_accident_hit : RetrievedFAQ :=
  {| faq_id := "faq_001";
     question := "What should I do after a car accident?";
     answer := "Call the police and exchange insurance details.";
     category := "Personal Injury";
     similarity_score := 85 # 100 |}.

(** A log store that rejects the first write only. *)
Definition db_first_write_fails : nat -> option Exception :=
  fun n => match n with O => Some (Exc "database is locked") | S _ => None end.

(** A state whose collection exists and is empty. *)
Definition created_world : World :=
  {| interactions := [];
     qdrant := {[ "legal_faqs" := {| vector_size := 3; points := ∅ |} ]};
     clock_reads := 0; db_writes := 0; trace := [] |}.

(** The deployment whose embedding provider answers every batch request
    with [batch]. *)
Definition env_batch (batch : result Exception (list Vector)) : Env :=
  {| get_settings := Ok settings;
     embeddings_create := fun _ input =>
       match input with
       | InputText _ => Ok [vec 1 0 0]
       | InputTexts _ => batch
       end;
     chat_completions_create := fun _ => Ok [Some "generated"];
     qdrant_fault := fun _ => None;
     upsert_kept := fun _ _ _ => false;
     qdrant_not_found := Exc "Not found: Collection `legal_faqs` doesn't exist!";
     qdrant_search := fun _ => Ok [];
     validation_error := fun _ => Exc "1 validation error for RetrievedFAQ";
     db_fault := fun _ => None;
     wall_clock := fun n => inject_Z (1700000000 + Z.of_nat n);
     legal_faqs_json := Ok faqs |}.

(** The deployment whose embedding provider answers a query with
    [data] and whose store answers a search with [hits]. *)
Definition env_answers (data : list Vector) (hits : list ScoredPoint) : Env :=
  {| get_settings := Ok settings;
     embeddings_create := fun _ _ => Ok data;
     chat_completions_create := fun _ => Ok [Some "generated"];
     qdrant_fault := fun _ => None;
     upsert_kept := fun _ _ _ => false;
     qdrant_not_found := Exc "Not found: Collection `legal_faqs` doesn't exist!";
     qdrant_search := fun _ => Ok hits;
     validation_error := fun _ => Exc "1 validation error for RetrievedFAQ";
     db_fault := fun _ => None;
     wall_clock := fun n => inject_Z (1700000000 + Z.of_nat n);
     legal_faqs_json := Ok faqs |}.

End Sample.

(* ===================================================================== *)
(** ** Run equations of the services                                      *)
(* ===================================================================== *)

Ltac unfold_monad :=
  unfold bind, try_except, ret, raise, lift, emit, time_time in *.

Section RunEquations.

Context (env : Env).

Lemma generate_embedding_run (self : EmbeddingService) (text : string) (w : World) :
  generate_embedding env self text w =
  (embedding_outcome env self text, add_events [EvEmbeddingsCreate (InputText text)] w).
Proof.
  unfold generate_embedding, embedding_outcome, add_events. unfold_monad.
  destruct (embeddings_create env (emb_model self) (InputText text)) as [[|v vs]|e];
    reflexivity.
Qed.

Lemma payload_item_run (r : ScoredPoint) (key : string) (w : World) :
  payload_item r key w = (payload_lookup r key, w).
Proof.
  unfold payload_item, payload_lookup. unfold_monad.
  destruct (scored_payload r) as [payload|]; [|reflexivity].
  destruct (payload !! key); reflexivity.
Qed.

Lemma make_RetrievedFAQ_run (r : ScoredPoint) (w : World) :
  make_RetrievedFAQ env r w = (hit_outcome env r, w).
Proof.
  unfold make_RetrievedFAQ, hit_outcome, bind.
  rewrite !payload_item_run.
  destruct (payload_lookup r "faq_id") as [[i| |]|]; [| | |reflexivity];
    (destruct (payload_lookup r "question") as [[q| |]|]; [| | |reflexivity]);
    (destruct (payload_lookup r "answer") as [[a| |]|]; [| | |reflexivity]);
    (destruct (payload_lookup r "category") as [[c| |]|]; [| | |reflexivity]);
    try reflexivity.
  unfold ret, raise.
  destruct (Qle_bool 0 (score r) && Qle_bool (score r) 1); reflexivity.
Qed.

Lemma collect_retrieved_run (results : list ScoredPoint) (w : World) :
  collect_retrieved env results w = (retrieved_of env results, w).
Proof.
  induction results as [|r rest IH]; cbn [collect_retrieved retrieved_of];
    [reflexivity|].
  unfold bind at 1. rewrite make_RetrievedFAQ_run. unfold_monad.
  destruct (hit_outcome env r); [|reflexivity].
  rewrite IH. destruct (retrieved_of env rest); reflexivity.
Qed.

Lemma search_run (self : FAQRetriever) (v : Vector) (k : Z) (t : Q)
    (cf : option string) (w : World) :
  search env self v k t cf w =
  (search_outcome env self v k t cf,
   match qdrant_fault env (Search (search_params_of self v k t cf)) with
   | Some _ => w
   | None => add_events [EvQdrantSearch (search_params_of self v k t cf)] w
   end).
Proof.
  unfold search, search_outcome, client_search, qdrant_call, search_params_of.
  cbv zeta.
  destruct (qdrant_fault env _) as [e|]; [reflexivity|].
  unfold_monad.
  destruct (qdrant_search env _) as [rs|e]; [|reflexivity].
  rewrite collect_retrieved_run. reflexivity.
Qed.

Lemma generate_answer_run (self : AnswerGenerator) (q : string)
    (faqs : list RetrievedFAQ) (w : World) :
  generate_answer env self q faqs w =
  (Ok (composed_answer env self q faqs),
   add_events [EvChatCompletion (chat_request self q faqs)]
     (add_events [EvGenerateAnswer q faqs] w)).
Proof.
  unfold generate_answer, composed_answer, generation_outcome, chat_request,
    first_choice_content, add_events.
  unfold_monad. simpl.
  destruct (chat_completions_create env _) as [[|[a|] cs]|e]; reflexivity.
Qed.

Lemma log_interaction_run (q : string) (ids : list string) (a : string) (rt : Z)
    (scores : list Q) (err : bool) (w : World) :
  log_interaction env q ids a rt scores err w =
  match db_fault env (db_writes w) with
  | Some e =>
      (Raise e,
       {| interactions := interactions w; qdrant := qdrant w;
          clock_reads := clock_reads w; db_writes := S (db_writes w);
          trace := trace w ++ [EvLogInteraction err] |})
  | None =>
      (Ok (next_rowid (interactions w)),
       {| interactions := interactions w ++ [inserted_row env w q ids a rt scores err];
          qdrant := qdrant w;
          clock_reads := S (clock_reads w); db_writes := S (db_writes w);
          trace := trace w ++ [EvLogInteraction err] |})
  end.
Proof.
  unfold log_interaction, inserted_row, set_interactions. unfold_monad. simpl.
  destruct (db_fault env (db_writes w)); reflexivity.
Qed.

Lemma embedding_returns (self : EmbeddingService) (text : string)
    (r : result Exception Vector) :
  returns (generate_embedding env self text) r -> embedding_outcome env self text = r.
Proof.
  intros H. specialize (H Sample.empty_world).
  rewrite generate_embedding_run in H. exact H.
Qed.

Lemma search_returns (self : FAQRetriever) (v : Vector) (k : Z) (t : Q)
    (cf : option string) (r : result Exception (list RetrievedFAQ)) :
  returns (search env self v k t cf) r -> search_outcome env self v k t cf = r.
Proof.
  intros H. specialize (H Sample.empty_world).
  rewrite search_run in H. exact H.
Qed.

End RunEquations.

(* ===================================================================== *)
(** ** Every run of the request handler                                   *)
(* ===================================================================== *)

Section AskQuestion.

Context (env : Env) (services : Services) (request : QueryRequest).

Ltac run_services :=
  repeat first
    [ rewrite generate_embedding_run
    | rewrite search_run
    | rewrite generate_answer_run
    | rewrite log_interaction_run ];
  cbn [fst snd add_events interactions qdrant clock_reads db_writes trace].

Lemma ask_question_runs (w : World) :
  ask_question_summary env services request w (ask_question env services request w).
Proof.
  unfold ask_question_summary, error_path, retrieval_outcome, retrieval_events,
    ask_question, ask_question_body, ask_question_handler.
  unfold_monad. cbn beta. run_services.
  destruct (embedding_outcome env (embedding_service services) (query request))
    as [v|e] eqn:Hemb.
  2:{ run_services. destruct (db_fault env (db_writes w)); cbn;
      rewrite <- ?app_assoc; auto. }
  destruct (get_settings env) as [s|e] eqn:Hset.
  2:{ run_services. destruct (db_fault env (db_writes w)); cbn;
      rewrite <- ?app_assoc; auto. }
  run_services.
  destruct (search_outcome env (faq_retriever services) v (top_k_results s)
              (similarity_threshold s) None) as [faqs|e] eqn:Hsearch.
  2:{ destruct (qdrant_fault env _); run_services;
      destruct (db_fault env (db_writes w)); cbn; rewrite <- ?app_assoc; auto. }
  destruct faqs as [|faq faqs].
  - unfold_monad. cbn beta iota. cbn [fst snd].
    destruct (qdrant_fault env _); run_services;
      (destruct (db_fault env (db_writes w)) as [e1|];
       [ run_services; destruct (db_fault env (S (db_writes w)))
       | ]); cbn; rewrite <- ?app_assoc; auto.
  - run_services.
    destruct (qdrant_fault env _); run_services;
      (destruct (db_fault env (db_writes w)) as [e1|];
       [ run_services; destruct (db_fault env (S (db_writes w)))
       | ]); cbn; rewrite <- ?app_assoc; auto.
Qed.

End AskQuestion.

(* ===================================================================== *)
(** ** Claims about POST /api/ask                                         *)
(* ===================================================================== *)

Lemma new_rows_app (w w' : World) (rows : list InteractionRow) :
  interactions w' = interactions w ++ rows -> new_rows w w' = rows.
Proof. intros H. unfold new_rows. rewrite H. apply drop_app_length. Qed.

Lemma new_events_app (w w' : World) (evs : list Event) :
  trace w' = trace w ++ evs -> new_events w w' = evs.
Proof. intros H. unfold new_events. rewrite H. apply drop_app_length. Qed.

Lemma attempts_one (w w' : World) :
  db_writes w' = S (db_writes w) -> attempts w w' = [db_writes w].
Proof.
  intros H. unfold attempts. rewrite H.
  replace (S (db_writes w) - db_writes w)%nat with 1%nat by lia. reflexivity.
Qed.

Lemma attempts_two (w w' : World) :
  db_writes w' = S (S (db_writes w)) -> attempts w w' = [db_writes w; S (db_writes w)].
Proof.
  intros H. unfold attempts. rewrite H.
  replace (S (S (db_writes w)) - db_writes w)%nat with 2%nat by lia. reflexivity.
Qed.

Lemma retrieval_outcome_of_returns (env : Env) (services : Services)
    (request : QueryRequest) (v : Vector) (s : Settings)
    (r : result Exception (list RetrievedFAQ)) :
  returns (generate_embedding env (embedding_service services) (query request)) (Ok v) ->
  get_settings env = Ok s ->
  returns (search env (faq_retriever services) v (top_k_results s)
             (similarity_threshold s) None) r ->
  retrieval_outcome env services request = r.
Proof.
  intros Hemb Hset Hsearch. unfold retrieval_outcome.
  rewrite (embedding_returns _ _ _ _ Hemb), Hset.
  apply search_returns, Hsearch.
Qed.

(** C1, counterexample: the embedding provider and the log store are both
    down; the request fails with the generic error and no log entry at all
    is written. *)
Lemma C1_no_entry_when_log_store_down :
  ~ exactly_one_log_entry (Sample.env_embedding_down Sample.db_down) Sample.services
      (Sample.request true) Sample.empty_world.
Proof. unfold exactly_one_log_entry. vm_compute. discriminate. Qed.

(** C1, amended: every request appends at most one entry to the
    interaction log, after one or two attempted writes; it appends exactly
    one if and only if one of the attempted writes is accepted by the log
    store (so always when the first one is), and none when every attempted
    write fails. *)
Theorem ask_question_log_entries (env : Env) (services : Services)
    (request : QueryRequest) (w : World) :
  let w' := snd (ask_question env services request w) in
  interactions w' = interactions w ++ new_rows w w'
  /\ (List.length (new_rows w w') <= 1)%nat
  /\ (1 <= List.length (attempts w w') <= 2)%nat
  /\ (List.length (new_rows w w') = 1%nat
      <-> exists k, In k (attempts w w') /\ db_fault env k = None)
  /\ (db_fault env (db_writes w) = None -> List.length (new_rows w w') = 1%nat).
Proof.
  intros w'. subst w'.
  pose proof (ask_question_runs env services request w) as [_ H].
  destruct (ask_question env services request w) as [r w']. cbn [fst snd] in *.
  unfold error_path in H. cbn [fst snd] in H.
  assert (Hcases :
    exists rows att,
      interactions w' = interactions w ++ rows /\ attempts w w' = att
      /\ ((rows = [] /\ Forall (fun k => db_fault env k <> None) att)
          \/ ((exists row, rows = [row])
              /\ exists k, In k att /\ db_fault env k = None))
      /\ (1 <= List.length att <= 2)%nat
      /\ (db_fault env (db_writes w) = None -> exists row, rows = [row])).
  { destruct (retrieval_outcome env services request) as [faqs|e].
    - destruct (db_fault env (db_writes w)) as [e1|] eqn:F0.
      + destruct H as (_ & Hw & _ & Hrows).
        destruct (db_fault env (S (db_writes w))) as [e2|] eqn:F1.
        * exists [], [db_writes w; S (db_writes w)].
          rewrite app_nil_r. repeat split; try (simpl; lia); try discriminate.
          -- assumption.
          -- apply attempts_two, Hw.
          -- left. split; [reflexivity|].
             repeat constructor; congruence.
        * eexists [_], [db_writes w; S (db_writes w)].
          repeat split; try (simpl; lia); try discriminate.
          -- eassumption.
          -- apply attempts_two, Hw.
          -- right. split; [eauto|]. exists (S (db_writes w)). simpl. auto.
      + destruct H as (_ & Hw & _ & Hrows).
        eexists [_], [db_writes w].
        repeat split; try (simpl; lia); eauto.
        * apply attempts_one, Hw.
        * right. split; [eauto|]. exists (db_writes w). simpl. auto.
    - destruct H as (_ & Hw & _ & Hrows).
      destruct (db_fault env (db_writes w)) as [e1|] eqn:F0.
      + exists [], [db_writes w]. rewrite app_nil_r.
        repeat split; try (simpl; lia); try discriminate.
        * assumption.
        * apply attempts_one, Hw.
        * left. split; [reflexivity|]. repeat constructor; congruence.
      + eexists [_], [db_writes w].
        repeat split; try (simpl; lia); eauto.
        * apply attempts_one, Hw.
        * right. split; [eauto|]. exists (db_writes w). simpl. auto. }
  destruct Hcases as (rows & att & Hrows & Hatt & Hshape & Hlen & Hfirst).
  rewrite (new_rows_app _ _ _ Hrows), Hatt.
  repeat split.
  - assumption.
  - destruct Hshape as [[-> _]|[[row ->] _]]; simpl; lia.
  - lia.
  - lia.
  - intros Hone. destruct Hshape as [[-> _]|[_ Hex]]; [discriminate|exact Hex].
  - intros (k & Hin & Hk). destruct Hshape as [[_ Hall]|[[row ->] _]]; [|reflexivity].
    rewrite Forall_forall in Hall. exfalso. apply (Hall k); [|assumption].
    apply list_elem_of_In. exact Hin.
  - intros F. destruct (Hfirst F) as [row ->]. reflexivity.
Qed.

Lemma answered_request (env : Env) (services : Services) (request : QueryRequest)
    (w : World) (faqs : list RetrievedFAQ) :
  retrieval_outcome env services request = Ok faqs ->
  (forall resp w',
      ask_question env services request w = (Ok resp, w') ->
      resp = success_response env services request (clock_reads w) faqs
      /\ interactions w' = interactions w ++ [success_row env services request w faqs])
  /\ (log_write_accepted env w ->
      exists resp w', ask_question env services request w = (Ok resp, w')).
Proof.
  intros Hret.
  pose proof (ask_question_runs env services request w) as [_ H].
  rewrite Hret in H. unfold log_write_accepted, error_path in *.
  destruct (ask_question env services request w) as [r w1]. cbn [fst snd] in H.
  destruct (db_fault env (db_writes w)) as [e|].
  - destruct H as (Hr & _). subst r. split; [|discriminate].
    intros resp w' Heq. discriminate.
  - destruct H as (Hr & _ & _ & Hrows). subst r. split.
    + intros resp w' Heq. inversion Heq; subst. auto.
    + intros _. eauto.
Qed.

(** C2, counterexample: the embedding succeeds and the search returns the
    empty list, but the log store rejects the write of the entry.  The
    request then fails with the generic HTTP 500 instead of answering,
    and the one entry written is the error entry, with the error flag
    set. *)
Lemma C2_error_entry_when_log_write_rejected :
  let env := Sample.env false (Ok [Some "unused"]) Sample.db_first_write_fails in
  let r := ask_question env Sample.services (Sample.request true) Sample.empty_world in
  returns (generate_embedding env (embedding_service Sample.services)
             (query (Sample.request true))) (Ok (Sample.vec 1 0 0))
  /\ returns (search env (faq_retriever Sample.services) (Sample.vec 1 0 0)
                (top_k_results Sample.settings) (similarity_threshold Sample.settings)
                None) (Ok [])
  /\ fst r = Raise GENERIC_FAILURE
  /\ (exists row, new_rows Sample.empty_world (snd r) = [row]
                  /\ error_occurred row = true
                  /\ ai_response row = "Error: database is locked")
  /\ ~ no_results_as_specified env Sample.services (Sample.request true)
        Sample.empty_world.
Proof.
  cbv zeta. split; [intros w; reflexivity|]. split; [intros w; reflexivity|].
  split; [vm_compute; reflexivity|]. split.
  - eexists. split; [vm_compute; reflexivity|]. split; reflexivity.
  - intros (resp & row & Hresp & _). vm_compute in Hresp. discriminate.
Qed.

(** C2, amended: for a query whose embedding succeeds and whose search
    returns the empty list, POST /api/ask answers if and only if the log
    store accepts the write of the entry.  When it does, the response
    carries the fixed not-found answer and no sources, and the request
    has appended exactly one log entry, whose error flag is unset, whose
    retrieved-id list and score list are empty and whose stored answer is
    the not-found answer.  When it does not, the request fails with the
    generic HTTP 500 and the only entry it can append is the error entry,
    with the error flag set. *)
Theorem no_results_response (env : Env) (services : Services) (request : QueryRequest)
    (w : World) (v : Vector) (s : Settings) :
  returns (generate_embedding env (embedding_service services) (query request)) (Ok v) ->
  get_settings env = Ok s ->
  returns (search env (faq_retriever services) v (top_k_results s)
             (similarity_threshold s) None) (Ok []) ->
  (log_write_accepted env w ->
   no_results_as_specified env services request w
   /\ exists resp w' row,
        ask_question env services request w = (Ok resp, w')
        /\ resp_answer resp = NOT_FOUND_ANSWER
        /\ resp_sources resp = []
        /\ new_rows w w' = [row]
        /\ interactions w' = interactions w ++ [row]
        /\ error_occurred row = false
        /\ retrieved_faq_ids row = []
        /\ relevance_scores row = []
        /\ ai_response row = NOT_FOUND_ANSWER
        /\ user_query row = query request)
  /\ (forall resp w',
        ask_question env services request w = (Ok resp, w') -> log_write_accepted env w)
  /\ (forall e,
        db_fault env (db_writes w) = Some e ->
        let r := ask_question env services request w in
        fst r = Raise GENERIC_FAILURE
        /\ ~ no_results_as_specified env services request w
        /\ match db_fault env (S (db_writes w)) with
           | None =>
               exists row,
                 new_rows w (snd r) = [row]
                 /\ error_occurred row = true
                 /\ ai_response row = "Error: " +:+ str e
                 /\ retrieved_faq_ids row = []
                 /\ relevance_scores row = []
           | Some _ => new_rows w (snd r) = []
           end).
Proof.
  intros Hemb Hset Hsearch.
  pose proof (retrieval_outcome_of_returns _ _ _ _ _ _ Hemb Hset Hsearch) as Hret.
  destruct (answered_request env services request w [] Hret) as [Hany Hsome].
  split; [|split].
  - intros Hlog. destruct (Hsome Hlog) as (resp & w' & Heq).
    destruct (Hany resp w' Heq) as [-> Hrows].
    assert (Hnew : new_rows w w' = [success_row env services request w []])
      by (apply new_rows_app, Hrows).
    split.
    + exists (success_response env services request (clock_reads w) []),
             (success_row env services request w []).
      rewrite Heq. cbn [fst snd]. repeat split. exact Hnew.
    + exists (success_response env services request (clock_reads w) []), w',
             (success_row env services request w []).
      repeat split; assumption.
  - intros resp w' Heq. unfold log_write_accepted.
    pose proof (ask_question_runs env services request w) as [_ H].
    rewrite Hret, Heq in H. cbn [fst snd] in H.
    destruct (db_fault env (db_writes w)); [|reflexivity].
    unfold error_path in H. destruct H as (Hr & _). discriminate.
  - intros e Hfault r. subst r.
    pose proof (ask_question_runs env services request w) as [_ H].
    rewrite Hret, Hfault in H. unfold error_path in H.
    destruct (ask_question env services request w) as [r w'] eqn:Hrun.
    cbn [fst snd] in *.
    destruct H as (Hr & Hw & Htr & Hrows).
    split; [exact Hr|]. split.
    + intros (resp & row & Hresp & _). rewrite Hrun in Hresp. cbn [fst] in Hresp.
      congruence.
    + destruct (db_fault env (S (db_writes w))).
      * apply new_rows_app. rewrite app_nil_r. exact Hrows.
      * eexists. split; [apply new_rows_app, Hrows|]. repeat split.
Qed.

(** C2, witness: the sample deployment with a store that finds nothing. *)
Lemma no_results_response_witness :
  exists resp w',
    ask_question (Sample.env false (Ok [Some "unused"]) Sample.db_ok) Sample.services
      (Sample.request true) Sample.empty_world = (Ok resp, w')
    /\ resp_answer resp = NOT_FOUND_ANSWER.
Proof.
  destruct (no_results_response (Sample.env false (Ok [Some "unused"]) Sample.db_ok)
              Sample.services (Sample.request true) Sample.empty_world
              (Sample.vec 1 0 0) Sample.settings) as [Hsome _].
  - intros w. reflexivity.
  - reflexivity.
  - intros w. reflexivity.
  - destruct (Hsome eq_refl) as (_ & resp & w' & row & Heq & Hanswer & _).
    exists resp, w'. split; [exact Heq|exact Hanswer].
Defined.

(** C3. For a query whose retrieval returns at least one item, every
    response of POST /api/ask has its sources equal to the retrieved list
    when [include_sources] is set and empty when it is not, so that the
    sources are the retrieved list exactly when the flag is set; and the
    request is answered whenever the log store accepts the write. *)
Theorem sources_follow_flag (env : Env) (services : Services) (request : QueryRequest)
    (w : World) (v : Vector) (s : Settings) (faqs : list RetrievedFAQ) :
  returns (generate_embedding env (embedding_service services) (query request)) (Ok v) ->
  get_settings env = Ok s ->
  returns (search env (faq_retriever services) v (top_k_results s)
             (similarity_threshold s) None) (Ok faqs) ->
  faqs <> [] ->
  (forall resp w',
      ask_question env services request w = (Ok resp, w') ->
      resp_sources resp = (if include_sources request then faqs else [])
      /\ (resp_sources resp = faqs <-> include_sources request = true))
  /\ (log_write_accepted env w ->
      exists resp w', ask_question env services request w = (Ok resp, w')).
Proof.
  intros Hemb Hset Hsearch Hne.
  pose proof (retrieval_outcome_of_returns _ _ _ _ _ _ Hemb Hset Hsearch) as Hret.
  destruct (answered_request env services request w faqs Hret) as [Hany Hsome].
  split; [|exact Hsome].
  intros resp w' Heq. destruct (Hany resp w' Heq) as [-> _].
  cbn [success_response resp_sources]. unfold final_sources.
  destruct faqs as [|faq rest]; [congruence|].
  destruct (include_sources request); split; try reflexivity; split;
    try reflexivity; try discriminate.
Qed.

(** C3, witness: the sample deployment finds the car-accident FAQ and the
    request asks for no sources. *)
Lemma sources_follow_flag_witness :
  exists resp w',
    ask_question (Sample.env true (Ok [Some "generated"]) Sample.db_ok) Sample.services
      (Sample.request false) Sample.empty_world = (Ok resp, w')
    /\ resp_sources resp = [].
Proof.
  destruct (sources_follow_flag (Sample.env true (Ok [Some "generated"]) Sample.db_ok)
              Sample.services (Sample.request false) Sample.empty_world
              (Sample.vec 1 0 0) Sample.settings
              [ {| faq_id := "faq_001";
                   question := "What should I do after a car accident?";
                   answer := "Call the police and exchange insurance details.";
                   category := "Personal Injury";
                   similarity_score := 85 # 100 |} ]) as [Hany Hsome].
  - intros w. reflexivity.
  - reflexivity.
  - intros w. reflexivity.
  - discriminate.
  - destruct (Hsome eq_refl) as (resp & w' & Heq).
    exists resp, w'. split; [exact Heq|]. apply (Hany resp w' Heq).
Defined.

Lemma retrieval_raises_outcome (env : Env) (services : Services)
    (request : QueryRequest) (e : Exception) :
  retrieval_raises env services request e ->
  retrieval_outcome env services request = Raise e.
Proof.
  intros [Hemb|(v & s & Hemb & Hset & Hsearch)].
  - unfold retrieval_outcome. rewrite (embedding_returns _ _ _ _ Hemb). reflexivity.
  - eapply retrieval_outcome_of_returns; eassumption.
Qed.

(** C5, counterexample: the embedding provider raises "Connection error."
    and the log store works; the entry written stores
    "Error: Connection error.", not the description alone. *)
Lemma C5_stored_answer_has_prefix :
  retrieval_raises (Sample.env_embedding_down Sample.db_ok) Sample.services
    (Sample.request true) (Exc "Connection error.")
  /\ exists row,
       new_rows Sample.empty_world
         (snd (ask_question (Sample.env_embedding_down Sample.db_ok) Sample.services
                 (Sample.request true) Sample.empty_world)) = [row]
       /\ ~ error_entry_as_specified row (Exc "Connection error.").
Proof.
  split.
  - left. intros w. reflexivity.
  - eexists. split; [vm_compute; reflexivity|].
    intros [H _]. vm_compute in H. discriminate.
Qed.

(** C5, amended: when the embedding or the search call raises [e], the
    caller gets the generic HTTP 500 failure, which does not depend on
    [e]; if the log store accepts the write, exactly one entry is appended,
    whose stored answer is "Error: " followed by the string description of
    [e], with no retrieved ids, no scores and the error flag set; if the
    log store rejects the write, that failure is swallowed: nothing is
    appended and the caller still gets the same generic failure. *)
Theorem retrieval_failure_logged (env : Env) (services : Services)
    (request : QueryRequest) (w : World) (e : Exception) :
  retrieval_raises env services request e ->
  let r := ask_question env services request w in
  fst r = Raise GENERIC_FAILURE
  /\ attempts w (snd r) = [db_writes w]
  /\ match db_fault env (db_writes w) with
     | None =>
         exists row,
           new_rows w (snd r) = [row]
           /\ interactions (snd r) = interactions w ++ [row]
           /\ ai_response row = "Error: " +:+ str e
           /\ retrieved_faq_ids row = []
           /\ relevance_scores row = []
           /\ error_occurred row = true
           /\ user_query row = query request
     | Some _ =>
         new_rows w (snd r) = [] /\ interactions (snd r) = interactions w
     end.
Proof.
  intros Hraises r. subst r.
  apply retrieval_raises_outcome in Hraises.
  pose proof (ask_question_runs env services request w) as [_ H].
  rewrite Hraises in H. unfold error_path in H.
  destruct (ask_question env services request w) as [r w']. cbn [fst snd] in *.
  destruct H as (Hr & Hw & _ & Hrows).
  split; [exact Hr|]. split; [apply attempts_one, Hw|].
  destruct (db_fault env (db_writes w)).
  - split; [|exact Hrows]. apply new_rows_app. rewrite app_nil_r. exact Hrows.
  - exists (error_row env request w 1 e).
    repeat split; try assumption. apply new_rows_app, Hrows.
Qed.

(** C5, witness: the embedding provider of the sample deployment is down
    and the log store works. *)
Lemma retrieval_failure_logged_witness :
  fst (ask_question (Sample.env_embedding_down Sample.db_ok) Sample.services
         (Sample.request true) Sample.empty_world) = Raise GENERIC_FAILURE.
Proof.
  apply (retrieval_failure_logged (Sample.env_embedding_down Sample.db_ok)
           Sample.services (Sample.request true) Sample.empty_world
           (Exc "Connection error.")).
  left. intros w. reflexivity.
Defined.

Lemma ask_question_body_outcome (env : Env) (services : Services)
    (request : QueryRequest) (start_time : Q) (w : World) :
  fst (ask_question_body env services request start_time w) =
  match retrieval_outcome env services request with
  | Raise e => Raise e
  | Ok faqs =>
      match db_fault env (db_writes w) with
      | Some e => Raise e
      | None =>
          Ok {| resp_answer := final_answer env services request faqs;
                resp_sources := final_sources request faqs;
                resp_response_time_ms :=
                  elapsed_ms start_time (wall_clock env (clock_reads w));
                resp_timestamp := wall_clock env (2 + clock_reads w) |}
      end
  end.
Proof.
  unfold retrieval_outcome, ask_question_body. unfold_monad. cbn beta.
  rewrite generate_embedding_run.
  destruct (embedding_outcome env (embedding_service services) (query request))
    as [v|e]; [|reflexivity].
  destruct (get_settings env) as [s|e]; [|reflexivity].
  rewrite search_run.
  destruct (search_outcome env (faq_retriever services) v (top_k_results s)
              (similarity_threshold s) None) as [faqs|e]; [|reflexivity].
  destruct faqs as [|faq faqs].
  - unfold_monad. cbn beta iota. cbn [fst snd]. rewrite log_interaction_run.
    destruct (qdrant_fault env _); cbn [db_writes add_events];
      destruct (db_fault env (db_writes w)); reflexivity.
  - rewrite generate_answer_run. cbn [fst snd]. rewrite log_interaction_run.
    destruct (qdrant_fault env _); cbn [db_writes add_events];
      destruct (db_fault env (db_writes w)); reflexivity.
Qed.

Lemma error_path_rows (env : Env) (request : QueryRequest) (w w' : World)
    (e : Exception) (attempt k : nat) :
  match db_fault env attempt with
  | None => interactions w' = interactions w ++ [error_row env request w k e]
  | Some _ => interactions w' = interactions w
  end ->
  Forall (fun row => ai_response row = "Error: " +:+ str e
                     /\ error_occurred row = true
                     /\ retrieved_faq_ids row = []
                     /\ relevance_scores row = [])
    (new_rows w w')
  /\ (List.length (new_rows w w') <= 1)%nat
  /\ (db_fault env attempt = None -> List.length (new_rows w w') = 1%nat).
Proof.
  destruct (db_fault env attempt) as [e'|]; intros Hrows.
  - rewrite <- (app_nil_r (interactions w)) in Hrows.
    rewrite (new_rows_app _ _ _ Hrows).
    repeat split; [constructor|simpl; lia|discriminate].
  - rewrite (new_rows_app _ _ _ Hrows).
    repeat split; [|simpl; lia]. repeat constructor.
Qed.

(** C10. A request that fails does so with the generic HTTP 500 failure,
    after its [try] block raised some exception [e]; whatever entry the
    error path appended to the interaction log has the error flag set and
    stores in [ai_response] the text "Error: " followed by the string
    description of [e], the raw upstream error that the HTTP response
    does not carry; and an entry is appended whenever the log store
    accepts the last write attempted. *)
Theorem failed_request_logs_raw_error (env : Env) (services : Services)
    (request : QueryRequest) (w : World) (failure : HTTPException) :
  fst (ask_question env services request w) = Raise failure ->
  let w' := snd (ask_question env services request w) in
  failure = GENERIC_FAILURE
  /\ exists e,
       caught env services request w e
       /\ Forall (fun row => ai_response row = "Error: " +:+ str e
                             /\ error_occurred row = true
                             /\ retrieved_faq_ids row = []
                             /\ relevance_scores row = [])
            (new_rows w w')
       /\ (List.length (new_rows w w') <= 1)%nat
       /\ (db_fault env (Nat.pred (db_writes w')) = None ->
           List.length (new_rows w w') = 1%nat).
Proof.
  intros Hfail w'. subst w'.
  pose proof (ask_question_runs env services request w) as [_ H].
  unfold caught. rewrite ask_question_body_outcome. cbn [snd time_time db_writes].
  unfold error_path in H.
  destruct (ask_question env services request w) as [r w']. cbn [fst snd] in *.
  destruct (retrieval_outcome env services request) as [faqs|e].
  - destruct (db_fault env (db_writes w)) as [e|].
    + destruct H as (Hr & Hw & _ & Hrows). split; [congruence|].
      exists e. split; [reflexivity|]. rewrite Hw. cbn [Nat.pred].
      eapply error_path_rows. exact Hrows.
    + destruct H as (Hr & _). congruence.
  - destruct H as (Hr & Hw & _ & Hrows). split; [congruence|].
    exists e. split; [reflexivity|]. rewrite Hw. cbn [Nat.pred].
    eapply error_path_rows. exact Hrows.
Qed.

(** C10, witness: the embedding provider of the sample deployment is
    down; the entry written stores "Error: Connection error.". *)
Lemma failed_request_logs_raw_error_witness :
  exists e,
    caught (Sample.env_embedding_down Sample.db_ok) Sample.services
      (Sample.request true) Sample.empty_world e
    /\ List.length
         (new_rows Sample.empty_world
            (snd (ask_question (Sample.env_embedding_down Sample.db_ok)
                    Sample.services (Sample.request true) Sample.empty_world)))
       = 1%nat.
Proof.
  destruct (failed_request_logs_raw_error (Sample.env_embedding_down Sample.db_ok)
              Sample.services (Sample.request true) Sample.empty_world GENERIC_FAILURE
              eq_refl) as (_ & e & Hcaught & _ & _ & Hone).
  exists e. split; [exact Hcaught|]. apply Hone. reflexivity.
Defined.

(* ===================================================================== *)
(** ** Claims about the Answer Composer                                   *)
(* ===================================================================== *)

Lemma build_context_nonempty (faq : RetrievedFAQ) (rest : list RetrievedFAQ) :
  _build_context (faq :: rest) <> NO_FAQS_CONTEXT.
Proof.
  unfold _build_context, NO_FAQS_CONTEXT.
  cbn [String.concat context_parts String.append]. discriminate.
Qed.

Lemma fallback_nonempty (faq : RetrievedFAQ) (rest : list RetrievedFAQ) :
  _get_fallback_response (faq :: rest) <> GENERIC_APOLOGY.
Proof.
  unfold _get_fallback_response, GENERIC_APOLOGY, FALLBACK_HEADER.
  cbn [String.append]. discriminate.
Qed.

(** C9. Every invocation of the composer's [generate_answer] that a
    request to POST /api/ask makes is for that request's query and a
    non-empty retrieved list, for which the composer neither builds the
    "No relevant FAQs were found in the database." context nor falls back
    to the generic apology. *)
Theorem generate_answer_only_with_items (env : Env) (services : Services)
    (request : QueryRequest) (w : World) (q : string) (faqs : list RetrievedFAQ) :
  In (EvGenerateAnswer q faqs)
     (new_events w (snd (ask_question env services request w))) ->
  faqs <> []
  /\ q = query request
  /\ retrieval_outcome env services request = Ok faqs
  /\ _build_context faqs <> NO_FAQS_CONTEXT
  /\ _get_fallback_response faqs <> GENERIC_APOLOGY.
Proof.
  pose proof (ask_question_runs env services request w) as [_ H].
  destruct (ask_question env services request w) as [r w']. cbn [fst snd] in *.
  unfold error_path in H. cbn [fst snd] in H.
  assert (Hev : exists others,
             new_events w w' = retrieval_events env services request ++ others
             /\ forall ev, In ev others ->
                  match ev with
                  | EvGenerateAnswer q0 faqs0 =>
                      q0 = query request
                      /\ retrieval_outcome env services request = Ok faqs0
                      /\ faqs0 <> []
                  | _ => True
                  end).
  { destruct (retrieval_outcome env services request) as [faqs0|e].
    - assert (Hgen : forall ev tail,
                 (forall ev', In ev' tail ->
                    match ev' with EvGenerateAnswer _ _ => False | _ => True end) ->
                 In ev (generation_events services request faqs0 ++ tail) ->
                 match ev with
                 | EvGenerateAnswer q0 faqs1 =>
                     q0 = query request /\ Ok faqs0 = Ok (E := Exception) faqs1
                     /\ faqs1 <> []
                 | _ => True
                 end).
      { intros ev tail Htail Hin. apply in_app_or in Hin. destruct Hin as [Hin|Hin].
        - destruct faqs0 as [|faq rest]; [destruct Hin|].
          destruct Hin as [<-|[<-|[]]]; [|exact I].
          repeat split. discriminate.
        - specialize (Htail ev Hin). destruct ev; try exact I. destruct Htail. }
      destruct (db_fault env (db_writes w)).
      + destruct H as (_ & _ & Htr & _). eexists. split.
        * apply new_events_app. rewrite Htr. rewrite <- !app_assoc. reflexivity.
        * intros ev Hin. apply (Hgen ev _) in Hin; [exact Hin|].
          intros ev' [<-|[<-|[]]]; exact I.
      + destruct H as (_ & _ & Htr & _). eexists. split.
        * apply new_events_app. rewrite Htr. reflexivity.
        * intros ev Hin. apply (Hgen ev _) in Hin; [exact Hin|].
          intros ev' [<-|[]]; exact I.
    - destruct H as (_ & _ & Htr & _). eexists. split.
      + apply new_events_app. rewrite Htr. reflexivity.
      + intros ev [<-|[]]. exact I. }
  destruct Hev as (others & -> & Hothers).
  intros Hin. apply in_app_or in Hin. destruct Hin as [Hin|Hin].
  - exfalso. unfold retrieval_events in Hin. destruct Hin as [Hin|Hin]; [discriminate|].
    destruct (embedding_outcome env _ _); [|destruct Hin].
    destruct (get_settings env); [|destruct Hin].
    cbv zeta in Hin. destruct (qdrant_fault env _); [destruct Hin|].
    destruct Hin as [Hin|[]]. discriminate.
  - specialize (Hothers _ Hin). cbn in Hothers.
    destruct Hothers as (-> & Hret & Hne).
    destruct faqs as [|faq rest]; [congruence|].
    repeat split; try assumption.
    + apply build_context_nonempty.
    + apply fallback_nonempty.
Qed.

(** C9, witness: the sample deployment finds one FAQ and invokes the
    composer with it. *)
Lemma generate_answer_only_with_items_witness :
  [ {| faq_id := "faq_001";
       question := "What should I do after a car accident?";
       answer := "Call the police and exchange insurance details.";
       category := "Personal Injury";
       similarity_score := 85 # 100 |} ] <> [].
Proof.
  apply (generate_answer_only_with_items
           (Sample.env true (Ok [Some "generated"]) Sample.db_ok) Sample.services
           (Sample.request true) Sample.empty_world
           "What should I do after a car accident?").
  vm_compute. right. right. left. reflexivity.
Defined.

(** C4. When the generative-model call raises, [generate_answer] does not
    raise: from every state it returns, for a non-empty retrieved list, the
    answer text of the first item between the "Based on our FAQ database:"
    header and the disclaimer and the note that AI generation is
    unavailable, and for the empty list the fixed apology.  The first item
    is a highest-scoring one when the list is in descending order. *)
Theorem generate_answer_fallback (env : Env) (self : AnswerGenerator)
    (user_query : string) (retrieved_faqs : list RetrievedFAQ) (e : Exception) :
  chat_completions_create env (chat_request self user_query retrieved_faqs) = Raise e ->
  returns (generate_answer env self user_query retrieved_faqs)
    (Ok match retrieved_faqs with
        | [] => GENERIC_APOLOGY
        | best_faq :: _ =>
            FALLBACK_HEADER +:+ NL +:+ NL +:+ answer best_faq +:+ NL +:+ NL
              +:+ FALLBACK_DISCLAIMER +:+ NL +:+ NL +:+ FALLBACK_UNAVAILABLE
        end)
  /\ match retrieved_faqs with
     | [] => True
     | best_faq :: _ =>
         descending retrieved_faqs ->
         Forall (fun faq => (similarity_score faq <= similarity_score best_faq)%Q)
           retrieved_faqs
     end.
Proof.
  intros Hcall. split.
  - intros w. rewrite generate_answer_run. cbn [fst].
    unfold composed_answer, generation_outcome. rewrite Hcall.
    destruct retrieved_faqs; reflexivity.
  - destruct retrieved_faqs as [|best rest]; [exact I|].
    intros Hsorted. inversion Hsorted as [|? ? _ Hall]; subst.
    constructor; [apply Qle_refl|exact Hall].
Qed.

(** C4, witness: the generative model of the sample deployment is down
    while one FAQ with answer text "Call the police and exchange insurance
    details." was retrieved. *)
Lemma generate_answer_fallback_witness :
  returns
    (generate_answer (Sample.env true (Raise (Exc "Request timed out.")) Sample.db_ok)
       (answer_generator Sample.services) "What should I do after a car accident?"
       [ {| faq_id := "faq_001";
            question := "What should I do after a car accident?";
            answer := "Call the police and exchange insurance details.";
            category := "Personal Injury";
            similarity_score := 85 # 100 |} ])
    (Ok (FALLBACK_HEADER +:+ NL +:+ NL
           +:+ "Call the police and exchange insurance details." +:+ NL +:+ NL
           +:+ FALLBACK_DISCLAIMER +:+ NL +:+ NL +:+ FALLBACK_UNAVAILABLE)).
Proof.
  apply (generate_answer_fallback
           (Sample.env true (Raise (Exc "Request timed out.")) Sample.db_ok)
           (answer_generator Sample.services) "What should I do after a car accident?"
           [ {| faq_id := "faq_001";
                question := "What should I do after a car accident?";
                answer := "Call the police and exchange insurance details.";
                category := "Personal Injury";
                similarity_score := 85 # 100 |} ]
           (Exc "Request timed out.")).
  reflexivity.
Defined.

(* ===================================================================== *)
(** ** Claims about GET /api/health                                       *)
(* ===================================================================== *)

Lemma get_faq_count_run (env : Env) (self : FAQRetriever) (w : World) :
  get_faq_count env self w =
  (Ok match qdrant_fault env (GetCollection (collection_name self)),
            qdrant w !! collection_name self with
      | None, Some c => points_count c
      | _, _ => 0
      end, w).
Proof.
  unfold get_faq_count, client_get_collection, qdrant_call. unfold_monad.
  destruct (qdrant_fault env _); [reflexivity|].
  destruct (qdrant w !! collection_name self); reflexivity.
Qed.

Lemma points_count_nonneg (c : Collection) : (0 <=? points_count c)%Z = true.
Proof. apply Z.leb_le. unfold points_count. lia. Qed.

Lemma health_check_run (env : Env) (services : Services) (w : World) :
  health_check env services w =
  (Ok match get_settings env with
      | Ok s =>
          {| status := if nonempty (openai_api_key s) then "healthy" else "degraded";
             qdrant_connected := true;
             openai_configured := nonempty (openai_api_key s);
             faqs_loaded :=
               match qdrant_fault env
                       (GetCollection (collection_name (faq_retriever services))),
                     qdrant w !! collection_name (faq_retriever services) with
               | None, Some c => points_count c
               | _, _ => 0
               end |}
      | Raise _ =>
          {| status := "unhealthy"; qdrant_connected := false;
             openai_configured := false; faqs_loaded := 0 |}
      end, w).
Proof.
  unfold health_check. unfold bind at 1. unfold try_except.
  unfold bind at 1. rewrite get_faq_count_run. unfold_monad.
  destruct (get_settings env) as [s|e]; [|reflexivity].
  destruct (qdrant_fault env _); [reflexivity|].
  destruct (qdrant w !! collection_name (faq_retriever services)) as [c|]; [|reflexivity].
  rewrite points_count_nonneg. reflexivity.
Qed.

(** C6, counterexample: the vector store is unreachable and the API key
    is empty, so neither dependency is available; the status is
    "degraded" all the same. *)
Lemma C6_degraded_with_both_unavailable :
  exists h,
    fst (health_check (Sample.env_health EmptyString (Some Sample.connection_refused))
           Sample.services Sample.empty_world) = Ok h
    /\ status h = "degraded"
    /\ ~ degraded_as_specified
           (Sample.env_health EmptyString (Some Sample.connection_refused))
           Sample.services h.
Proof.
  eexists. split; [reflexivity|]. split; [reflexivity|].
  unfold degraded_as_specified. intros [H _]. specialize (H eq_refl). discriminate.
Qed.

(** An unreachable vector store is reported as connected: with the API
    key configured the status is then "healthy". *)
Lemma health_check_unreachable_store :
  fst (health_check (Sample.env_health "sk-test" (Some Sample.connection_refused))
         Sample.services Sample.empty_world)
  = Ok {| status := "healthy"; qdrant_connected := true;
          openai_configured := true; faqs_loaded := 0 |}.
Proof. reflexivity. Qed.

(** C6, amended: GET /api/health always answers; the status is
    "unhealthy" exactly when the health check itself throws; otherwise it
    is "degraded" whenever the generator is not configured, whether the
    vector store is reachable or not, and, when the vector store is
    reachable, it is "degraded" exactly when the generator is not
    configured and "healthy" when it is. *)
Theorem health_status (env : Env) (services : Services) (w : World) :
  exists h,
    health_check env services w = (Ok h, w)
    /\ (status h = "unhealthy" <-> health_check_throws env)
    /\ (~ health_check_throws env ->
        (generator_configured env = false -> status h = "degraded")
        /\ (store_reachable env services = true ->
            (status h = "degraded" <-> generator_configured env = false)
            /\ (generator_configured env = true -> status h = "healthy"))).
Proof.
  rewrite health_check_run. eexists. split; [reflexivity|].
  unfold health_check_throws, generator_configured, store_reachable.
  destruct (get_settings env) as [s|e].
  - cbn [status]. split.
    + split.
      * destruct (nonempty (openai_api_key s)); discriminate.
      * intros [e He]. discriminate.
    + intros _. destruct (nonempty (openai_api_key s)).
      * split; [discriminate|]. intros _. split; [|reflexivity].
        split; discriminate.
      * split; [reflexivity|]. intros _. split; [|discriminate].
        split; reflexivity.
  - cbn [status]. split.
    + split; [eauto|reflexivity].
    + intros Hno. exfalso. apply Hno. eauto.
Qed.

(* ===================================================================== *)
(** ** Claims about the statistics of the log                             *)
(* ===================================================================== *)

Lemma round_half_even_comp (x y : Q) : (x == y)%Q -> round_half_even x = round_half_even y.
Proof.
  intros H. unfold round_half_even.
  rewrite (Qfloor_comp _ _ H).
  assert (Hc : (x - inject_Z (Qfloor y) ?= 1 # 2)%Q = (y - inject_Z (Qfloor y) ?= 1 # 2)%Q).
  { apply Qcompare_comp; [rewrite H|]; reflexivity. }
  rewrite Hc. reflexivity.
Qed.


Lemma round_half_even_integer (z : Z) : round_half_even (inject_Z z) = z.
Proof.
  unfold round_half_even. rewrite Qfloor_Z.
  assert (H : (inject_Z z - inject_Z z ?= 1 # 2)%Q = Lt).
  { rewrite <- Qlt_alt. lra. }
  rewrite H. reflexivity.
Qed.

Lemma two_power_pos (e : Z) : (0 < 2 ^ e)%Q.
Proof. apply Qpower_0_lt. reflexivity. Qed.

Lemma Qabs_fraction (x : Q) : (Qabs x == inject_Z (Z.abs (Qnum x)) / inject_Z (Zpos (Qden x)))%Q.
Proof.
  destruct x as [n d]. unfold Qabs. cbn [Qnum Qden].
  rewrite (Qmake_Qdiv (Z.abs n) d). reflexivity.
Qed.

(** The scaled magnitude of a float has 53 bits. *)
Lemma binary64_normal (x : Q) :
  ~ (x == 0)%Q -> (2 ^ 52 <= Qabs x / 2 ^ binary64_exponent x)%Q.
Proof.
  intros Hnz. unfold binary64_exponent.
  set (a := Z.log2 (Z.abs (Qnum x))). set (b := Z.log2 (Zpos (Qden x))).
  destruct (Qle_bool (2 ^ 52) (Qabs x / 2 ^ (a - b - 52))) eqn:Htest.
  - apply Qle_bool_iff. exact Htest.
  - assert (Hn : 0 < Z.abs (Qnum x)).
    { destruct x as [n d]. unfold Qeq in Hnz. cbn in *. lia. }
    assert (Ha : 2 ^ a <= Z.abs (Qnum x)) by (apply Z.log2_spec; exact Hn).
    assert (Hb : Zpos (Qden x) < 2 ^ (b + 1)).
    { replace (b + 1) with (Z.succ b) by lia. apply Z.log2_spec. lia. }
    assert (Ha0 : 0 <= a) by apply Z.log2_nonneg.
    assert (Hb0 : 0 <= b) by apply Z.log2_nonneg.
    apply Qle_shift_div_l; [apply two_power_pos|].
    rewrite <- Qpower_plus by discriminate.
    replace (52 + (a - b - 52 - 1)) with (a - (b + 1)) by lia.
    rewrite Qpower_minus by discriminate.
    rewrite Qabs_fraction.
    change 2%Q with (inject_Z 2).
    rewrite <- !Zpower_Qpower by lia.
    assert (HB : (0 < inject_Z (2 ^ (b + 1)))%Q).
    { change 0%Q with (inject_Z 0). rewrite <- Zlt_Qlt. apply Z.pow_pos_nonneg; lia. }
    assert (HD : (0 < inject_Z (Zpos (Qden x)))%Q).
    { change 0%Q with (inject_Z 0). rewrite <- Zlt_Qlt. lia. }
    apply Qle_shift_div_l; [exact HD|].
    assert (Hre : (inject_Z (2 ^ a) / inject_Z (2 ^ (b + 1)) * inject_Z (Zpos (Qden x))
                   == inject_Z (2 ^ a) * inject_Z (Zpos (Qden x)) / inject_Z (2 ^ (b + 1)))%Q).
    { field. lra. }
    rewrite Hre. apply Qle_shift_div_r; [exact HB|].
    rewrite <- !inject_Z_mult. rewrite <- Zle_Qle.
    assert (0 < 2 ^ a) by (apply Z.pow_pos_nonneg; lia).
    nia.
Qed.


(** Integers up to 2^53 are floats. *)
Lemma binary64_integer (k : Z) :
  Z.abs k <= 2 ^ 53 -> (binary64 (inject_Z k) == inject_Z k)%Q.
Proof.
  intros Hk. unfold binary64. destruct (Qeq_bool (inject_Z k) 0) eqn:Hz.
  - apply Qeq_bool_eq in Hz. symmetry. exact Hz.
  - apply Qeq_bool_neq in Hz.
    pose proof (binary64_normal _ Hz) as Hn.
    set (e := binary64_exponent (inject_Z k)) in *.
    pose proof (two_power_pos e) as He.
    assert (Habs : (Qabs (inject_Z k) == inject_Z (Z.abs k))%Q) by reflexivity.
    rewrite Habs in Hn.
    assert (Hk' : (inject_Z (Z.abs k) <= 2 ^ 53)%Q).
    { change (2 ^ 53)%Q with (inject_Z (2 ^ 53)). rewrite <- Zle_Qle. exact Hk. }
    assert (He1 : e <= 1).
    { apply (Qpower_le_compat_l_inv 2); [|reflexivity].
      apply (Qmult_le_l _ _ (2 ^ 52)); [reflexivity|].
      change (2 ^ 52 * 2 ^ 1)%Q with (2 ^ 53)%Q.
      apply Qle_trans with (inject_Z (Z.abs k)); [|exact Hk'].
      apply (Qmult_le_r _ _ (/ 2 ^ e)); [apply Qinv_lt_0_compat, He|].
      assert (Hsimp : (2 ^ 52 * 2 ^ e * / 2 ^ e == 2 ^ 52)%Q) by (field; lra).
      rewrite Hsimp. exact Hn. }
    assert (Hint : exists z, (inject_Z k / 2 ^ e == inject_Z z)%Q).
    { destruct (Z.eq_dec e 1) as [->|Hne].
      - assert (Hlow : (2 ^ 53 <= inject_Z (Z.abs k))%Q).
        { change (2 ^ 53)%Q with (2 ^ 52 * 2 ^ 1)%Q.
          apply (Qmult_le_r _ _ (/ 2 ^ 1)); [reflexivity|].
          assert (Hsimp : (2 ^ 52 * 2 ^ 1 * / 2 ^ 1 == 2 ^ 52)%Q) by reflexivity.
          rewrite Hsimp. exact Hn. }
        change (2 ^ 53)%Q with (inject_Z (2 ^ 53)) in Hlow. rewrite <- Zle_Qle in Hlow.
        assert (Hval : Z.abs k = 2 ^ 53) by lia.
        exists (k / 2). change (2 ^ 1)%Q with (inject_Z 2).
        assert (Heven : k = 2 * (k / 2)).
        { destruct (Z.abs_eq_or_opp k) as [Hp|Hp]; rewrite Hp in Hval.
          - rewrite Hval. reflexivity.
          - assert (k = - 2 ^ 53) by lia. subst k. reflexivity. }
        rewrite Heven at 1. rewrite inject_Z_mult. field.
      - exists (k * 2 ^ (- e)).
        assert (Hpow : (2 ^ e == / inject_Z (2 ^ (- e)))%Q).
        { rewrite Zpower_Qpower by lia. change (inject_Z 2) with 2%Q.
          rewrite Qpower_opp. field. lra. }
        rewrite inject_Z_mult, Hpow. field.
        change 0%Q with (inject_Z 0). rewrite inject_Z_injective.
        assert (0 < 2 ^ (- e)) by (apply Z.pow_pos_nonneg; lia). lia. }
    destruct Hint as [z Hz'].
    rewrite (round_half_even_comp _ _ Hz'), round_half_even_integer, <- Hz'.
    field. lra.
Qed.






Lemma sum_flags (rows : list InteractionRow) :
  sum_Z (map (fun r => if error_occurred r then 1 else 0) rows)
  = Z.of_nat (List.length (List.filter error_occurred rows)).
Proof.
  induction rows as [|r rows IH]; [reflexivity|].
  cbn [map sum_Z fold_right List.filter]. fold (sum_Z (map (fun r => if error_occurred r then 1 else 0) rows)).
  rewrite IH. destruct (error_occurred r); cbn [List.length]; lia.
Qed.

Example get_stats_sample :
  total_queries (get_stats Sample.rows) = 3
  /\ total_errors (get_stats Sample.rows) = 1
  /\ avg_response_time_ms (get_stats Sample.rows) = binary64 (10133 # 100)
  /\ (avg_response_time_ms (get_stats Sample.rows)
      == 7130464847522693 # 70368744177664)%Q
  /\ (avg_response_time_ms (get_stats []) == 0)%Q
  /\ total_queries (get_stats []) = 0
  /\ total_errors (get_stats []) = 0.
Proof.
  split; [vm_compute; reflexivity|]. split; [vm_compute; reflexivity|].
  split; [vm_compute; reflexivity|]. split; [vm_compute; reflexivity|].
  split; [vm_compute; reflexivity|]. split; vm_compute; reflexivity.
Qed.

(** Forty requests, one of which took a millisecond: the mean is 0.025,
    the double nearest to it lies above it, and the average reported is
    0.03. *)
Example get_stats_tie :
  let rows := Sample.row 1 1 false :: repeat (Sample.row 2 0 false) 39 in
  (mean_response_time rows == 1 # 40)%Q
  /\ (or_0_Q (sql_avg (map response_time_ms rows))
      == 3602879701896397 # 144115188075855872)%Q
  /\ avg_response_time_ms (get_stats rows) = binary64 (3 # 100)
  /\ (binary64 (3 # 100) == 1080863910568919 # 36028797018963968)%Q.
Proof.
  cbv zeta. split; [vm_compute; reflexivity|]. split; [vm_compute; reflexivity|].
  split; vm_compute; reflexivity.
Qed.



(* ===================================================================== *)
(** ** Claims about start-up indexing                                     *)
(* ===================================================================== *)

Lemma collection_listed (w : World) (name : string) (c : Collection) :
  qdrant w !! name = Some c ->
  existsb (fun n => String.eqb n name) (elements (dom (qdrant w))) = true.
Proof.
  intros H. apply existsb_exists. exists name. split.
  - apply list_elem_of_In, elem_of_elements, elem_of_dom. eauto.
  - apply String.eqb_refl.
Qed.

Lemma initialize_collection_existing (env : Env) (self : FAQRetriever) (w : World)
    (c : Collection) :
  qdrant w !! collection_name self = Some c ->
  initialize_collection env self w =
  (match qdrant_fault env GetCollections with Some e => Raise e | None => Ok tt end, w).
Proof.
  intros H. unfold initialize_collection, client_get_collections, qdrant_call.
  unfold bind. destruct (qdrant_fault env GetCollections); [reflexivity|].
  rewrite (collection_listed _ _ _ H). reflexivity.
Qed.

Lemma startup_event_indexed (env : Env) (w : World) (s : Settings) (c : Collection) :
  get_settings env = Ok s ->
  qdrant w !! qdrant_collection_name s = Some c ->
  (0 < points_count c)%Z ->
  qdrant_fault env (GetCollection (qdrant_collection_name s)) = None ->
  startup_event env w =
  (match qdrant_fault env GetCollections with
   | Some e => Raise e
   | None => Ok (services_of s)
   end, w).
Proof.
  intros Hset Hcol Hpos Hcount.
  unfold startup_event. rewrite Hset. unfold lift, Database_initialize.
  unfold bind at 1. unfold try_except. unfold bind at 1. unfold ret at 1.
  unfold bind at 1.
  rewrite (initialize_collection_existing env _ w c) by exact Hcol.
  destruct (qdrant_fault env GetCollections) as [e|] eqn:Hdown; [reflexivity|].
  unfold bind at 1. rewrite get_faq_count_run.
  cbn [collection_name]. rewrite Hcount, Hcol.
  destruct (Z.eqb_spec (points_count c) 0) as [Hz|Hnz]; [lia|].
  reflexivity.
Qed.




Lemma upsert_points_nonempty (pts : list PointStruct) (m : gmap Z PointStruct) :
  pts <> [] \/ m <> ∅ -> upsert_points pts m <> ∅.
Proof.
  revert m. induction pts as [|p pts IH]; intros m H.
  - destruct H as [H|H]; [congruence|exact H].
  - cbn [upsert_points fold_left]. apply IH. right. apply insert_non_empty.
Qed.

Lemma build_points_nonempty (idx : Z) (faqs : list FAQ) (embeddings : list Vector) :
  faqs <> [] -> List.length faqs = List.length embeddings ->
  build_points idx faqs embeddings <> [].
Proof.
  intros Hne Hlen. destruct faqs as [|faq faqs]; [congruence|].
  destruct embeddings as [|emb embeddings]; [discriminate|]. discriminate.
Qed.

Lemma points_count_positive (c : Collection) :
  points c <> ∅ -> (0 < points_count c)%Z.
Proof.
  intros H. unfold points_count.
  assert (size (points c) <> 0%nat) by (intros Hz; apply map_size_empty_iff in Hz; auto).
  lia.
Qed.

Lemma initialize_collection_ensures (env : Env) (self : FAQRetriever) (w w' : World) :
  initialize_collection env self w = (Ok tt, w') ->
  qdrant_fault env GetCollections = None
  /\ exists c, qdrant w' !! collection_name self = Some c
               /\ (qdrant w !! collection_name self = Some c -> w' = w).
Proof.
  unfold initialize_collection, client_get_collections, client_create_collection,
    qdrant_call.
  destruct (qdrant_fault env GetCollections) as [e|]; [discriminate|].
  unfold_monad.
  destruct (existsb _ _) eqn:Hex; cbn [negb];
    [|destruct (qdrant_fault env (CreateCollection _)); [discriminate|]];
    intros Heq; inversion Heq; subst; clear Heq.
  - split; [reflexivity|]. apply existsb_exists in Hex. destruct Hex as (n & Hin & Hn).
    apply String.eqb_eq in Hn. subst n.
    apply list_elem_of_In, elem_of_elements, elem_of_dom in Hin.
    destruct Hin as [c Hc]. exists c. auto.
  - split; [reflexivity|]. eexists. split.
    + cbn [set_qdrant qdrant]. apply lookup_insert_eq.
    + cbn [qdrant]. intros Hc. exfalso.
      assert (Htrue : existsb (fun c => String.eqb c (collection_name self))
                        (elements (dom (qdrant w))) = true).
      { eapply collection_listed. exact Hc. }
      congruence.
Qed.

(** A start-up that succeeds with a non-empty FAQ file leaves the
    configured collection with N > 0 points, whatever it found. *)
Lemma startup_event_populates (env : Env) (w w' : World) (s : Settings)
    (services : Services) :
  get_settings env = Ok s ->
  (forall faqs, legal_faqs_json env = Ok faqs -> faqs <> []) ->
  startup_event env w = (Ok services, w') ->
  exists c, qdrant w' !! qdrant_collection_name s = Some c /\ (0 < points_count c)%Z.
Proof.
  intros Hset Hfile.
  unfold startup_event. rewrite Hset. unfold lift at 1, Database_initialize.
  unfold bind at 1. unfold try_except. unfold bind at 1. unfold ret at 1.
  unfold bind at 1.
  destruct (initialize_collection env _ w) as [[[]|e] w1] eqn:Hinit; [|discriminate].
  apply initialize_collection_ensures in Hinit.
  destruct Hinit as (Hdown & c & Hc & _). cbn [collection_name] in Hc.
  unfold bind at 1. rewrite get_faq_count_run. cbn [collection_name].
  rewrite Hc.
  destruct (match qdrant_fault env (GetCollection (qdrant_collection_name s)) with
            | Some _ => 0
            | None => points_count c
            end =? 0)%Z eqn:Hzero.
  2:{ unfold_monad. intros Heq. inversion Heq; subst. exists c. split; [exact Hc|].
      destruct (qdrant_fault env (GetCollection (qdrant_collection_name s)));
        [discriminate|].
      apply Z.eqb_neq in Hzero. unfold points_count in *. lia. }
  unfold bind at 1. unfold bind at 1. unfold lift.
  destruct (legal_faqs_json env) as [faqs|e] eqn:Hfaqs; [|discriminate].
  specialize (Hfile faqs eq_refl).
  unfold bind at 1. unfold generate_embeddings_batch. unfold_monad.
  destruct (embeddings_create env _ _) as [embeddings|e]; [|discriminate].
  unfold index_faqs. destruct (Nat.eqb_spec (List.length faqs) (List.length embeddings))
    as [Hlen|Hlen]; cbn [negb]; [|unfold raise; discriminate].
  unfold client_upsert. cbn [collection_name].
  destruct (qdrant_fault env (Upsert _ _)); [discriminate|]. unfold_monad.
  unfold store_points. cbn [qdrant]. rewrite Hc.
  intros Heq. inversion Heq; subst. cbn [set_qdrant qdrant].
  eexists. split; [apply lookup_insert_eq|].
  apply points_count_positive. cbn [points].
  apply upsert_points_nonempty. left. apply build_points_nonempty; assumption.
Qed.

(** X20. Start-up is idempotent as long as the store answers the request
    for the count of the collection: after a start-up that succeeded with
    a non-empty FAQ file, a second start-up succeeds too and changes
    nothing; it makes no call. *)
Lemma startup_event_twice (env : Env) (w w' : World) (s : Settings)
    (services : Services) :
  get_settings env = Ok s ->
  (forall faqs, legal_faqs_json env = Ok faqs -> faqs <> []) ->
  qdrant_fault env (GetCollection (qdrant_collection_name s)) = None ->
  startup_event env w = (Ok services, w') ->
  startup_event env w' = (Ok (services_of s), w')
  /\ new_events w' (snd (startup_event env w')) = [].
Proof.
  intros Hset Hfile Hcount Hrun.
  destruct (startup_event_populates env w w' s services Hset Hfile Hrun)
    as (c & Hc & Hpos).
  rewrite (startup_event_indexed env w' s c Hset Hc Hpos Hcount).
  assert (Hlist : qdrant_fault env GetCollections = None).
  { revert Hrun. unfold startup_event. rewrite Hset. unfold lift at 1, Database_initialize.
    unfold bind at 1. unfold try_except. unfold bind at 1. unfold ret at 1.
    unfold bind at 1.
    destruct (initialize_collection env _ w) as [[[]|e] w1] eqn:Hinit; [|discriminate].
    intros _. apply initialize_collection_ensures in Hinit. tauto. }
  rewrite Hlist. split; [reflexivity|]. cbn [snd].
  apply new_events_app. rewrite app_nil_r. reflexivity.
Qed.

(** X20, witness: the first start-up of the sample deployment indexes the two
    FAQs with one collection creation, one batch embedding call and one
    upsert; the second does nothing. *)
Lemma startup_event_twice_witness :
  let env := Sample.env true (Ok [Some "generated"]) Sample.db_ok in
  let w1 := snd (startup_event env Sample.empty_world) in
  List.length (List.filter is_indexing_call (trace w1)) = 3%nat
  /\ startup_event env w1 = (Ok (services_of Sample.settings), w1).
Proof.
  split; [vm_compute; reflexivity|].
  eapply (startup_event_twice _ Sample.empty_world _ Sample.settings).
  - reflexivity.
  - intros faqs Heq. inversion Heq. discriminate.
  - reflexivity.
  - vm_compute. reflexivity.
Defined.

(* ===================================================================== *)
(** ** Further properties of the Answer Composer and of the pipeline      *)
(* ===================================================================== *)

(** X1. [generate_answer] never raises: from every state it returns the text
    of the first choice when the provider answered with one, and the
    fallback in every other case (the call raised, no choice came back, or
    the first choice has no content); the state changes by the two traced
    calls only. *)
Theorem generate_answer_always_answers (env : Env) (self : AnswerGenerator)
    (user_query : string) (retrieved_faqs : list RetrievedFAQ) (w : World) :
  let r := generate_answer env self user_query retrieved_faqs w in
  fst r = Ok match chat_completions_create env
                     (chat_request self user_query retrieved_faqs) with
             | Ok (Some text :: _) => text
             | _ => _get_fallback_response retrieved_faqs
             end
  /\ interactions (snd r) = interactions w
  /\ qdrant (snd r) = qdrant w
  /\ db_writes (snd r) = db_writes w
  /\ new_events w (snd r) =
       [EvGenerateAnswer user_query retrieved_faqs;
        EvChatCompletion (chat_request self user_query retrieved_faqs)].
Proof.
  intros r. subst r. rewrite generate_answer_run. cbn [fst snd].
  split.
  - unfold composed_answer, generation_outcome.
    destruct (chat_completions_create env _) as [[|[a|] cs]|e]; reflexivity.
  - repeat split. apply new_events_app. cbn [add_events trace].
    rewrite <- app_assoc. reflexivity.
Qed.

Lemma composed_answer_fallback (env : Env) (self : AnswerGenerator) (q : string)
    (faqs : list RetrievedFAQ) (e : Exception) :
  chat_completions_create env (chat_request self q faqs) = Raise e ->
  composed_answer env self q faqs = _get_fallback_response faqs.
Proof.
  intros H. unfold composed_answer, generation_outcome. rewrite H. reflexivity.
Qed.

(** X2. A failure of the generative model does not fail the request: when the
    retrieval returned at least one item, the model call raised and the
    log store accepts the write, POST /api/ask answers with the fallback
    text built on the first item, and logs that same text in a row whose
    error flag is unset. *)
Theorem generation_failure_masked (env : Env) (services : Services)
    (request : QueryRequest) (w : World) (v : Vector) (s : Settings)
    (best_faq : RetrievedFAQ) (rest : list RetrievedFAQ) (e : Exception) :
  returns (generate_embedding env (embedding_service services) (query request)) (Ok v) ->
  get_settings env = Ok s ->
  returns (search env (faq_retriever services) v (top_k_results s)
             (similarity_threshold s) None) (Ok (best_faq :: rest)) ->
  chat_completions_create env
    (chat_request (answer_generator services) (query request) (best_faq :: rest))
  = Raise e ->
  log_write_accepted env w ->
  exists resp w' row,
    ask_question env services request w = (Ok resp, w')
    /\ resp_answer resp = fallback_text best_faq
    /\ new_rows w w' = [row]
    /\ ai_response row = fallback_text best_faq
    /\ error_occurred row = false
    /\ retrieved_faq_ids row = map faq_id (best_faq :: rest).
Proof.
  intros Hemb Hset Hsearch Hchat Hlog.
  pose proof (retrieval_outcome_of_returns _ _ _ _ _ _ Hemb Hset Hsearch) as Hret.
  destruct (answered_request env services request w _ Hret) as [Hany Hsome].
  destruct (Hsome Hlog) as (resp & w' & Heq).
  destruct (Hany resp w' Heq) as [-> Hrows].
  exists (success_response env services request (clock_reads w) (best_faq :: rest)), w',
    (success_row env services request w (best_faq :: rest)).
  cbn [success_response success_row resp_answer ai_response error_occurred
         retrieved_faq_ids final_answer].
  rewrite (composed_answer_fallback _ _ _ _ _ Hchat).
  repeat split; try assumption. apply new_rows_app, Hrows.
Qed.

(** X2, witness: the sample deployment with the generative model timing
    out. *)
Lemma generation_failure_masked_witness :
  exists resp w',
    ask_question (Sample.env true (Raise (Exc "Request timed out.")) Sample.db_ok)
      Sample.services (Sample.request true) Sample.empty_world = (Ok resp, w')
    /\ resp_answer resp = fallback_text Sample.car_accident_hit.
Proof.
  destruct (generation_failure_masked
              (Sample.env true (Raise (Exc "Request timed out.")) Sample.db_ok)
              Sample.services (Sample.request true) Sample.empty_world
              (Sample.vec 1 0 0) Sample.settings Sample.car_accident_hit []
              (Exc "Request timed out."))
    as (resp & w' & row & Heq & Hanswer & _).
  - intros w. reflexivity.
  - reflexivity.
  - intros w. reflexivity.
  - reflexivity.
  - reflexivity.
  - exists resp, w'. split; assumption.
Defined.

(** X3. When the retrieval succeeded but the log store rejects the mainline
    write with [e], the request fails with the generic HTTP 500 although an
    answer had been composed; a second write is attempted and, if accepted,
    appends an error row that stores "Error: " followed by the description
    of [e] and lists no retrieved id and no score, whatever was
    retrieved; if it is rejected too, nothing is appended. *)
Theorem log_failure_fails_request (env : Env) (services : Services)
    (request : QueryRequest) (w : World) (v : Vector) (s : Settings)
    (faqs : list RetrievedFAQ) (e : Exception) :
  returns (generate_embedding env (embedding_service services) (query request)) (Ok v) ->
  get_settings env = Ok s ->
  returns (search env (faq_retriever services) v (top_k_results s)
             (similarity_threshold s) None) (Ok faqs) ->
  db_fault env (db_writes w) = Some e ->
  let r := ask_question env services request w in
  fst r = Raise GENERIC_FAILURE
  /\ attempts w (snd r) = [db_writes w; S (db_writes w)]
  /\ count_events is_chat_call (new_events w (snd r))
     = (match faqs with [] => 0 | _ => 1 end)%nat
  /\ match db_fault env (S (db_writes w)) with
     | None =>
         exists row,
           new_rows w (snd r) = [row]
           /\ ai_response row = "Error: " +:+ str e
           /\ error_occurred row = true
           /\ retrieved_faq_ids row = []
           /\ relevance_scores row = []
     | Some _ => new_rows w (snd r) = []
     end.
Proof.
  intros Hemb Hset Hsearch Hfault r. subst r.
  pose proof (retrieval_outcome_of_returns _ _ _ _ _ _ Hemb Hset Hsearch) as Hret.
  pose proof (ask_question_runs env services request w) as [_ H].
  rewrite Hret, Hfault in H. unfold error_path in H.
  destruct (ask_question env services request w) as [r w']. cbn [fst snd] in *.
  destruct H as (Hr & Hw & Htr & Hrows).
  split; [exact Hr|]. split; [apply attempts_two, Hw|]. split.
  - rewrite (new_events_app _ _ _ Htr). unfold retrieval_events, count_events.
    rewrite (embedding_returns _ _ _ _ Hemb), Hset.
    cbv zeta. destruct (qdrant_fault env _); destruct faqs; reflexivity.
  - destruct (db_fault env (S (db_writes w))).
    + apply new_rows_app. rewrite app_nil_r. exact Hrows.
    + eexists. split; [apply new_rows_app, Hrows|]. repeat split.
Qed.

(** X3, witness: the sample deployment whose log store rejects the first
    write only. *)
Lemma log_failure_fails_request_witness :
  fst (ask_question (Sample.env true (Ok [Some "generated"]) Sample.db_first_write_fails)
         Sample.services (Sample.request true) Sample.empty_world)
  = Raise GENERIC_FAILURE.
Proof.
  apply (log_failure_fails_request
           (Sample.env true (Ok [Some "generated"]) Sample.db_first_write_fails)
           Sample.services (Sample.request true) Sample.empty_world
           (Sample.vec 1 0 0) Sample.settings [Sample.car_accident_hit]
           (Exc "database is locked")).
  - intros w. reflexivity.
  - reflexivity.
  - intros w. reflexivity.
  - reflexivity.
Defined.

(** X4. Whatever POST /api/ask answers, the row it logged agrees with the
    response: same answer text, same elapsed time (measured between the
    first two clock readings of the request, before the write), the
    request's query, the ids and the scores of all retrieved items in
    retrieval order, also when [include_sources] is unset and the response
    carries no source. *)
Theorem logged_row_matches_response (env : Env) (services : Services)
    (request : QueryRequest) (w w' : World) (resp : QueryResponse) :
  ask_question env services request w = (Ok resp, w') ->
  exists row faqs,
    new_rows w w' = [row]
    /\ retrieval_outcome env services request = Ok faqs
    /\ user_query row = query request
    /\ ai_response row = resp_answer resp
    /\ response_time_ms row = resp_response_time_ms resp
    /\ resp_response_time_ms resp
       = elapsed_ms (wall_clock env (clock_reads w)) (wall_clock env (S (clock_reads w)))
    /\ retrieved_faq_ids row = map faq_id faqs
    /\ relevance_scores row = map similarity_score faqs
    /\ error_occurred row = false
    /\ (resp_sources resp = faqs \/ resp_sources resp = [])
    /\ (include_sources request = false -> resp_sources resp = []).
Proof.
  intros Heq.
  pose proof (ask_question_runs env services request w) as [_ H].
  rewrite Heq in H. cbn [fst snd] in H. unfold error_path in H. cbn [fst snd] in H.
  destruct (retrieval_outcome env services request) as [faqs|e].
  2:{ destruct H as (Hr & _). discriminate. }
  destruct (db_fault env (db_writes w)).
  { destruct H as (Hr & _). discriminate. }
  destruct H as (Hr & _ & _ & Hrows). inversion Hr; subst resp; clear Hr.
  exists (success_row env services request w faqs), faqs.
  split; [apply new_rows_app, Hrows|].
  cbn [success_response success_row resp_answer resp_sources resp_response_time_ms
         user_query ai_response response_time_ms retrieved_faq_ids relevance_scores
         error_occurred].
  repeat split.
  - unfold final_sources. destruct faqs; [auto|]. destruct (include_sources request); auto.
  - intros Hflag. unfold final_sources. rewrite Hflag. destruct faqs; reflexivity.
Qed.

(** X4, witness: the sample deployment answering without sources. *)
Lemma logged_row_matches_response_witness :
  exists row,
    new_rows Sample.empty_world
      (snd (ask_question (Sample.env true (Ok [Some "generated"]) Sample.db_ok)
              Sample.services (Sample.request false) Sample.empty_world)) = [row]
    /\ retrieved_faq_ids row = ["faq_001"].
Proof.
  destruct (logged_row_matches_response
              (Sample.env true (Ok [Some "generated"]) Sample.db_ok)
              Sample.services (Sample.request false) Sample.empty_world
              (snd (ask_question (Sample.env true (Ok [Some "generated"]) Sample.db_ok)
                      Sample.services (Sample.request false) Sample.empty_world))
              (success_response (Sample.env true (Ok [Some "generated"]) Sample.db_ok)
                 Sample.services (Sample.request false) 0 [Sample.car_accident_hit]))
    as (row & faqs & Hrows & Hret & _ & _ & _ & _ & Hids & _).
  - vm_compute. reflexivity.
  - exists row. split; [exact Hrows|]. rewrite Hids.
    vm_compute in Hret. inversion Hret. reflexivity.
Defined.

(** X5. No request retries or fans out: POST /api/ask calls the embedding
    provider exactly once, searches at most once, calls the generative
    model at most once (once exactly when the retrieval returned at least
    one item), calls the logger once per attempted write, and never writes
    to the vector store, whose collections it leaves as they were. *)
Theorem ask_question_calls (env : Env) (services : Services) (request : QueryRequest)
    (w : World) :
  let w' := snd (ask_question env services request w) in
  let evs := new_events w w' in
  qdrant w' = qdrant w
  /\ count_events is_embedding_call evs = 1%nat
  /\ (count_events is_search_call evs <= 1)%nat
  /\ count_events is_chat_call evs
     = (match retrieval_outcome env services request with
        | Ok (_ :: _) => 1
        | _ => 0
        end)%nat
  /\ count_events is_store_write evs = 0%nat
  /\ count_events is_log_call evs = List.length (attempts w w').
Proof.
  intros w' evs. subst w' evs.
  pose proof (ask_question_runs env services request w) as [Hq H].
  destruct (ask_question env services request w) as [r w']. cbn [fst snd] in *.
  split; [exact Hq|]. unfold error_path in H. cbn [fst snd] in H.
  assert (Hretr : forall p,
             count_events p (retrieval_events env services request)
             = count_events p [EvEmbeddingsCreate (InputText (query request))]
               \/ exists params,
                    count_events p (retrieval_events env services request)
                    = count_events p [EvEmbeddingsCreate (InputText (query request));
                                      EvQdrantSearch params]).
  { intros p. unfold retrieval_events.
    destruct (embedding_outcome env _ _); [|auto].
    destruct (get_settings env); [|auto].
    cbv zeta. destruct (qdrant_fault env _); [auto|]. right. eauto. }
  assert (Hcount : forall p a b, count_events p (a ++ b)
                                 = (count_events p a + count_events p b)%nat).
  { intros p a b. unfold count_events. rewrite List.filter_app, length_app. reflexivity. }
  destruct (retrieval_outcome env services request) as [faqs|e].
  - destruct (db_fault env (db_writes w)).
    + destruct H as (_ & Hw & Htr & _).
      rewrite (new_events_app _ _ _ Htr), (attempts_two _ _ Hw), !Hcount.
      repeat split;
        match goal with
        | |- context [count_events ?p (retrieval_events _ _ _)] =>
            destruct (Hretr p) as [->|[params ->]]
        end; destruct faqs; cbn; lia.
    + destruct H as (_ & Hw & Htr & _).
      rewrite (new_events_app _ _ _ Htr), (attempts_one _ _ Hw), !Hcount.
      repeat split;
        match goal with
        | |- context [count_events ?p (retrieval_events _ _ _)] =>
            destruct (Hretr p) as [->|[params ->]]
        end; destruct faqs; cbn; lia.
  - destruct H as (_ & Hw & Htr & _).
    rewrite (new_events_app _ _ _ Htr), (attempts_one _ _ Hw), !Hcount.
    repeat split;
      match goal with
      | |- context [count_events ?p (retrieval_events _ _ _)] =>
          destruct (Hretr p) as [->|[params ->]]
      end; cbn; lia.
Qed.

Lemma next_rowid_above (rows : list InteractionRow) :
  Forall (fun r => row_id r < next_rowid rows) rows /\ 1 <= next_rowid rows.
Proof.
  unfold next_rowid. induction rows as [|r rows [IH1 IH2]]; cbn [fold_right].
  - split; [constructor|lia].
  - split; [|lia]. constructor; [lia|].
    eapply Forall_impl; [exact IH1|]. cbn beta. intros r' Hr'. lia.
Qed.

Lemma ids_increasing_snoc (rows : list InteractionRow) (row : InteractionRow) :
  ids_increasing rows -> row_id row = next_rowid rows -> ids_increasing (rows ++ [row]).
Proof.
  intros Hsorted Hid. destruct (next_rowid_above rows) as [Habove _].
  rewrite <- Hid in Habove. clear Hid. unfold ids_increasing in *.
  induction Hsorted as [|r rows Hsorted IH Hall]; cbn [app].
  - repeat constructor.
  - inversion Habove as [|? ? Hr Hrest]; subst. constructor.
    + apply IH, Hrest.
    + apply Forall_app. split; [exact Hall|]. repeat constructor. exact Hr.
Qed.

(** X6. An accepted INSERT returns the id of the row it appended, which is at
    least 1 and larger than the id of every row already in the table; a
    rejected INSERT leaves the table as it was.  Either way one write
    attempt is counted. *)
Theorem log_interaction_fresh_id (env : Env) (q : string) (ids : list string)
    (a : string) (rt : Z) (scores : list Q) (err : bool) (w : World) :
  let r := log_interaction env q ids a rt scores err w in
  db_writes (snd r) = S (db_writes w)
  /\ match fst r with
     | Ok lastrowid =>
         exists row,
           interactions (snd r) = interactions w ++ [row]
           /\ row_id row = lastrowid
           /\ 1 <= lastrowid
           /\ Forall (fun old => row_id old < lastrowid) (interactions w)
           /\ user_query row = q /\ retrieved_faq_ids row = ids
           /\ ai_response row = a /\ response_time_ms row = rt
           /\ relevance_scores row = scores /\ error_occurred row = err
     | Raise e =>
         db_fault env (db_writes w) = Some e /\ interactions (snd r) = interactions w
     end.
Proof.
  intros r. subst r. rewrite log_interaction_run.
  destruct (db_fault env (db_writes w)) as [e|]; cbn [fst snd db_writes interactions].
  - auto.
  - split; [reflexivity|]. eexists. split; [reflexivity|].
    destruct (next_rowid_above (interactions w)) as [Habove Hone].
    repeat split; assumption.
Qed.

(** X7. Invariant of the interactions table: if the row ids grow strictly
    along the table, they still do after any request to POST /api/ask, so
    ids stay unique. *)
Theorem ask_question_keeps_ids_increasing (env : Env) (services : Services)
    (request : QueryRequest) (w : World) :
  ids_increasing (interactions w) ->
  ids_increasing (interactions (snd (ask_question env services request w))).
Proof.
  intros Hinv.
  pose proof (ask_question_runs env services request w) as [_ H].
  destruct (ask_question env services request w) as [r w']. cbn [fst snd] in *.
  unfold error_path in H. cbn [fst snd] in H.
  assert (Hrows : interactions w' = interactions w
                  \/ exists row, interactions w' = interactions w ++ [row]
                                 /\ row_id row = next_rowid (interactions w)).
  { destruct (retrieval_outcome env services request) as [faqs|e].
    - destruct (db_fault env (db_writes w)).
      + destruct H as (_ & _ & _ & H).
        destruct (db_fault env (S (db_writes w))); [auto|]. right. eauto.
      + destruct H as (_ & _ & _ & H). right. eauto.
    - destruct H as (_ & _ & _ & H).
      destruct (db_fault env (db_writes w)); [auto|]. right. eauto. }
  destruct Hrows as [->|(row & -> & Hid)]; [exact Hinv|].
  apply ids_increasing_snoc; assumption.
Qed.

(** X7, witness: a request on a table that holds the rows 1, 2 and 3: the
    new row gets the id 4. *)
Lemma ask_question_keeps_ids_increasing_witness :
  let w' := snd (ask_question (Sample.env true (Ok [Some "generated"]) Sample.db_ok)
                   Sample.services (Sample.request true) Sample.logged_world) in
  map row_id (interactions Sample.logged_world) = [1; 2; 3]
  /\ map row_id (interactions w') = [1; 2; 3; 4]
  /\ ids_increasing (interactions w').
Proof.
  cbv zeta. split; [reflexivity|]. split; [vm_compute; reflexivity|].
  apply (ask_question_keeps_ids_increasing
           (Sample.env true (Ok [Some "generated"]) Sample.db_ok)
           Sample.services (Sample.request true) Sample.logged_world).
  unfold ids_increasing. cbn [Sample.logged_world interactions Sample.rows].
  repeat constructor.
Defined.

Lemma total_queries_length (rows : list InteractionRow) :
  total_queries (get_stats rows) = Z.of_nat (List.length rows).
Proof.
  unfold get_stats, or_0, sql_count. cbn [total_queries].
  destruct (Z.eqb_spec (Z.of_nat (List.length rows)) 0); lia.
Qed.

Lemma total_errors_count (rows : list InteractionRow) :
  total_errors (get_stats rows) = Z.of_nat (List.length (List.filter error_occurred rows)).
Proof.
  unfold get_stats. cbn [total_errors]. rewrite <- sum_flags. unfold or_0, sql_sum.
  destruct rows as [|r rows]; [reflexivity|]. cbn [map].
  destruct (Z.eqb_spec (sum_Z ((if error_occurred r then 1 else 0)
                                 :: map (fun r => if error_occurred r then 1 else 0) rows)) 0);
    lia.
Qed.

(** X8. The statistics follow the requests: an answered request raises
    [total_queries] by one and leaves [total_errors] as it was; a failed
    request raises both by one when its error row is written and neither
    when it is not; and [total_errors] never exceeds [total_queries]. *)
Theorem stats_after_request (env : Env) (services : Services) (request : QueryRequest)
    (w : World) :
  let r := ask_question env services request w in
  let before := get_stats (interactions w) in
  let after := get_stats (interactions (snd r)) in
  0 <= total_errors after <= total_queries after
  /\ match fst r with
     | Ok _ =>
         total_queries after = total_queries before + 1
         /\ total_errors after = total_errors before
     | Raise _ =>
         total_queries after
         = total_queries before + Z.of_nat (List.length (new_rows w (snd r)))
         /\ total_errors after
            = total_errors before + Z.of_nat (List.length (new_rows w (snd r)))
         /\ (List.length (new_rows w (snd r)) <= 1)%nat
     end.
Proof.
  intros r before after. subst r before after.
  rewrite !total_queries_length, !total_errors_count.
  split.
  { pose proof (List.filter_length_le error_occurred
                  (interactions (snd (ask_question env services request w)))). lia. }
  pose proof (ask_question_runs env services request w) as [_ H].
  destruct (ask_question env services request w) as [r w']. cbn [fst snd] in *.
  unfold error_path in H. cbn [fst snd] in H.
  assert (Herr : forall e k n, r = Raise GENERIC_FAILURE ->
             match db_fault env k with
             | None => interactions w' = interactions w ++ [error_row env request w n e]
             | Some _ => interactions w' = interactions w
             end ->
             match r with
             | Ok _ => False
             | Raise _ =>
                 Z.of_nat (List.length (interactions w'))
                 = Z.of_nat (List.length (interactions w))
                   + Z.of_nat (List.length (new_rows w w'))
                 /\ Z.of_nat (List.length (List.filter error_occurred (interactions w')))
                    = Z.of_nat (List.length (List.filter error_occurred (interactions w)))
                      + Z.of_nat (List.length (new_rows w w'))
                 /\ (List.length (new_rows w w') <= 1)%nat
             end).
  { intros e k n -> Hrows. destruct (db_fault env k).
    - rewrite <- (app_nil_r (interactions w)) in Hrows.
      rewrite (new_rows_app _ _ _ Hrows), Hrows, app_nil_r. cbn. lia.
    - rewrite (new_rows_app _ _ _ Hrows), Hrows, List.filter_app, !length_app. cbn. lia. }
  destruct (retrieval_outcome env services request) as [faqs|e].
  - destruct (db_fault env (db_writes w)) as [e|].
    + destruct H as (Hr & _ & _ & Hrows).
      specialize (Herr e _ _ Hr Hrows). destruct r; [destruct Herr|exact Herr].
    + destruct H as (-> & _ & _ & ->).
      rewrite List.filter_app, !length_app. cbn. lia.
  - destruct H as (Hr & _ & _ & Hrows).
    specialize (Herr e _ _ Hr Hrows). destruct r; [destruct Herr|exact Herr].
Qed.

Lemma py_int_floor (x : Q) : (0 <= x)%Q -> py_int x = Qfloor x.
Proof.
  intros H. destruct x as [n d]. unfold py_int, Qfloor. cbn [Qnum Qden].
  apply Z.quot_div_nonneg; [|lia].
  unfold Qle in H. cbn in H. lia.
Qed.

(** X9. The elapsed time is the whole number of milliseconds elapsed, rounded
    down, and is not negative, provided the clock did not run backwards
    between the two readings. *)
Theorem elapsed_ms_whole_milliseconds (start_time now : Q) :
  (start_time <= now)%Q ->
  0 <= elapsed_ms start_time now
  /\ (inject_Z (elapsed_ms start_time now) <= (now - start_time) * 1000)%Q
  /\ ((now - start_time) * 1000 < inject_Z (elapsed_ms start_time now + 1))%Q.
Proof.
  intros H. unfold elapsed_ms.
  assert (Hnn : (0 <= (now - start_time) * 1000)%Q) by lra.
  rewrite (py_int_floor _ Hnn).
  split; [|split].
  - change 0 with (Qfloor 0). apply Qfloor_resp_le. exact Hnn.
  - apply Qfloor_le.
  - apply Qlt_floor.
Qed.

(** X9, witness: 1.2345 seconds elapsed read as 1234 ms. *)
Lemma elapsed_ms_whole_milliseconds_witness :
  0 <= elapsed_ms (10 # 1) (112345 # 10000).
Proof.
  apply (elapsed_ms_whole_milliseconds (10 # 1) (112345 # 10000)).
  unfold Qle. simpl. lia.
Defined.

Example elapsed_ms_sample :
  elapsed_ms (10 # 1) (112345 # 10000) = 1234
  /\ elapsed_ms (112345 # 10000) (112340 # 10000) = 0.
Proof. split; reflexivity. Qed.

(* ===================================================================== *)
(** ** Further properties of the retriever and of the vector store        *)
(* ===================================================================== *)

Lemma payload_lookup_field (r : ScoredPoint) (key : string) :
  match payload_lookup r key with
  | Ok (PayloadStr s) => string_field r key = Some s
  | Ok _ => string_field r key = None
  | Raise e =>
      string_field r key = None
      /\ (e = TypeError_not_subscriptable \/ e = KeyError key)
  end.
Proof.
  unfold payload_lookup, string_field.
  destruct (scored_payload r) as [payload|]; [|auto].
  destruct (payload !! key) as [[s| |]|]; auto.
Qed.

(** What the constructor makes of one hit: the item with its fields when
    the hit is valid, an exception otherwise. *)
Lemma hit_outcome_cases (env : Env) (r : ScoredPoint) :
  match hit_outcome env r with
  | Ok faq => hit_yields r faq /\ valid_hit r
  | Raise e => ~ valid_hit r /\ hit_error env [r] e
  end.
Proof.
  unfold hit_outcome.
  pose proof (payload_lookup_field r "faq_id") as Hi.
  pose proof (payload_lookup_field r "question") as Hq.
  pose proof (payload_lookup_field r "answer") as Ha.
  pose proof (payload_lookup_field r "category") as Hc.
  assert (Hmissing : forall key,
             In key ["faq_id"; "question"; "answer"; "category"] ->
             string_field r key = None -> ~ valid_hit r).
  { intros key Hin Hnone [Hfields _]. exact (Hfields key Hin Hnone). }
  assert (Hkey : forall key e,
             In key ["faq_id"; "question"; "answer"; "category"] ->
             e = TypeError_not_subscriptable \/ e = KeyError key ->
             hit_error env [r] e).
  { intros key e Hin [->| ->]; [left; reflexivity|right; left; eauto]. }
  assert (Hval : hit_error env [r] (validation_error env r)).
  { right. right. exists r. split; [left|]; reflexivity. }
  destruct (payload_lookup r "faq_id") as [vi|e].
  2:{ destruct Hi as [Hn He]. split; [eapply Hmissing; [|exact Hn]|eapply Hkey; [|exact He]];
      cbn; auto. }
  destruct (payload_lookup r "question") as [vq|e].
  2:{ destruct Hq as [Hn He]. split; [eapply Hmissing; [|exact Hn]|eapply Hkey; [|exact He]];
      cbn; auto. }
  destruct (payload_lookup r "answer") as [va|e].
  2:{ destruct Ha as [Hn He]. split; [eapply Hmissing; [|exact Hn]|eapply Hkey; [|exact He]];
      cbn; auto. }
  destruct (payload_lookup r "category") as [vc|e].
  2:{ destruct Hc as [Hn He]. split; [eapply Hmissing; [|exact Hn]|eapply Hkey; [|exact He]];
      cbn; auto. }
  destruct vi as [i| |];
    try (split; [eapply (Hmissing "faq_id"); [cbn; auto|exact Hi]|exact Hval]).
  destruct vq as [q| |];
    try (split; [eapply (Hmissing "question"); [cbn; auto|exact Hq]|exact Hval]).
  destruct va as [a| |];
    try (split; [eapply (Hmissing "answer"); [cbn; auto|exact Ha]|exact Hval]).
  destruct vc as [c| |];
    try (split; [eapply (Hmissing "category"); [cbn; auto 6|exact Hc]|exact Hval]).
  destruct (Qle_bool 0 (score r) && Qle_bool (score r) 1) eqn:Hrange.
  - apply andb_true_iff in Hrange. destruct Hrange as [Hlo Hhi].
    apply Qle_bool_iff in Hlo, Hhi.
    split; [repeat split; assumption|].
    split; [|split; assumption].
    intros key [<-|[<-|[<-|[<-|[]]]]]; congruence.
  - split; [|exact Hval].
    intros [_ [Hlo Hhi]]. apply Qle_bool_iff in Hlo, Hhi.
    rewrite Hlo, Hhi in Hrange. discriminate.
Qed.

Lemma hit_error_weaken (env : Env) (r : ScoredPoint) (results : list ScoredPoint)
    (e : Exception) :
  In r results -> hit_error env [r] e -> hit_error env results e.
Proof.
  intros Hin [H|[H|(r' & [<-|[]] & ->)]]; [left; exact H|right; left; exact H|].
  right. right. eauto.
Qed.

Lemma hit_error_cons (env : Env) (r : ScoredPoint) (results : list ScoredPoint)
    (e : Exception) :
  hit_error env results e -> hit_error env (r :: results) e.
Proof.
  intros [H|[H|(r' & Hin & ->)]]; [left; exact H|right; left; exact H|].
  right. right. exists r'. split; [right; exact Hin|reflexivity].
Qed.

Lemma retrieved_of_valid (env : Env) (results : list ScoredPoint)
    (faqs : list RetrievedFAQ) :
  retrieved_of env results = Ok faqs ->
  Forall2 hit_yields results faqs
  /\ Forall valid_hit results
  /\ Forall (fun faq => (0 <= similarity_score faq <= 1)%Q) faqs.
Proof.
  revert faqs. induction results as [|r rest IH]; intros faqs H; cbn [retrieved_of] in H.
  - inversion H. repeat constructor.
  - pose proof (hit_outcome_cases env r) as Hhit.
    destruct (hit_outcome env r) as [faq|e]; [|discriminate].
    destruct (retrieved_of env rest) as [faqs'|e]; [|discriminate].
    inversion H; subst; clear H.
    destruct (IH faqs' eq_refl) as (Hyields & Hvalid & Hrange).
    destruct Hhit as [Hy Hv].
    split; [constructor; assumption|]. split; [constructor; assumption|].
    constructor; [|exact Hrange].
    destruct Hy as (_ & _ & _ & _ & ->). exact (proj2 Hv).
Qed.

Lemma retrieved_of_raises (env : Env) (results : list ScoredPoint) (e : Exception) :
  retrieved_of env results = Raise e ->
  Exists (fun r => ~ valid_hit r) results /\ hit_error env results e.
Proof.
  revert e. induction results as [|r rest IH]; intros e H; cbn [retrieved_of] in H.
  - discriminate.
  - pose proof (hit_outcome_cases env r) as Hhit.
    destruct (hit_outcome env r) as [faq|e'].
    + destruct (retrieved_of env rest) as [faqs|e'] eqn:Hrest; [discriminate|].
      inversion H; subst; clear H.
      destruct (IH e eq_refl) as [Hex Herr].
      split; [right; exact Hex|apply hit_error_cons, Herr].
    + inversion H; subst; clear H. destruct Hhit as [Hbad Herr].
      split; [left; exact Hbad|].
      eapply hit_error_weaken; [left; reflexivity|exact Herr].
Qed.

(** X10. What [search] returns is what the client found, item for item and in
    the client's order: each item carries the four payload strings and the
    score of its hit, and every score lies inside [0, 1].  The search
    raises exactly when the client call raises or one of the hits is not
    valid: it has no payload (a [TypeError]), its payload lacks one of the
    four keys (the [KeyError] of that key), or a field is not a string or
    the score lies outside [0, 1] (pydantic's validation error).  A search
    never touches the log or the collections. *)
Theorem search_returns_valid_hits (env : Env) (self : FAQRetriever) (v : Vector)
    (top_k : Z) (threshold : Q) (category_filter : option string) (w : World) :
  let params := search_params_of self v top_k threshold category_filter in
  let r := search env self v top_k threshold category_filter w in
  interactions (snd r) = interactions w
  /\ qdrant (snd r) = qdrant w
  /\ match fst r with
     | Ok faqs =>
         exists results,
           qdrant_fault env (Search params) = None
           /\ qdrant_search env params = Ok results
           /\ Forall valid_hit results
           /\ Forall2 hit_yields results faqs
           /\ Forall (fun faq => (0 <= similarity_score faq <= 1)%Q) faqs
     | Raise e =>
         qdrant_fault env (Search params) = Some e
         \/ (qdrant_fault env (Search params) = None
             /\ qdrant_search env params = Raise e)
         \/ exists results,
              qdrant_fault env (Search params) = None
              /\ qdrant_search env params = Ok results
              /\ Exists (fun r => ~ valid_hit r) results
              /\ hit_error env results e
     end.
Proof.
  intros params r. subst params r. rewrite search_run. cbn [fst snd].
  unfold search_outcome. cbv zeta.
  destruct (qdrant_fault env _) as [e|]; [auto|]. cbn [add_events interactions qdrant].
  split; [reflexivity|]. split; [reflexivity|].
  destruct (qdrant_search env _) as [results|e] eqn:Hsearch; [|auto].
  destruct (retrieved_of env results) as [faqs|e] eqn:Hret.
  - destruct (retrieved_of_valid env results faqs Hret) as (Hyields & Hvalid & Hrange).
    exists results. repeat split; assumption.
  - right. right. exists results.
    destruct (retrieved_of_raises env results e Hret) as [Hex Herr].
    repeat split; assumption.
Qed.

(** The hit of the sample store is valid and yields the sample item; a
    hit without payload, one whose payload lacks the answer, one whose
    category is not a string and one whose score exceeds 1 are rejected,
    each with its own exception. *)
Example hit_outcome_sample :
  let env := Sample.env true (Ok [Some "generated"]) Sample.db_ok in
  let payload := payload_dict Sample.car_accident in
  hit_outcome env {| scored_payload := Some payload; score := 85 # 100 |}
  = Ok Sample.car_accident_hit
  /\ hit_outcome env {| scored_payload := None; score := 85 # 100 |}
     = Raise TypeError_not_subscriptable
  /\ hit_outcome env {| scored_payload := Some (delete "answer" payload); score := 85 # 100 |}
     = Raise (KeyError "answer")
  /\ hit_outcome env {| scored_payload := Some (<["category" := PayloadOther]> payload);
                        score := 85 # 100 |}
     = Raise (Exc "1 validation error for RetrievedFAQ")
  /\ hit_outcome env {| scored_payload := Some payload; score := 10000001 # 10000000 |}
     = Raise (Exc "1 validation error for RetrievedFAQ").
Proof.
  cbv zeta. split; [vm_compute; reflexivity|]. split; [vm_compute; reflexivity|].
  split; [vm_compute; reflexivity|]. split; vm_compute; reflexivity.
Qed.

(** X11. An empty category filter is no filter: [search] passes the client the
    collection, the vector, [top_k] as limit and the threshold, and a
    category filter only when one was given and it is not the empty
    string. *)
Theorem search_sends_filter_only_if_nonempty (env : Env) (self : FAQRetriever)
    (v : Vector) (top_k : Z) (threshold : Q) (category_filter : option string)
    (w : World) (params : SearchParams) :
  In (EvQdrantSearch params)
     (new_events w (snd (search env self v top_k threshold category_filter w))) ->
  sp_collection_name params = collection_name self
  /\ sp_query_vector params = v
  /\ sp_limit params = top_k
  /\ sp_score_threshold params = threshold
  /\ (forall c, sp_query_filter params = Some c <-> category_filter = Some c /\ c <> EmptyString).
Proof.
  rewrite search_run. cbn [snd].
  destruct (qdrant_fault env _).
  - assert (Hnone : new_events w w = []).
    { apply new_events_app. rewrite app_nil_r. reflexivity. }
    rewrite Hnone. intros [].
  - rewrite (new_events_app w _ [EvQdrantSearch
               (search_params_of self v top_k threshold category_filter)]) by reflexivity.
    intros [Heq|[]]. inversion Heq; subst; clear Heq.
    cbn [search_params_of sp_collection_name sp_query_vector sp_limit sp_score_threshold
           sp_query_filter].
    repeat split.
    + destruct category_filter as [[|a f]|]; cbn [truthy_filter] in *; try discriminate.
      assumption.
    + destruct category_filter as [[|a f]|]; cbn [truthy_filter] in *; try discriminate.
      inversion H. discriminate.
    + intros [-> Hne]. destruct c; [congruence|reflexivity].
Qed.

(** X11, witness: a search of the sample deployment with the empty string as
    category filter. *)
Lemma search_sends_filter_only_if_nonempty_witness :
  ~ (Some EmptyString = Some "Personal Injury" /\ "Personal Injury" <> EmptyString).
Proof.
  intros Hc.
  destruct (search_sends_filter_only_if_nonempty
              (Sample.env true (Ok [Some "generated"]) Sample.db_ok)
              (faq_retriever Sample.services) (Sample.vec 1 0 0) 2 (6 # 10)
              (Some EmptyString) Sample.empty_world
              {| sp_collection_name := "legal_faqs";
                 sp_query_vector := Sample.vec 1 0 0;
                 sp_limit := 2;
                 sp_score_threshold := 6 # 10;
                 sp_query_filter := None |})
    as (_ & _ & _ & _ & Hfilter).
  - vm_compute. left. reflexivity.
  - apply Hfilter in Hc. discriminate.
Defined.

(** X12. [get_faq_count] never raises and never changes the state: it is the
    number of points of the collection when the store answers the request
    and the collection exists, and 0 when the request fails or the
    collection is missing; it is never negative. *)
Theorem get_faq_count_never_raises (env : Env) (self : FAQRetriever) (w : World) :
  exists n,
    get_faq_count env self w = (Ok n, w)
    /\ 0 <= n
    /\ (qdrant_fault env (GetCollection (collection_name self)) <> None -> n = 0)
    /\ (qdrant w !! collection_name self = None -> n = 0)
    /\ (forall c, qdrant_fault env (GetCollection (collection_name self)) = None ->
                  qdrant w !! collection_name self = Some c ->
                  n = Z.of_nat (size (points c))).
Proof.
  rewrite get_faq_count_run. eexists. split; [reflexivity|].
  destruct (qdrant_fault env _) as [e|].
  - repeat split; try lia; intros; congruence.
  - destruct (qdrant w !! collection_name self) as [c|].
    + repeat split; try (intros; congruence).
      * unfold points_count. lia.
      * intros c' _ Hc'. inversion Hc'. reflexivity.
    + repeat split; try lia; intros; congruence.
Qed.

Lemma collection_listed_iff (w : World) (name : string) :
  existsb (fun n => String.eqb n name) (elements (dom (qdrant w)))
  = match qdrant w !! name with Some _ => true | None => false end.
Proof.
  destruct (qdrant w !! name) as [c|] eqn:Hc.
  - eapply collection_listed. exact Hc.
  - apply not_true_is_false. intros Hex. apply existsb_exists in Hex.
    destruct Hex as (n & Hin & Hn). apply String.eqb_eq in Hn. subst n.
    apply list_elem_of_In, elem_of_elements, elem_of_dom in Hin.
    destruct Hin as [c' Hc']. congruence.
Qed.

Lemma initialize_collection_cases (env : Env) (self : FAQRetriever) (w : World) :
  let r := initialize_collection env self w in
  match qdrant_fault env GetCollections with
  | Some e => r = (Raise e, w)
  | None =>
      match qdrant w !! collection_name self with
      | Some _ => r = (Ok tt, w)
      | None =>
          match qdrant_fault env (CreateCollection (collection_name self)) with
          | Some e => r = (Raise e, w)
          | None =>
              fst r = Ok tt
              /\ qdrant (snd r)
                 = <[collection_name self := fresh_collection self]> (qdrant w)
              /\ interactions (snd r) = interactions w
              /\ clock_reads (snd r) = clock_reads w
              /\ db_writes (snd r) = db_writes w
              /\ trace (snd r)
                 = trace w ++ [EvQdrantCreateCollection (collection_name self)]
          end
      end
  end.
Proof.
  intros r. subst r.
  unfold initialize_collection, client_get_collections, client_create_collection,
    qdrant_call.
  destruct (qdrant_fault env GetCollections) as [e|]; [reflexivity|].
  unfold_monad. cbn beta iota. rewrite !collection_listed_iff.
  destruct (qdrant w !! collection_name self); [reflexivity|].
  cbn [negb].
  destruct (qdrant_fault env (CreateCollection (collection_name self))); [reflexivity|].
  cbn [fst snd set_qdrant qdrant interactions clock_reads db_writes trace].
  repeat split.
Qed.

(** X13. [initialize_collection] is idempotent and never touches an existing
    collection: when it succeeds the collection exists; a collection that
    was already there is left exactly as it was, whatever its dimension
    and its points; a missing one is created empty with the configured
    dimension; no other collection changes; and a second call changes
    nothing. *)
Theorem initialize_collection_idempotent (env : Env) (self : FAQRetriever)
    (w w1 : World) :
  initialize_collection env self w = (Ok tt, w1) ->
  initialize_collection env self w1 = (Ok tt, w1)
  /\ (forall c, qdrant w !! collection_name self = Some c -> w1 = w)
  /\ (qdrant w !! collection_name self = None ->
      qdrant w1 !! collection_name self = Some (fresh_collection self))
  /\ (forall other, other <> collection_name self ->
                    qdrant w1 !! other = qdrant w !! other).
Proof.
  intros Hrun.
  pose proof (initialize_collection_cases env self w) as H1.
  pose proof (initialize_collection_cases env self w1) as H2.
  cbn zeta in H1, H2. rewrite Hrun in H1. cbn [fst snd] in H1.
  destruct (qdrant_fault env GetCollections) as [e|]; [discriminate|].
  destruct (qdrant w !! collection_name self) as [c|] eqn:Hc.
  - inversion H1; subst w1. rewrite Hc in H2.
    split; [exact H2|]. split; [reflexivity|]. split; [discriminate|reflexivity].
  - destruct (qdrant_fault env (CreateCollection (collection_name self)));
      [discriminate|].
    destruct H1 as (_ & Hq & _).
    assert (Hnew : qdrant w1 !! collection_name self = Some (fresh_collection self)).
    { rewrite Hq. apply lookup_insert_eq. }
    rewrite Hnew in H2.
    split; [exact H2|]. split; [discriminate|]. split; [intros _; exact Hnew|].
    intros other Hne. rewrite Hq. apply lookup_insert_ne. congruence.
Qed.

(** X13, witness: the sample deployment on a store without the collection. *)
Lemma initialize_collection_idempotent_witness :
  qdrant (snd (initialize_collection (Sample.env true (Ok []) Sample.db_ok)
                 (faq_retriever Sample.services) Sample.empty_world))
    !! "legal_faqs"
  = Some (fresh_collection (faq_retriever Sample.services)).
Proof.
  apply (initialize_collection_idempotent (Sample.env true (Ok []) Sample.db_ok)
           (faq_retriever Sample.services) Sample.empty_world).
  - vm_compute. reflexivity.
  - reflexivity.
Defined.

Lemma upsert_build_outside (faqs : list FAQ) (embeddings : list Vector) (start : Z)
    (m : gmap Z PointStruct) (k : Z) :
  k < start \/ start + Z.of_nat (List.length faqs) <= k ->
  upsert_points (build_points start faqs embeddings) m !! k = m !! k.
Proof.
  revert embeddings start m.
  induction faqs as [|faq faqs IH]; intros embeddings start m Hk; [reflexivity|].
  destruct embeddings as [|emb embeddings]; [reflexivity|].
  cbn [build_points upsert_points fold_left].
  change (fold_left _ ?pts ?acc) with (upsert_points pts acc).
  rewrite IH by (cbn [List.length] in Hk; lia).
  cbn [point_id]. apply lookup_insert_ne. cbn [List.length] in Hk. lia.
Qed.

Lemma upsert_build_inside (faqs : list FAQ) (embeddings : list Vector) (start : Z)
    (m : gmap Z PointStruct) (i : nat) (faq : FAQ) (emb : Vector) :
  faqs !! i = Some faq -> embeddings !! i = Some emb ->
  upsert_points (build_points start faqs embeddings) m !! (start + Z.of_nat i)
  = Some (point_of (start + Z.of_nat i) faq emb).
Proof.
  revert embeddings start m i.
  induction faqs as [|faq0 faqs IH]; intros embeddings start m i Hfaq Hemb;
    [discriminate|].
  destruct embeddings as [|emb0 embeddings]; [discriminate|].
  cbn [build_points upsert_points fold_left].
  change (fold_left _ ?pts ?acc) with (upsert_points pts acc).
  destruct i as [|i].
  - inversion Hfaq; inversion Hemb; subst.
    rewrite upsert_build_outside by lia.
    replace (start + Z.of_nat 0) with start by lia.
    cbn [point_id]. apply lookup_insert_eq.
  - cbn in Hfaq, Hemb.
    replace (start + Z.of_nat (S i)) with ((start + 1) + Z.of_nat i) by lia.
    apply IH; assumption.
Qed.

Lemma upsert_build_size (faqs : list FAQ) (embeddings : list Vector) (start : Z)
    (m : gmap Z PointStruct) :
  List.length faqs = List.length embeddings ->
  (forall k, start <= k -> m !! k = None) ->
  size (upsert_points (build_points start faqs embeddings) m)
  = (size m + List.length faqs)%nat.
Proof.
  revert embeddings start m.
  induction faqs as [|faq faqs IH]; intros embeddings start m Hlen Hfree.
  - cbn. lia.
  - destruct embeddings as [|emb embeddings]; [discriminate|].
    cbn [build_points upsert_points fold_left].
    change (fold_left _ ?pts ?acc) with (upsert_points pts acc).
    rewrite IH.
    + cbn [point_id]. rewrite map_size_insert_None by (apply Hfree; lia).
      cbn [List.length]. lia.
    + cbn [List.length] in Hlen. lia.
    + intros k Hk. cbn [point_id]. rewrite lookup_insert_ne by lia. apply Hfree. lia.
Qed.

Lemma upsert_build_twice (faqs : list FAQ) (embeddings : list Vector) (start : Z)
    (m : gmap Z PointStruct) :
  List.length faqs = List.length embeddings ->
  upsert_points (build_points start faqs embeddings)
    (upsert_points (build_points start faqs embeddings) m)
  = upsert_points (build_points start faqs embeddings) m.
Proof.
  intros Hlen. apply map_eq. intros k.
  destruct (decide (start <= k < start + Z.of_nat (List.length faqs))) as [Hin|Hout].
  - assert (Hi : (Z.to_nat (k - start) < List.length faqs)%nat) by lia.
    destruct (lookup_lt_is_Some_2 faqs _ Hi) as [faq Hfaq].
    rewrite Hlen in Hi. destruct (lookup_lt_is_Some_2 embeddings _ Hi) as [emb Hemb].
    replace k with (start + Z.of_nat (Z.to_nat (k - start))) by lia.
    rewrite !(upsert_build_inside _ _ _ _ _ _ _ Hfaq Hemb). reflexivity.
  - rewrite !upsert_build_outside by lia. reflexivity.
Qed.

Lemma index_faqs_inversion (env : Env) (self : FAQRetriever) (faqs : list FAQ)
    (embeddings : list Vector) (w w' : World) :
  index_faqs env self faqs embeddings w = (Ok tt, w') ->
  List.length faqs = List.length embeddings
  /\ qdrant_fault env
       (Upsert (collection_name self) (build_points 0 faqs embeddings)) = None
  /\ exists c,
       qdrant w !! collection_name self = Some c
       /\ qdrant w' =
            <[collection_name self :=
                {| vector_size := vector_size c;
                   points := upsert_points (build_points 0 faqs embeddings) (points c) |}]>
              (qdrant w)
       /\ interactions w' = interactions w
       /\ trace w' = trace w ++ [EvQdrantUpsert (collection_name self)
                                   (build_points 0 faqs embeddings)].
Proof.
  unfold index_faqs, client_upsert.
  destruct (Nat.eqb_spec (List.length faqs) (List.length embeddings)) as [Hlen|Hlen];
    cbn [negb]; [|unfold raise; discriminate].
  destruct (qdrant_fault env _) as [e|]; [discriminate|].
  unfold_monad. unfold store_points. cbn [qdrant].
  destruct (qdrant w !! collection_name self) as [c|]; [|discriminate].
  intros Heq. inversion Heq; subst; clear Heq.
  split; [exact Hlen|]. split; [reflexivity|]. exists c. repeat split.
Qed.

Lemma index_faqs_accepts (env : Env) (self : FAQRetriever) (faqs : list FAQ)
    (embeddings : list Vector) (w : World) (c : Collection) :
  List.length faqs = List.length embeddings ->
  qdrant_fault env
    (Upsert (collection_name self) (build_points 0 faqs embeddings)) = None ->
  qdrant w !! collection_name self = Some c ->
  exists w', index_faqs env self faqs embeddings w = (Ok tt, w').
Proof.
  intros Hlen Hdown Hc.
  unfold index_faqs, client_upsert.
  destruct (Nat.eqb_spec (List.length faqs) (List.length embeddings)); [|contradiction].
  cbn [negb]. rewrite Hdown. unfold_monad. cbn [qdrant]. rewrite Hc. eauto.
Qed.

(** X14. Insert then look up: after a successful [index_faqs] the FAQ at
    position [i] is stored under point id [i] with its embedding and its
    full content; points with other ids, the dimension of the collection
    and the other collections are untouched; and a success means that
    there were as many embeddings as FAQs. *)
Theorem index_faqs_then_lookup (env : Env) (self : FAQRetriever) (faqs : list FAQ)
    (embeddings : list Vector) (w w' : World) :
  index_faqs env self faqs embeddings w = (Ok tt, w') ->
  List.length faqs = List.length embeddings
  /\ exists c c',
       qdrant w !! collection_name self = Some c
       /\ qdrant w' !! collection_name self = Some c'
       /\ vector_size c' = vector_size c
       /\ (forall (i : nat) faq emb,
              faqs !! i = Some faq -> embeddings !! i = Some emb ->
              points c' !! Z.of_nat i = Some (point_of (Z.of_nat i) faq emb))
       /\ (forall k, k < 0 \/ Z.of_nat (List.length faqs) <= k ->
                     points c' !! k = points c !! k)
       /\ (forall other, other <> collection_name self ->
                         qdrant w' !! other = qdrant w !! other).
Proof.
  intros Hrun. apply index_faqs_inversion in Hrun.
  destruct Hrun as (Hlen & _ & c & Hc & Hq & _).
  split; [exact Hlen|]. exists c. eexists. split; [exact Hc|].
  split; [rewrite Hq; apply lookup_insert_eq|]. cbn [vector_size points].
  split; [reflexivity|]. split; [|split].
  - intros i faq emb Hfaq Hemb.
    apply (upsert_build_inside faqs embeddings 0 (points c) i faq emb Hfaq Hemb).
  - intros k Hk. apply upsert_build_outside. lia.
  - intros other Hne. rewrite Hq. apply lookup_insert_ne. congruence.
Qed.

(** X14, witness: indexing the two sample FAQs into the sample collection. *)
Lemma index_faqs_then_lookup_witness :
  List.length Sample.faqs = List.length [Sample.vec 0 1 0; Sample.vec 0 1 0].
Proof.
  apply (index_faqs_then_lookup (Sample.env true (Ok []) Sample.db_ok)
           (faq_retriever Sample.services) Sample.faqs
           [Sample.vec 0 1 0; Sample.vec 0 1 0] Sample.indexed_world
           (snd (index_faqs (Sample.env true (Ok []) Sample.db_ok)
                   (faq_retriever Sample.services) Sample.faqs
                   [Sample.vec 0 1 0; Sample.vec 0 1 0] Sample.indexed_world))).
  vm_compute. reflexivity.
Defined.

(** X15. Indexing into an empty collection leaves exactly one point per
    FAQ: the collection holds as many points as there are FAQs, and that
    is the count [get_faq_count] reports when the store answers the
    request for it; when that request fails the count reads as 0. *)
Theorem index_faqs_count (env : Env) (self : FAQRetriever) (faqs : list FAQ)
    (embeddings : list Vector) (w w' : World) (c : Collection) :
  qdrant w !! collection_name self = Some c ->
  points c = ∅ ->
  index_faqs env self faqs embeddings w = (Ok tt, w') ->
  (exists c', qdrant w' !! collection_name self = Some c'
              /\ points_count c' = Z.of_nat (List.length faqs))
  /\ (qdrant_fault env (GetCollection (collection_name self)) = None ->
      fst (get_faq_count env self w') = Ok (Z.of_nat (List.length faqs)))
  /\ (qdrant_fault env (GetCollection (collection_name self)) <> None ->
      fst (get_faq_count env self w') = Ok 0).
Proof.
  intros Hc Hempty Hrun. apply index_faqs_inversion in Hrun.
  destruct Hrun as (Hlen & _ & c0 & Hc0 & Hq & _).
  rewrite Hc in Hc0. inversion Hc0; subst c0; clear Hc0.
  assert (Hsize : points_count
                    {| vector_size := vector_size c;
                       points := upsert_points (build_points 0 faqs embeddings)
                                   (points c) |}
                  = Z.of_nat (List.length faqs)).
  { unfold points_count. cbn [points]. rewrite Hempty.
    rewrite upsert_build_size; [rewrite map_size_empty; reflexivity|exact Hlen|].
    intros k _. apply lookup_empty. }
  split; [|split].
  - eexists. split; [rewrite Hq; apply lookup_insert_eq|exact Hsize].
  - intros Hcount. rewrite get_faq_count_run, Hcount, Hq, lookup_insert_eq. cbn [fst].
    rewrite Hsize. reflexivity.
  - intros Hcount. rewrite get_faq_count_run.
    destruct (qdrant_fault env _); [reflexivity|congruence].
Qed.

(** X15, witness: the two sample FAQs indexed into a freshly created
    collection. *)
Lemma index_faqs_count_witness :
  fst (get_faq_count (Sample.env true (Ok []) Sample.db_ok)
         (faq_retriever Sample.services)
         (snd (index_faqs (Sample.env true (Ok []) Sample.db_ok)
                 (faq_retriever Sample.services) Sample.faqs
                 [Sample.vec 0 1 0; Sample.vec 0 1 0] Sample.created_world)))
  = Ok 2.
Proof.
  apply (index_faqs_count (Sample.env true (Ok []) Sample.db_ok)
           (faq_retriever Sample.services) Sample.faqs
           [Sample.vec 0 1 0; Sample.vec 0 1 0] Sample.created_world _
           (fresh_collection (faq_retriever Sample.services))).
  - vm_compute. reflexivity.
  - reflexivity.
  - vm_compute. reflexivity.
  - reflexivity.
Defined.

(** X16. Re-indexing overwrites instead of duplicating: a second [index_faqs]
    with the same FAQs and embeddings succeeds and leaves every collection
    as the first one left it. *)
Theorem index_faqs_twice (env : Env) (self : FAQRetriever) (faqs : list FAQ)
    (embeddings : list Vector) (w w1 : World) :
  index_faqs env self faqs embeddings w = (Ok tt, w1) ->
  exists w2,
    index_faqs env self faqs embeddings w1 = (Ok tt, w2)
    /\ qdrant w2 = qdrant w1.
Proof.
  intros Hrun. apply index_faqs_inversion in Hrun.
  destruct Hrun as (Hlen & Hdown & c & Hc & Hq & _).
  assert (Hc1 : qdrant w1 !! collection_name self
                = Some {| vector_size := vector_size c;
                          points := upsert_points (build_points 0 faqs embeddings)
                                      (points c) |}).
  { rewrite Hq. apply lookup_insert_eq. }
  destruct (index_faqs_accepts env self faqs embeddings w1 _ Hlen Hdown Hc1)
    as [w2 Hrun2].
  exists w2. split; [exact Hrun2|].
  apply index_faqs_inversion in Hrun2.
  destruct Hrun2 as (_ & _ & c1 & Hc1' & Hq2 & _).
  rewrite Hc1 in Hc1'. inversion Hc1'; subst c1; clear Hc1'.
  rewrite Hq2. cbn [vector_size points].
  rewrite upsert_build_twice by exact Hlen.
  apply insert_id. exact Hc1.
Qed.

(** X16, witness: the two sample FAQs indexed into the sample collection. *)
Lemma index_faqs_twice_witness :
  exists w2,
    index_faqs (Sample.env true (Ok []) Sample.db_ok) (faq_retriever Sample.services)
      Sample.faqs [Sample.vec 0 1 0; Sample.vec 0 1 0]
      (snd (index_faqs (Sample.env true (Ok []) Sample.db_ok)
              (faq_retriever Sample.services) Sample.faqs
              [Sample.vec 0 1 0; Sample.vec 0 1 0] Sample.created_world))
    = (Ok tt, w2).
Proof.
  destruct (index_faqs_twice (Sample.env true (Ok []) Sample.db_ok)
              (faq_retriever Sample.services) Sample.faqs
              [Sample.vec 0 1 0; Sample.vec 0 1 0] Sample.created_world
              (snd (index_faqs (Sample.env true (Ok []) Sample.db_ok)
                      (faq_retriever Sample.services) Sample.faqs
                      [Sample.vec 0 1 0; Sample.vec 0 1 0] Sample.created_world)))
    as (w2 & Hrun & _).
  - vm_compute. reflexivity.
  - exists w2. exact Hrun.
Defined.

(* ===================================================================== *)
(** ** Further properties of start-up and of the health check             *)
(* ===================================================================== *)

Lemma generate_embeddings_batch_run (env : Env) (self : EmbeddingService)
    (texts : list string) (w : World) :
  generate_embeddings_batch env self texts w =
  (embeddings_create env (emb_model self) (InputTexts texts),
   add_events [EvEmbeddingsCreate (InputTexts texts)] w).
Proof.
  unfold generate_embeddings_batch, add_events. unfold_monad.
  destruct (embeddings_create env (emb_model self) (InputTexts texts)); reflexivity.
Qed.

Lemma filter_none {A} (f : A -> bool) (xs : list A) :
  (forall x, f x = false) -> List.filter f xs = [].
Proof.
  intros H. induction xs as [|x xs IH]; [reflexivity|].
  cbn [List.filter]. rewrite H. exact IH.
Qed.

Lemma store_points_frame (name : string) (pts : list PointStruct) (w : World) :
  interactions (store_points name pts w) = interactions w
  /\ trace (store_points name pts w) = trace w
  /\ (forall other, other <> name ->
         qdrant (store_points name pts w) !! other = qdrant w !! other)
  /\ (pts = [] -> qdrant (store_points name pts w) = qdrant w).
Proof.
  unfold store_points. destruct (qdrant w !! name) as [c|] eqn:Hc.
  - cbn [set_qdrant interactions trace qdrant]. repeat split.
    + intros other Hne. apply lookup_insert_ne. congruence.
    + intros ->. cbn [upsert_points fold_left]. apply insert_id.
      rewrite Hc. destruct c. reflexivity.
  - repeat split.
Qed.

(** An [index_faqs] that raises leaves the log and the other collections
    alone; it leaves the collection alone too when the store kept nothing
    of the batch. *)
Lemma index_faqs_raise_frame (env : Env) (self : FAQRetriever) (faqs : list FAQ)
    (embeddings : list Vector) (w w' : World) (e : Exception) :
  index_faqs env self faqs embeddings w = (Raise e, w') ->
  interactions w' = interactions w
  /\ (forall other, other <> collection_name self ->
         qdrant w' !! other = qdrant w !! other)
  /\ ((forall name pts p, upsert_kept env name pts p = false) -> qdrant w' = qdrant w)
  /\ (List.length faqs <> List.length embeddings ->
      e = Exc "Number of FAQs must match number of embeddings" /\ w' = w).
Proof.
  unfold index_faqs, client_upsert.
  destruct (Nat.eqb_spec (List.length faqs) (List.length embeddings)) as [Hlen|Hlen];
    cbn [negb].
  - destruct (qdrant_fault env _) as [e0|].
    + intros Heq. inversion Heq; subst.
      destruct (store_points_frame (collection_name self)
                  (List.filter (upsert_kept env (collection_name self)
                                  (build_points 0 faqs embeddings))
                     (build_points 0 faqs embeddings)) w) as (Hi & _ & Ho & Hn).
      split; [exact Hi|]. split; [exact Ho|]. split; [|contradiction].
      intros Hkept. apply Hn. apply filter_none. intros p. apply Hkept.
    + unfold_monad. cbn [qdrant].
      destruct (qdrant w !! collection_name self) as [c|]; [discriminate|].
      intros Heq; inversion Heq; subst. repeat split; try contradiction.
  - unfold raise. intros Heq. inversion Heq; subst. repeat split.
Qed.

(** X17. First start-up on a store without the collection: when the settings
    load, the store lists its collections, creates the collection and
    accepts the upsert, the FAQ file loads and the provider answers the
    batch with one vector per FAQ,
    [startup_event] succeeds after exactly three calls, in this order: the
    creation of the collection, one batch embedding of all the questions,
    one upsert; the collection then holds one point per FAQ, the FAQ at
    position [i] under id [i] with its embedding and content; the
    interaction log is untouched. *)
Theorem startup_indexes_fresh_store (env : Env) (w : World) (s : Settings)
    (faqs : list FAQ) (embeddings : list Vector) :
  get_settings env = Ok s ->
  qdrant_fault env GetCollections = None ->
  qdrant_fault env (CreateCollection (qdrant_collection_name s)) = None ->
  qdrant_fault env
    (Upsert (qdrant_collection_name s) (build_points 0 faqs embeddings)) = None ->
  qdrant w !! qdrant_collection_name s = None ->
  legal_faqs_json env = Ok faqs ->
  embeddings_create env (embedding_model s) (InputTexts (map FAQ_question faqs))
  = Ok embeddings ->
  List.length faqs = List.length embeddings ->
  exists w' c',
    startup_event env w = (Ok (services_of s), w')
    /\ new_events w w' =
         [EvQdrantCreateCollection (qdrant_collection_name s);
          EvEmbeddingsCreate (InputTexts (map FAQ_question faqs));
          EvQdrantUpsert (qdrant_collection_name s) (build_points 0 faqs embeddings)]
    /\ interactions w' = interactions w
    /\ qdrant w' !! qdrant_collection_name s = Some c'
    /\ vector_size c' = embedding_dimension s
    /\ points_count c' = Z.of_nat (List.length faqs)
    /\ (forall (i : nat) faq emb,
           faqs !! i = Some faq -> embeddings !! i = Some emb ->
           points c' !! Z.of_nat i = Some (point_of (Z.of_nat i) faq emb)).
Proof.
  intros Hset Hdown Hcreate Hupsert Hnone Hfile Hemb Hlen.
  set (retriever := {| collection_name := qdrant_collection_name s;
                       retriever_dimension := embedding_dimension s |}).
  pose proof (initialize_collection_cases env retriever w) as Hinit.
  cbn zeta in Hinit. rewrite Hdown in Hinit. cbn [collection_name retriever] in Hinit.
  rewrite Hnone, Hcreate in Hinit.
  destruct (initialize_collection env retriever w) as [r1 w1] eqn:Hrun1.
  cbn [fst snd] in Hinit. destruct Hinit as (-> & Hq1 & Hi1 & _ & _ & Ht1).
  assert (Hc1 : qdrant w1 !! qdrant_collection_name s = Some (fresh_collection retriever)).
  { rewrite Hq1. apply lookup_insert_eq. }
  set (w2 := add_events [EvEmbeddingsCreate (InputTexts (map FAQ_question faqs))] w1).
  destruct (index_faqs_accepts env retriever faqs embeddings w2 _ Hlen Hupsert Hc1)
    as [w3 Hrun3].
  pose proof (index_faqs_inversion _ _ _ _ _ _ Hrun3)
    as (_ & _ & c & Hc & Hq3 & Hi3 & Ht3).
  cbn [w2 add_events qdrant collection_name retriever] in Hc.
  rewrite Hc1 in Hc. inversion Hc; subst c; clear Hc.
  exists w3. eexists.
  split.
  { unfold startup_event. rewrite Hset. unfold lift at 1, Database_initialize.
    unfold bind at 1. unfold try_except. unfold bind at 1. unfold ret at 1.
    unfold bind at 1. fold retriever. rewrite Hrun1.
    unfold bind at 1. rewrite get_faq_count_run.
    cbn [collection_name retriever]. rewrite Hc1.
    change (points_count (fresh_collection retriever)) with 0.
    assert (Hzero : (match qdrant_fault env (GetCollection (qdrant_collection_name s)) with
                     | Some _ => 0
                     | None => 0
                     end =? 0)%Z = true)
      by (destruct (qdrant_fault env (GetCollection (qdrant_collection_name s)));
          reflexivity).
    rewrite Hzero.
    unfold bind at 1. unfold bind at 1. unfold lift. rewrite Hfile.
    unfold bind at 1. rewrite generate_embeddings_batch_run. cbn [emb_model].
    rewrite Hemb. fold w2. fold retriever. rewrite Hrun3. reflexivity. }
  split.
  { apply new_events_app. rewrite Ht3. cbn [w2 add_events trace collection_name retriever].
    rewrite Ht1. rewrite <- !app_assoc. reflexivity. }
  split; [rewrite Hi3; cbn [w2 add_events interactions]; exact Hi1|].
  split; [rewrite Hq3; cbn [collection_name retriever]; apply lookup_insert_eq|].
  cbn [vector_size points fresh_collection retriever retriever_dimension].
  split; [reflexivity|]. split.
  - unfold points_count. cbn [points].
    rewrite upsert_build_size; [rewrite map_size_empty; reflexivity|exact Hlen|].
    intros k _. apply lookup_empty.
  - intros i faq emb Hfaq Hembi.
    apply (upsert_build_inside faqs embeddings 0 ∅ i faq emb Hfaq Hembi).
Qed.

(** X17, witness: the first start-up of the sample deployment. *)
Lemma startup_indexes_fresh_store_witness :
  exists w' c',
    startup_event (Sample.env true (Ok []) Sample.db_ok) Sample.empty_world
    = (Ok (services_of Sample.settings), w')
    /\ qdrant w' !! "legal_faqs" = Some c'
    /\ points_count c' = 2.
Proof.
  destruct (startup_indexes_fresh_store (Sample.env true (Ok []) Sample.db_ok)
              Sample.empty_world Sample.settings Sample.faqs
              [Sample.vec 0 1 0; Sample.vec 0 1 0])
    as (w' & c' & Hrun & _ & _ & Hc' & _ & Hcount & _).
  - reflexivity.
  - reflexivity.
  - reflexivity.
  - reflexivity.
  - reflexivity.
  - reflexivity.
  - reflexivity.
  - reflexivity.
  - exists w', c'. repeat split; assumption.
Defined.

(** X18. A start-up that fails leaves the interaction log as it was and
    touches no collection but the configured one.  When the store keeps
    nothing of a batch whose upsert it fails, the start-up leaves no
    half-indexed collection either: every collection that existed is
    exactly as before, and at most the configured collection was created,
    empty. *)
Theorem startup_failure_indexes_nothing (env : Env) (w w' : World) (e : Exception) :
  startup_event env w = (Raise e, w') ->
  interactions w' = interactions w
  /\ (forall s name, get_settings env = Ok s -> name <> qdrant_collection_name s ->
         qdrant w' !! name = qdrant w !! name)
  /\ ((forall name pts p, upsert_kept env name pts p = false) ->
      forall name c',
        qdrant w' !! name = Some c' ->
        qdrant w !! name = Some c' \/ (qdrant w !! name = None /\ points c' = ∅)).
Proof.
  unfold startup_event.
  destruct (get_settings env) as [s|e0].
  2:{ unfold lift, bind. intros Heq. inversion Heq; subst.
      split; [reflexivity|]. split; [discriminate|]. auto. }
  unfold lift at 1, Database_initialize.
  unfold bind at 1. unfold try_except. unfold bind at 1. unfold ret at 1.
  unfold bind at 1.
  set (retriever := {| collection_name := qdrant_collection_name s;
                       retriever_dimension := embedding_dimension s |}).
  pose proof (initialize_collection_cases env retriever w) as Hinit. cbn zeta in Hinit.
  destruct (initialize_collection env retriever w) as [r1 w1] eqn:Hrun1.
  assert (Hframe : interactions w1 = interactions w
                   /\ (forall name, name <> qdrant_collection_name s ->
                          qdrant w1 !! name = qdrant w !! name)
                   /\ forall name c',
                        qdrant w1 !! name = Some c' ->
                        qdrant w !! name = Some c'
                        \/ (qdrant w !! name = None /\ points c' = ∅)).
  { destruct (qdrant_fault env GetCollections).
    - inversion Hinit; subst. auto.
    - destruct (qdrant w !! collection_name retriever) eqn:Hc.
      + inversion Hinit; subst. auto.
      + destruct (qdrant_fault env (CreateCollection (collection_name retriever))).
        * inversion Hinit; subst. auto.
        * cbn [fst snd] in Hinit. destruct Hinit as (_ & Hq & Hi & _).
          split; [exact Hi|]. split.
          -- intros name Hne. rewrite Hq. apply lookup_insert_ne.
             cbn [collection_name retriever]. congruence.
          -- intros name c'. rewrite Hq.
             destruct (decide (name = collection_name retriever)) as [->|Hne].
             ++ rewrite lookup_insert_eq. intros Heq. inversion Heq; subst. auto.
             ++ rewrite lookup_insert_ne by congruence. auto. }
  clear Hinit Hrun1.
  assert (Hdone : forall w2 : World,
             interactions w2 = interactions w1 ->
             (forall other, other <> qdrant_collection_name s ->
                qdrant w2 !! other = qdrant w1 !! other) ->
             ((forall name pts p, upsert_kept env name pts p = false) ->
              qdrant w2 = qdrant w1) ->
             interactions w2 = interactions w
             /\ (forall s0 name, Ok (E := Exception) s = Ok s0 ->
                    name <> qdrant_collection_name s0 ->
                    qdrant w2 !! name = qdrant w !! name)
             /\ ((forall name pts p, upsert_kept env name pts p = false) ->
                 forall name c',
                   qdrant w2 !! name = Some c' ->
                   qdrant w !! name = Some c'
                   \/ (qdrant w !! name = None /\ points c' = ∅))).
  { intros w2 Hi Ho Hq. destruct Hframe as (Hi1 & Ho1 & Hq1).
    split; [congruence|]. split.
    - intros s0 name Heq Hne. inversion Heq; subst s0.
      rewrite Ho by exact Hne. apply Ho1. exact Hne.
    - intros Hkept name c'. rewrite (Hq Hkept). apply Hq1. }
  destruct r1 as [[]|e1]; [|intros Heq; inversion Heq; subst; apply Hdone; auto].
  unfold bind at 1. rewrite get_faq_count_run.
  destruct (Z.eqb _ 0).
  2:{ unfold_monad. discriminate. }
  unfold bind at 1. unfold bind at 1. unfold lift.
  destruct (legal_faqs_json env) as [faqs|e1];
    [|intros Heq; inversion Heq; subst; apply Hdone; auto].
  unfold bind at 1. rewrite generate_embeddings_batch_run.
  destruct (embeddings_create env _ _) as [embeddings|e1];
    [|intros Heq; inversion Heq; subst; apply Hdone; auto].
  destruct (index_faqs env retriever faqs embeddings _) as [[[]|e3] w3] eqn:Hrun3.
  { unfold_monad. discriminate. }
  apply index_faqs_raise_frame in Hrun3. destruct Hrun3 as (Hi3 & Ho3 & Hq3 & _).
  cbn [add_events qdrant interactions collection_name retriever] in Hi3, Ho3, Hq3.
  intros Heq. inversion Heq; subst. apply Hdone; assumption.
Qed.

(** X18, witness: the store of the sample deployment rejects the batch as a
    whole at the first start-up; the collection was created and is empty. *)
Lemma startup_failure_indexes_nothing_witness :
  let env := Sample.env_upsert_fails 0 in
  let w' := snd (startup_event env Sample.empty_world) in
  fst (startup_event env Sample.empty_world)
  = Raise (Exc "Wrong input: Vector dimension error")
  /\ forall name c',
       qdrant w' !! name = Some c' ->
       qdrant Sample.empty_world !! name = Some c'
       \/ (qdrant Sample.empty_world !! name = None /\ points c' = ∅).
Proof.
  cbv zeta. split; [vm_compute; reflexivity|].
  apply (startup_failure_indexes_nothing (Sample.env_upsert_fails 0) Sample.empty_world
           (snd (startup_event (Sample.env_upsert_fails 0) Sample.empty_world))
           (Exc "Wrong input: Vector dimension error")).
  - vm_compute. reflexivity.
  - intros name pts p. cbn [Sample.env_upsert_fails upsert_kept].
    destruct (Z.leb_spec 0 (point_id p)), (Z.ltb_spec (point_id p) 0);
      try reflexivity; lia.
Defined.

(** A store that stops a batch at its first bad point keeps the points
    before it: a start-up whose upsert fails at the second of the two
    sample points leaves the collection half indexed, and the next
    start-up, finding one point, does not index. *)
Example startup_failure_half_indexed :
  let env := Sample.env_upsert_fails 1 in
  let r := startup_event env Sample.empty_world in
  fst r = Raise (Exc "Wrong input: Vector dimension error")
  /\ (exists c, qdrant (snd r) !! "legal_faqs" = Some c /\ points_count c = 1)
  /\ fst (startup_event env (snd r)) = Ok (services_of Sample.settings)
  /\ new_events (snd r) (snd (startup_event env (snd r))) = [].
Proof.
  cbv zeta. split; [vm_compute; reflexivity|]. split.
  - eexists. split; vm_compute; reflexivity.
  - split; vm_compute; reflexivity.
Qed.

(** X19. When the provider answers the batch with a number of vectors that is
    not the number of FAQs, a start-up that has to index fails with
    "Number of FAQs must match number of embeddings" and has made no
    upsert call. *)
Theorem startup_rejects_miscounted_embeddings (env : Env) (w : World) (s : Settings)
    (faqs : list FAQ) (embeddings : list Vector) :
  get_settings env = Ok s ->
  qdrant_fault env GetCollections = None ->
  qdrant_fault env (CreateCollection (qdrant_collection_name s)) = None ->
  (forall c, qdrant w !! qdrant_collection_name s = Some c -> points c = ∅) ->
  legal_faqs_json env = Ok faqs ->
  embeddings_create env (embedding_model s) (InputTexts (map FAQ_question faqs))
  = Ok embeddings ->
  List.length faqs <> List.length embeddings ->
  let r := startup_event env w in
  fst r = Raise (Exc "Number of FAQs must match number of embeddings")
  /\ count_events is_upsert_call (new_events w (snd r)) = 0%nat
  /\ count_events is_embedding_call (new_events w (snd r)) = 1%nat.
Proof.
  intros Hset Hdown Hcreate Hempty Hfile Hemb Hlen r. subst r.
  set (retriever := {| collection_name := qdrant_collection_name s;
                       retriever_dimension := embedding_dimension s |}).
  pose proof (initialize_collection_cases env retriever w) as Hinit.
  cbn zeta in Hinit. rewrite Hdown in Hinit. cbn [collection_name retriever] in Hinit.
  rewrite Hcreate in Hinit.
  destruct (initialize_collection env retriever w) as [r1 w1] eqn:Hrun1.
  assert (H1 : r1 = Ok tt
               /\ (exists c, qdrant w1 !! qdrant_collection_name s = Some c
                             /\ points c = ∅)
               /\ exists evs, trace w1 = trace w ++ evs
                              /\ count_events is_upsert_call evs = 0%nat
                              /\ count_events is_embedding_call evs = 0%nat).
  { destruct (qdrant w !! qdrant_collection_name s) as [c|] eqn:Hc.
    - inversion Hinit; subst. split; [reflexivity|]. split; [eauto|].
      exists []. rewrite app_nil_r. auto.
    - cbn [fst snd] in Hinit. destruct Hinit as (-> & Hq & _ & _ & _ & Ht).
      split; [reflexivity|]. split.
      + eexists. split; [rewrite Hq; apply lookup_insert_eq|reflexivity].
      + eexists. split; [exact Ht|]. split; reflexivity. }
  destruct H1 as (-> & (c & Hc & Hpoints) & evs & Ht1 & Hup & Hem).
  assert (Hrun : startup_event env w =
                 (Raise (Exc "Number of FAQs must match number of embeddings"),
                  add_events [EvEmbeddingsCreate (InputTexts (map FAQ_question faqs))] w1)).
  { unfold startup_event. rewrite Hset. unfold lift at 1, Database_initialize.
    unfold bind at 1. unfold try_except. unfold bind at 1. unfold ret at 1.
    unfold bind at 1. fold retriever. rewrite Hrun1.
    unfold bind at 1. rewrite get_faq_count_run.
    cbn [collection_name retriever]. rewrite Hc.
    unfold points_count. rewrite Hpoints, map_size_empty.
    assert (Hzero : (match qdrant_fault env (GetCollection (qdrant_collection_name s)) with
                     | Some _ => 0
                     | None => Z.of_nat 0
                     end =? 0)%Z = true)
      by (destruct (qdrant_fault env (GetCollection (qdrant_collection_name s)));
          reflexivity).
    rewrite Hzero.
    unfold bind, lift. rewrite Hfile. cbn beta iota.
    rewrite generate_embeddings_batch_run. cbn [emb_model]. rewrite Hemb.
    unfold index_faqs.
    destruct (Nat.eqb_spec (List.length faqs) (List.length embeddings)); [contradiction|].
    reflexivity. }
  rewrite Hrun. cbn [fst snd]. split; [reflexivity|].
  rewrite (new_events_app w _
             (evs ++ [EvEmbeddingsCreate (InputTexts (map FAQ_question faqs))])).
  - unfold count_events in *. rewrite !List.filter_app, !length_app, Hup, Hem.
    split; reflexivity.
  - cbn [add_events trace]. rewrite Ht1, <- app_assoc. reflexivity.
Qed.

(** X19, witness: the provider answers the batch of two questions with one
    vector. *)
Lemma startup_rejects_miscounted_embeddings_witness :
  fst (startup_event (Sample.env_batch (Ok [Sample.vec 0 1 0])) Sample.empty_world)
  = Raise (Exc "Number of FAQs must match number of embeddings").
Proof.
  apply (startup_rejects_miscounted_embeddings (Sample.env_batch (Ok [Sample.vec 0 1 0]))
           Sample.empty_world Sample.settings Sample.faqs [Sample.vec 0 1 0]).
  - reflexivity.
  - reflexivity.
  - reflexivity.
  - intros c Hc. vm_compute in Hc. discriminate.
  - reflexivity.
  - reflexivity.
  - simpl. lia.
Defined.

(** X21. What GET /api/health reports when the settings load: the state is
    untouched, [faqs_loaded] is what [get_faq_count] returns (0 for an
    unreachable store or a missing collection), [openai_configured] tells
    whether the API key is non-empty, [qdrant_connected] is true, and the
    status is "healthy" exactly when [openai_configured] is true. *)
Theorem health_check_report (env : Env) (services : Services) (w : World)
    (s : Settings) :
  get_settings env = Ok s ->
  exists h,
    health_check env services w = (Ok h, w)
    /\ fst (get_faq_count env (faq_retriever services) w) = Ok (faqs_loaded h)
    /\ openai_configured h = nonempty (openai_api_key s)
    /\ qdrant_connected h = true
    /\ (status h = "healthy" <-> openai_configured h = true)
    /\ (status h = "degraded" <-> openai_configured h = false).
Proof.
  intros Hset. rewrite health_check_run, get_faq_count_run, Hset.
  eexists. split; [reflexivity|]. cbn [fst faqs_loaded openai_configured
                                         qdrant_connected status].
  split; [reflexivity|]. split; [reflexivity|]. split; [reflexivity|].
  destruct (nonempty (openai_api_key s)); split; split;
    try reflexivity; discriminate.
Qed.

(** X21, witness: the sample deployment with the vector store unreachable. *)
Lemma health_check_report_witness :
  exists h,
    health_check (Sample.env_health "sk-test" (Some Sample.connection_refused))
      Sample.services Sample.empty_world = (Ok h, Sample.empty_world)
    /\ faqs_loaded h = 0.
Proof.
  destruct (health_check_report
              (Sample.env_health "sk-test" (Some Sample.connection_refused))
              Sample.services Sample.empty_world
              (match get_settings (Sample.env_health "sk-test"
                                     (Some Sample.connection_refused)) with
               | Ok s => s
               | Raise _ => Sample.settings
               end))
    as (h & Hrun & Hcount & _).
  - reflexivity.
  - exists h. split; [exact Hrun|]. rewrite get_faq_count_run in Hcount.
    cbn [fst Sample.env_health qdrant_fault] in Hcount. inversion Hcount. reflexivity.
Defined.

(* ===================================================================== *)
(** ** Further edge cases of the pipeline and of the prompt               *)
(* ===================================================================== *)

(** X22. When the embedding provider answers without any data, the request
    fails with the generic HTTP 500 before any search or generation, and
    the error row, if the log store accepts it, stores
    "Error: list index out of range". *)
Theorem empty_embedding_answer_fails_request (env : Env) (services : Services)
    (request : QueryRequest) (w : World) :
  embeddings_create env (emb_model (embedding_service services))
    (InputText (query request)) = Ok [] ->
  let r := ask_question env services request w in
  fst r = Raise GENERIC_FAILURE
  /\ count_events is_search_call (new_events w (snd r)) = 0%nat
  /\ count_events is_chat_call (new_events w (snd r)) = 0%nat
  /\ (log_write_accepted env w ->
      exists row, new_rows w (snd r) = [row]
                  /\ ai_response row = "Error: list index out of range"
                  /\ error_occurred row = true).
Proof.
  intros Hdata r. subst r.
  pose proof (ask_question_runs env services request w) as [_ H].
  unfold retrieval_outcome, retrieval_events, embedding_outcome, error_path in H.
  rewrite Hdata in H.
  destruct (ask_question env services request w) as [r w']. cbn [fst snd] in *.
  destruct H as (Hr & _ & Htr & Hrows).
  split; [exact Hr|]. rewrite (new_events_app _ _ _ Htr).
  split; [reflexivity|]. split; [reflexivity|].
  unfold log_write_accepted. intros Hlog. rewrite Hlog in Hrows.
  eexists. split; [apply new_rows_app, Hrows|]. split; reflexivity.
Qed.

(** X22, witness: the sample deployment with a provider that answers without
    data. *)
Lemma empty_embedding_answer_fails_request_witness :
  fst (ask_question (Sample.env_answers [] []) Sample.services (Sample.request true)
         Sample.empty_world) = Raise GENERIC_FAILURE.
Proof.
  apply (empty_embedding_answer_fails_request (Sample.env_answers [] [])
           Sample.services (Sample.request true) Sample.empty_world).
  reflexivity.
Defined.

Lemma retrieved_of_invalid (env : Env) (results : list ScoredPoint) :
  Exists (fun r => ~ (0 <= score r <= 1)%Q) results ->
  exists e, retrieved_of env results = Raise e.
Proof.
  induction 1 as [r rest Hbad|r rest _ IH]; cbn [retrieved_of].
  - pose proof (hit_outcome_cases env r) as Hhit.
    destruct (hit_outcome env r) as [faq|e]; [|eauto].
    exfalso. apply Hbad. exact (proj2 (proj2 Hhit)).
  - destruct (hit_outcome env r); [|eauto].
    destruct IH as [e ->]. eauto.
Qed.

(** X23. One hit whose similarity score lies outside [0, 1] (a cosine score
    that rounding pushed above 1, say) fails the whole request: the
    generative model is not called, the caller gets the generic HTTP 500,
    and the error row, if accepted, lists no retrieved id. *)
Theorem out_of_range_score_fails_request (env : Env) (services : Services)
    (request : QueryRequest) (w : World) (v : Vector) (s : Settings)
    (results : list ScoredPoint) :
  returns (generate_embedding env (embedding_service services) (query request)) (Ok v) ->
  get_settings env = Ok s ->
  qdrant_fault env
    (Search (search_params_of (faq_retriever services) v (top_k_results s)
               (similarity_threshold s) None)) = None ->
  qdrant_search env
    (search_params_of (faq_retriever services) v (top_k_results s)
       (similarity_threshold s) None) = Ok results ->
  Exists (fun r => ~ (0 <= score r <= 1)%Q) results ->
  let r := ask_question env services request w in
  fst r = Raise GENERIC_FAILURE
  /\ count_events is_chat_call (new_events w (snd r)) = 0%nat
  /\ (log_write_accepted env w ->
      exists row, new_rows w (snd r) = [row]
                  /\ error_occurred row = true
                  /\ retrieved_faq_ids row = []).
Proof.
  intros Hemb Hset Hdown Hsearch Hbad r. subst r.
  destruct (retrieved_of_invalid env results Hbad) as [e He].
  pose proof (ask_question_runs env services request w) as [_ H].
  assert (Hret : retrieval_outcome env services request = Raise e).
  { unfold retrieval_outcome, search_outcome.
    rewrite (embedding_returns _ _ _ _ Hemb), Hset. cbv zeta.
    rewrite Hdown, Hsearch. exact He. }
  rewrite Hret in H. unfold error_path, retrieval_events in H.
  rewrite (embedding_returns _ _ _ _ Hemb), Hset in H. cbv zeta in H.
  rewrite Hdown in H.
  destruct (ask_question env services request w) as [r w']. cbn [fst snd] in *.
  destruct H as (Hr & _ & Htr & Hrows).
  split; [exact Hr|]. split; [rewrite (new_events_app _ _ _ Htr); reflexivity|].
  unfold log_write_accepted. intros Hlog. rewrite Hlog in Hrows.
  eexists. split; [apply new_rows_app, Hrows|]. split; reflexivity.
Qed.

(** X23, witness: the store of the sample deployment reports the car-accident
    FAQ with score 1.0000001. *)
Lemma out_of_range_score_fails_request_witness :
  fst (ask_question
         (Sample.env_answers [Sample.vec 1 0 0]
            [ {| scored_payload := Some (payload_dict Sample.car_accident); score := 10000001 # 10000000 |} ])
         Sample.services (Sample.request true) Sample.empty_world)
  = Raise GENERIC_FAILURE.
Proof.
  apply (out_of_range_score_fails_request
           (Sample.env_answers [Sample.vec 1 0 0]
              [ {| scored_payload := Some (payload_dict Sample.car_accident);
                   score := 10000001 # 10000000 |} ])
           Sample.services (Sample.request true) Sample.empty_world
           (Sample.vec 1 0 0) Sample.settings
           [ {| scored_payload := Some (payload_dict Sample.car_accident); score := 10000001 # 10000000 |} ]).
  - intros w. reflexivity.
  - reflexivity.
  - reflexivity.
  - reflexivity.
  - left. cbn [score]. intros [_ Hhi]. unfold Qle in Hhi. simpl in Hhi. lia.
Defined.

Lemma string_append_assoc (a b c : string) : (a +:+ b) +:+ c = a +:+ b +:+ c.
Proof.
  induction a as [|ch a IH]; [reflexivity|].
  change ((String ch a +:+ b) +:+ c) with (String ch ((a +:+ b) +:+ c)).
  rewrite IH. reflexivity.
Qed.

Lemma string_append_nil_r (a : string) : a +:+ EmptyString = a.
Proof.
  induction a as [|ch a IH]; [reflexivity|].
  change (String ch a +:+ EmptyString) with (String ch (a +:+ EmptyString)).
  rewrite IH. reflexivity.
Qed.

Lemma contains_self (s : string) : contains s s.
Proof.
  exists EmptyString, EmptyString.
  change (EmptyString +:+ s +:+ EmptyString) with (s +:+ EmptyString).
  rewrite string_append_nil_r. reflexivity.
Qed.

Lemma contains_append_l (a b sub : string) : contains a sub -> contains (a +:+ b) sub.
Proof.
  intros (pre & post & ->). exists pre, (post +:+ b).
  rewrite !string_append_assoc. reflexivity.
Qed.

Lemma contains_append_r (a b sub : string) : contains b sub -> contains (a +:+ b) sub.
Proof.
  intros (pre & post & ->). exists (a +:+ pre), post.
  rewrite !string_append_assoc. reflexivity.
Qed.

Lemma contains_concat (sep : string) (parts : list string) (p : string) :
  In p parts -> contains (String.concat sep parts) p.
Proof.
  induction parts as [|x xs IH]; intros Hin; [destruct Hin|].
  destruct xs as [|y ys].
  - destruct Hin as [->|[]]. apply contains_self.
  - change (String.concat sep (x :: y :: ys))
      with (x +:+ sep +:+ String.concat sep (y :: ys)).
    destruct Hin as [->|Hin].
    + apply contains_append_l, contains_self.
    + apply contains_append_r, contains_append_r, IH, Hin.
Qed.

Lemma context_parts_mention (faqs : list RetrievedFAQ) (idx : nat) (faq : RetrievedFAQ) :
  In faq faqs ->
  In ("Question: " +:+ question faq) (context_parts idx faqs)
  /\ In ("Answer: " +:+ answer faq) (context_parts idx faqs).
Proof.
  revert idx. induction faqs as [|f rest IH]; intros idx Hin; [destruct Hin|].
  cbn [context_parts]. destruct Hin as [->|Hin].
  - split; [right; left; reflexivity|right; right; left; reflexivity].
  - destruct (IH (S idx) Hin) as [Hq Ha]. split; right; right; right; assumption.
Qed.

(** X24. Grounding: the one request [generate_answer] sends to the generative
    model uses the configured model, temperature and token limit and the
    fixed system prompt, and its user message carries, verbatim, the
    question and the answer of every retrieved FAQ and the user's
    question. *)
Theorem generate_answer_sends_every_faq (env : Env) (self : AnswerGenerator)
    (user_query : string) (retrieved_faqs : list RetrievedFAQ) (w : World)
    (req : ChatRequest) (faq : RetrievedFAQ) :
  In (EvChatCompletion req)
     (new_events w (snd (generate_answer env self user_query retrieved_faqs w))) ->
  In faq retrieved_faqs ->
  chat_model req = gen_model self
  /\ chat_temperature req = gen_temperature self
  /\ chat_max_tokens req = gen_max_tokens self
  /\ chat_system req = SYSTEM_PROMPT
  /\ contains (chat_user req) ("Question: " +:+ question faq)
  /\ contains (chat_user req) ("Answer: " +:+ answer faq)
  /\ contains (chat_user req) ("User Question: " +:+ user_query).
Proof.
  rewrite generate_answer_run. cbn [snd].
  rewrite (new_events_app w _ [EvGenerateAnswer user_query retrieved_faqs;
                               EvChatCompletion (chat_request self user_query
                                                   retrieved_faqs)])
    by (cbn [add_events trace]; rewrite <- app_assoc; reflexivity).
  intros [Heq|[Heq|[]]] Hin; [discriminate|]. inversion Heq; subst req; clear Heq.
  cbn [chat_request chat_model chat_temperature chat_max_tokens chat_system chat_user].
  repeat split.
  - unfold _build_user_prompt. apply contains_append_l.
    destruct retrieved_faqs as [|f rest]; [destruct Hin|]. unfold _build_context.
    apply contains_concat. right. apply context_parts_mention. exact Hin.
  - unfold _build_user_prompt. apply contains_append_l.
    destruct retrieved_faqs as [|f rest]; [destruct Hin|]. unfold _build_context.
    apply contains_concat. right. apply context_parts_mention. exact Hin.
  - unfold _build_user_prompt.
    do 3 apply contains_append_r. rewrite <- string_append_assoc.
    apply contains_append_l, contains_self.
Qed.

(** X24, witness: the composer called with the sample hit. *)
Lemma generate_answer_sends_every_faq_witness :
  contains
    (chat_user (chat_request (answer_generator Sample.services)
                  "What should I do after a car accident?" [Sample.car_accident_hit]))
    "Answer: Call the police and exchange insurance details.".
Proof.
  apply (generate_answer_sends_every_faq
           (Sample.env true (Ok [Some "generated"]) Sample.db_ok)
           (answer_generator Sample.services) "What should I do after a car accident?"
           [Sample.car_accident_hit] Sample.empty_world
           (chat_request (answer_generator Sample.services)
              "What should I do after a car accident?" [Sample.car_accident_hit])
           Sample.car_accident_hit).
  - vm_compute. right. left. reflexivity.
  - left. reflexivity.
Defined.
